(* ===== verification/_CoqProject ===== *)
-Q . S2P
Prelude.v
PyDict.v
Registry.v
Persistence.v
KeyMachine.v
Dispatch.v
Polling.v
Traces.v
JsonFiles.v
Budget.v
System.v
Pressed.v
Aliasing.v
Reentrant.v
ReentrantCalls.v
ReentrantTyped.v
ReentrantRefines.v
ReentrantScenarios.v
Scenarios.v
