(* ===== verification/Prelude.v ===== *)
(** * A verification development of [Keyboard_binding.py]

    The repository is one Python class, [keyboard_binding] in
    [src/Keyboard_binding.py].  It keeps a registry [self.keys], a Python
    [dict] from key names to five-slot lists
    [[target, pressed, latch, toggle, [heads, tails]]], and offers
    - a mutation API: [add_key], [change_toggle], [remove_key], [remap],
      [bind], [bulk_bind], [clear_bind], [remove_bind], [swap_binds],
      [get_binds] (lines 127-269);
    - persistence of the key-to-target map: [load_keys], [save_keys]
      (lines 96-123), through [json] and the file system;
    - the polling handler [update] (lines 273-321), which asks the window
      focus oracle ([pygetwindow]) whether the application window is active,
      then walks the registry in insertion order.  For every key [k] it
      resolves the effective entry (one hop through [target]), samples
      [keyboard.is_pressed k], and runs the edge or continuous state
      machine on the effective entry, calling its head or tail callbacks
      through [__call_bind].

    The parts interact only through the shared registry: the mutation API
    and [load_keys] write it, [save_keys] reads it, and [update] reads it and
    writes the pressed and latch slots of the entries it dispatches on.  An
    external driver loop calls [update] at a fixed rate.  Callbacks are
    opaque: a callback is a handle (its Python identity, compared by [==]),
    every call is appended to a log, and a callback may raise.

    ** Files, in dependency order
    - [Prelude] (this file): the effect monad [PyM] (state and exceptions,
      where the mutations made before an exception stay made, as in
      Python); the loop [for_] with its invariant and abort lemmas; the
      predicate [preserves] (a state property kept by a computation, also
      when it raises) and the predicate [oblivious] (a computation that
      cannot observe what a projection of the state forgets, with its
      setoid [ε_equiv] and [Proper] instance), both closed under the
      monad's operations; pointwise equality [≡] of computations with its
      [Proper] lemmas, the predicate [never_raises], and the loop lemma
      [for_seq_inv] for [range] loops; [catch] for [try]/[except]; the
      functional refinement [commutes] of one computation by another
      along a map of states, closed under the monad and loops; Python
      list helper [remove_first] (drop the first occurrence); the tactics [decide_cases], [case_inner]
      and [py_unfold]; the hint databases [kb] and [kb_simpl].
    - [PyDict]: Python's insertion-ordered [dict] with string keys, as an
      association list: [get] ([d.get(k)]), [setitem] ([d[k] = v]: an
      existing key keeps its place, a new one goes last), [alter] (an
      in-place update of the stored object), [pop], [keys] (the iteration
      order).  Invariant [wf]: distinct keys.  Abstract specification:
      stdpp's [gmap], with the refinement theorem [dict_refines_gmap].
    - [Registry]: [KeyEntry] (the five-slot list as a record),
      [keyboard_binding] ([APP_TITLE] and [keys]), the constructor [init]
      with its 39 default keys in source order, and every method of the
      mutation API as a computation of [PyM] on the object, with the
      source's [bool] results and its [TypeError] ([find_index] is the
      index loop of [remove_bind]).  [api] runs any call of the API;
      [kb_inv] is the registry invariant.
    - [Persistence]: [load_keys] on the decoded JSON object ([None] for
      any failure the bare [except] catches) and [save_keys] (the object
      [json.dump] writes).
    - [KeyMachine]: the specification's abstract state machine of one
      effective entry: phases [Released], [HeldPending], [HeldFired], the
      transition relation [tick], its executable form [next_phase], and
      runs over several polls.  It models no code: it is what [update] is
      proved to implement.
    - [Dispatch]: [__is_app_active], [__call_bind], the one-hop resolution
      [resolve], one iteration of the loop [update_key], and [update].  A
      poll observes a [sample] (focus oracle answer, key-state source,
      which callbacks raise); the state is a [world] (the object and the
      call log).  Specifications: [poll_seq] (the loop as a pure function)
      and [poll_par] (every entry ticked once by its driver).
    - [Polling]: the driver loop [polls] (outside [src/], modelled from the
      specification) and runs of several polls for one key.
    - [Traces]: the driver loop on any trace and on an infinite stream of
      samples ([stream_polls], its first [n] polls), with the abstract
      machine read along the stream ([phase_at], [event_at]).
    - [JsonFiles]: [load_keys] and [save_keys] on what the libraries
      really hand them: JSON values ([json], integers only), [json.load]'s
      decoding ([decode]: an object becomes a dict, a repeated key keeps
      its first position and last value), Python's [==] for [key != v]
      ([entry_eq]), a file system of documents ([fs]), the [try]/[except]
      of [load_keys] ([catch]), and [update] on a registry whose targets
      are JSON values ([jupdate], where hashing a list or object target
      raises [TypeError]).  Its poll also asks the keyboard library
      ([jsample]: the answers of one poll and the key names the library
      knows), so [keyboard.is_pressed] raises [ValueError] on a name it
      cannot map ([key_pressed]).  [jembed] embeds the string model.
    - [Budget]: the number of callbacks one poll can call, with the
      combinators [grows] that compose such bounds along the code.
    - [System]: the client's view: any sequence of API calls, loads and
      polls ([op], [step_op]) from the constructor, as the inductive
      relation [reachable].
    - [Pressed]: the projection that forgets the pressed slot of every
      entry, and the proof that every operation is oblivious to it.
    - [Aliasing]: the callback lists as Python list objects in a store
      ([heap], [alloc], in-place [mutate]); every method of the API again
      over the store ([hbind], ..., [hget_binds] returning the objects),
      the separation invariant [sep] (no object in two slots), the value
      view [deref], and the simulation [refines_at] between the two
      models.
    - [Reentrant]: callbacks that call back into the object.  Entry
      objects and list objects in one store ([ents], [rheap]), the dict
      mapping keys to entry objects ([rkeys]), every method of the API
      again over it (the [r] prefix), writing through the object it
      fetched; a callback's [body] (call a method, call [update], raise);
      the poll [rpoll] with the dict iterator's size check ([items_check],
      [ritems]), [__call_bind]'s fixed [range] re-reading the list at each
      step ([rcall_at], [rcall_bind]), and Python's recursion limit
      counted in frames: [rupdate smp n] is [update] with [n] frames left,
      a callback's nested [update] runs three frames deeper, and only
      [__is_app_active] (whose bare [except] catches a [RecursionError]
      of its window query, [ris_app_active_at]) and [keyboard.is_pressed]
      ([rkey_pressed]) can reach the limit.
    - [ReentrantCalls], [ReentrantTyped], [ReentrantRefines]: the
      theorems on that model (below), and
      [ReentrantScenarios] their instances on the constructor's object.
    - [Scenarios]: concrete objects built from [init "App"] through the API,
      concrete polls, the counterexamples, and the general theorems at
      concrete inputs.

    ** What is proved
    - Refinement of [update] by the abstract machine: one iteration ticks
      the effective entry as [tick] says and calls the callbacks of the
      emitted event ([update_key_tick]); a focused poll in which nothing
      raises is [poll_seq]; when no two keys resolve to the same entry it
      is [poll_par], so the dict order does not matter
      ([update_refines_par]); over several polls one key follows
      [KeyMachine.run] ([polls_refine_run]), hence the specification's
      edge-mode and continuous-mode guarantees ([edge_press_release],
      [continuous_press_release]) and its example run ([spec_example]).
    - The limits: remapping a key onto a key that still drives its own
      entry makes every poll call the heads and the tails
      ([remap_breaks_edge_mode]); a raising head callback aborts the poll
      and leaves the entry unlatched, so it fires again on the next poll
      ([update_head_raises]); a raising tail callback aborts it after the
      latch was cleared, so the remaining tails are lost
      ([update_tail_raises]).  Remapping two keys onto each other swaps
      them ([remap_swap_keys]); resolution is one hop and falls back to the
      key's own entry when the target is missing
      ([remap_resolution_one_hop]).
    - Focus gating ([update_unfocused]).
    - Traces: a press of a key is answered, at the first later poll in
      which it is released, by exactly its tail callbacks, in both modes
      ([press_answered], a response property of the never-ending driver
      loop); in edge mode any trace calls whole pairs "heads, then tails",
      plus the heads alone while the entry stays latched
      ([edge_calls_pairs]).
    - Invariants: distinct keys and "latched implies pressed" hold
      initially ([init_inv]), after every call of the API
      ([api_preserves_inv]) and after every poll, also one that raises
      ([update_preserves_inv]); hence, with the title, in every state a
      client can reach ([reachable_inv], by induction on [reachable]).
    - Functional behaviour of each method on every branch
      ([mutations_spec], [key_methods_spec], [remove_bind_first],
      [remove_bind_missing], [swap_binds_exchanges]), errors included.
    - Persistence: merge semantics of [load_keys] ([load_keys_merge]), the
      round trip [save_keys]/[load_keys] ([save_load_roundtrip],
      [save_load_targets], an empty target on a new key excepted).
      Through files and JSON values: [load_keys] on every branch (missing
      file, no JSON document, no [.items()]: [False] and nothing changed;
      an object: [True] and the merge, [jload_keys_spec]); in every state
      a program reaches by loading, saving and polling ([jreachable],
      whose invariant [jinv] is proved by rule induction), saving then
      loading the same file changes nothing ([jsave_load_roundtrip]); and
      a file that maps a registered key to a
      list or object is accepted, after which every focused poll raises
      [TypeError] ([load_breaks_update]).
    - Error paths of a poll: with callbacks that return, a focused poll
      raises the exception of the first key, in the dict's order, whose
      target cannot be hashed ([TypeError]) or whose name the keyboard
      library does not know ([ValueError]), returns when there is none,
      and keeps the keys and targets either way ([jupdate_first_error]).
    - The pressed slot is write-only: no sequence of operations can
      observe it ([pressed_write_only], a [Proper] argument for the
      equivalence "equal up to pressed slots").
    - The value model of the lists is exact: from the constructor, any
      sequence of API calls on the store model, read through [deref], is
      the value model's run, and no list object is ever shared
      ([store_refines_values]); but [get_binds] hands out the registry's
      own lists, so a caller's append changes the bindings until
      [swap_binds] detaches them ([get_binds_live]).
    - Bounds: the index [remove_bind] pops is in range and the first
      match ([find_index_bounds]); a poll calls at most one list per key
      ([update_calls_bound]).
    - Reentrant callbacks: a head that binds a new head to its own key is
      called once per original head, the later heads never
      ([rcall_bind_self_bind]); a head that removes itself skips the next
      one and ends the poll in [IndexError] ([rcall_bind_self_remove]); a
      head that calls [update] recurses, three frames deeper each time,
      until a poll lacks the frames of [__is_app_active]'s window query or
      of [keyboard.is_pressed]: how many times the head runs and how the
      poll ends follow from the frames left ([rupdate_recursive_head]),
      and when the window query is the deeper call the [RecursionError] is
      swallowed by [__is_app_active]'s bare [except] and the poll returns
      normally; a head that adds a new key or removes one makes the next
      step of [self.keys.items()] raise [RuntimeError]
      ([rupdate_resize_raises]).
    - Supporting results, not claims: the dict refines [gmap]
      ([dict_refines_gmap]); on string targets the JSON model is the
      string model ([json_model_refines]); the object graph of
      [Reentrant] stays well typed ([rreachable_typed]); with callbacks
      that only return or raise and enough frames, the object-store poll
      is the value model's [update] ([rupdate_refines]).

    ** Bounds and frames
    Every loop of the source is a [for] over a finite list (the dict's
    keys, a callback list, the decoded items), modelled by structural
    recursion ([for_], [foldl]), and every definition computes, so the
    scenarios are checked by [vm_compute].  The one unbounded recursion
    is a callback that calls [update]: [Reentrant.rupdate] takes the
    frames left before Python's recursion limit ([sys.getrecursionlimit()],
    1000 by default, minus the depth of the caller) and recurses on it
    structurally, three frames per nested poll.  Frames are counted as
    CPython 3.12 and later count them for the limit: calls of Python
    functions (update, __is_app_active, __call_bind, the callbacks, the
    methods, and the library functions, whose depth is a parameter of the
    sample: [win_frames], [key_frames]); a callback's body is taken to
    call the object directly.  A window query that returns a window takes
    at least two frames ([getActiveWindow] and the window class's
    [__init__]), so the loop runs only with three frames or more left, and
    no call inside it other than [keyboard.is_pressed] and a nested
    [update]'s [__is_app_active] can reach the limit.  The theorems hold
    for every number of frames.  No integer of
    the source can overflow (the pressed and latch slots only hold 0 and
    1, modelled as [bool]).

    ** Not modelled
    - [keyboard] and [pygetwindow] are libraries the code only calls: a
      poll sees the title of the active window as an [option string]
      ([None] for no window, whose [.title] raises inside the bare
      [except] of [__is_app_active], or for an exception of
      [getActiveWindow]), and [keyboard.is_pressed] as one function
      [string -> bool] with the names the library knows ([ValueError] on
      the others is modelled in [JsonFiles] only; the string model's
      theorems assume every registered name is known).  How the libraries
      read the window system and the keyboard is not modelled;
    - [json] and the file system: [JsonFiles] models JSON values with
      integer numbers and files as documents or undecodable text; the text
      encoding, floating-point numbers and a failing write of [save_keys]
      (an exception the code does not catch) are not modelled, nor the
      API writing non-string targets (its arguments are strings here);
    - in [Reentrant], a poll whose callbacks change the key set without
      changing its size (remove one key and add another): CPython then
      goes on by position in its hash table, which depends on the table's
      layout and resizing; the model stops with [LayoutDependent] there.
      A callback that raises after calling the API is modelled (its body
      is a list of effects); one that catches exceptions is not.
    - a caller's mutations of the lists [get_binds] returned are modelled
      in [Aliasing] only, as [list_append]; the value model and the poll
      do not see them.

    - in [Reentrant], the ownership of list objects (no list in two
      slots) is not part of [rtyped]: it holds only because the model
      passes [bulk_bind] freshly allocated lists, while Python code may
      pass one list object to two keys; [Aliasing] proves the ownership
      for the store model of the API alone ([store_refines_values]).

    ** Possible extensions
    - a typeclass interface for the ordered dict, with the registry and
      dispatch proved against it and [PyDict] as its instance;
    - a caller's append to a list [get_binds] returned, as an effect of a
      callback in [Reentrant].
*)

From stdpp Require Export base list strings gmap.

(** ** The effect monad of the model

    [PyM S E A] is a Python computation on a state [S] that returns an [A]
    or raises an [E].  As in Python, the state reached before an exception
    is kept: mutations performed before a [raise] are not rolled back. *)

Definition PyM (S E A : Type) : Type := S → S * (E + A).

#[export] Instance PyM_ret {S E} : MRet (PyM S E) := λ A x s, (s, inr x).

#[export] Instance PyM_bind {S E} : MBind (PyM S E) := λ A B f m s,
  match m s with
  | (s', inl e) => (s', inl e)
  | (s', inr x) => f x s'
  end.

Definition raise {S E A} (e : E) : PyM S E A := λ s, (s, inl e).
Definition gets {S E A} (f : S → A) : PyM S E A := λ s, (s, inr (f s)).
Definition modify {S E} (f : S → S) : PyM S E unit := λ s, (f s, inr ()).

(** The first [Some] of [f] along [l]: the first error of a loop. *)
Fixpoint first_some {A B} (f : A → option B) (l : list A) : option B :=
  match l with
  | [] => None
  | x :: l' => match f x with Some b => Some b | None => first_some f l' end
  end.

(** [try: m  except: h(e)]: the handler runs from the state the exception
    left (the body's mutations stay made). *)
Definition catch {S E A} (m : PyM S E A) (h : E → PyM S E A) : PyM S E A := λ s,
  match m s with
  | (s', inl e) => h e s'
  | (s', inr x) => (s', inr x)
  end.

(** [for x in l: body(x)] *)
Fixpoint for_ {S E A} (body : A → PyM S E unit) (l : list A) : PyM S E unit :=
  match l with
  | [] => mret ()
  | x :: l' => body x ;; for_ body l'
  end.

Declare Scope py_scope.
Delimit Scope py_scope with py.
(** [s =[ m ]=> r]: running [m] from state [s] ends in [r], a final state
    paired with the raised exception or the returned value. *)
Notation "s =[ m ]=> r" := (m s = r)
  (at level 70, m at level 200, only parsing) : py_scope.
Open Scope py_scope.

(** ** Python list helpers *)

(** Reference definition: drop the first element equal to [x]. *)
Fixpoint remove_first {A} {EqA : EqDecision A} (x : A) (l : list A) : option (list A) :=
  match l with
  | [] => None
  | y :: l' => if decide (y = x) then Some l' else (y ::.) <$> remove_first x l'
  end.

Create HintDb kb discriminated.
Create Rewrite HintDb kb_simpl.

(** Case on every [decide] of the goal, substituting equalities. *)
Ltac decide_cases :=
  repeat match goal with
  | |- context [decide ?P] => destruct (decide P); subst
  end.

(** Case on an innermost [match] of the goal (one whose scrutinee holds no
    [match]), so that the computation above it can run. *)
Ltac case_inner :=
  match goal with
  | |- context [match ?x with _ => _ end] =>
      match x with
      | context [match _ with _ => _ end] => fail 1
      | _ => destruct x eqn:?
      end
  end.

Ltac py_unfold :=
  unfold mbind, mret, PyM_bind, PyM_ret, raise, gets, modify in *.

(** ** Generic lemmas *)

Section monad_laws.
Context {S E : Type}.

Lemma bind_ret_l {A B} (x : A) (f : A → PyM S E B) s :
  (mret x ≫= f) s = f x s.
Proof. reflexivity. Qed.

Lemma bind_assoc {A B C} (m : PyM S E A) (f : A → PyM S E B)
  (g : B → PyM S E C) s :
  ((m ≫= f) ≫= g) s = (m ≫= λ x, f x ≫= g) s.
Proof. py_unfold. by destruct (m s) as [s' [e|x]]. Qed.

Lemma bind_ok {A B} (m : PyM S E A) (f : A → PyM S E B) s s' x :
  m s = (s', inr x) → (m ≫= f) s = f x s'.
Proof. py_unfold. by intros ->. Qed.

Lemma bind_err {A B} (m : PyM S E A) (f : A → PyM S E B) s s' e :
  m s = (s', inl e) → (m ≫= f) s = (s', inl e).
Proof. py_unfold. by intros ->. Qed.

Lemma for_app {A} (body : A → PyM S E unit) l1 l2 s :
  for_ body (l1 ++ l2) s = (for_ body l1 ;; for_ body l2) s.
Proof.
  revert s. induction l1 as [|x l1 IH]; intros s; [done|].
  simpl. rewrite bind_assoc. py_unfold.
  destruct (body x s) as [s' [e|[]]]; [done|]. apply IH.
Qed.

(** An exception in one iteration ends the loop: the later elements are
    not visited. *)
Lemma for_abort {A} (body : A → PyM S E unit) l1 x l2 s s1 s2 e :
  for_ body l1 s = (s1, inr ()) → body x s1 = (s2, inl e) →
  for_ body (l1 ++ x :: l2) s = (s2, inl e).
Proof.
  intros H1 H2. rewrite for_app, (bind_ok _ _ _ _ _ H1). simpl.
  by rewrite (bind_err _ _ _ _ _ H2).
Qed.

(** Loop invariant: a property of the state kept by every iteration,
    even one that raises, holds after the loop. *)
Lemma for_invariant {A} (P : S → Prop) (body : A → PyM S E unit) l s :
  (∀ x s, P s → P (body x s).1) → P s → P (for_ body l s).1.
Proof.
  intros Hb. revert s. induction l as [|x l IH]; intros s Hs; [done|].
  simpl. py_unfold. specialize (Hb x s Hs).
  destruct (body x s) as [s' [e|[]]]; simpl in *; auto.
Qed.
End monad_laws.

(** A computation [preserves] a property of the state when every run
    from a state that has it ends in one that has it, whether it returns
    or raises.  The lemmas below close it under the monad's operations. *)
Section preserves.
Context {S E : Type} (P : S → Prop).

Definition preserves {A} (m : PyM S E A) : Prop := ∀ s, P s → P (m s).1.

Lemma preserves_ret {A} (x : A) : preserves (mret x).
Proof. by intros s. Qed.

Lemma preserves_gets {A} (f : S → A) : preserves (gets f).
Proof. by intros s. Qed.

Lemma preserves_raise {A} e : preserves (raise (A := A) e).
Proof. by intros s. Qed.

Lemma preserves_modify f : (∀ s, P s → P (f s)) → preserves (modify f).
Proof. intros Hf s. apply Hf. Qed.

Lemma preserves_bind {A B} (m : PyM S E A) (f : A → PyM S E B) :
  preserves m → (∀ x, preserves (f x)) → preserves (m ≫= f).
Proof.
  intros Hm Hf s Hs. py_unfold. specialize (Hm s Hs).
  destruct (m s) as [s' [e|x]]; simpl in *; auto. by apply Hf.
Qed.

Lemma preserves_for {A} (body : A → PyM S E unit) l :
  (∀ x, preserves (body x)) → preserves (for_ body l).
Proof. intros Hb s. apply for_invariant. intros x. apply Hb. Qed.
End preserves.

#[export] Hint Resolve preserves_ret preserves_gets preserves_raise preserves_for : kb.

(** Split a [preserves] goal along the program's structure. *)
Ltac preserves_split :=
  repeat first [ apply preserves_bind; [|intros ?]
               | apply preserves_for; intros ?
               | apply preserves_ret | apply preserves_gets | apply preserves_raise
               | case_inner ].

(** A computation is [oblivious] to the part of the state an idempotent
    projection [ε] forgets when running it from [s] or from [ε s] gives
    the same result and the same projected final state.  The forgotten
    part is then write-only: nothing the computation returns or keeps
    depends on it.  [ε_equiv] (equal projections) is the matching
    equivalence on states, and an oblivious computation respects it. *)
Section oblivious.
Context {S E : Type} (ε : S → S) (ε_idem : ∀ s, ε (ε s) = ε s).

Definition obs {A} (r : S * (E + A)) : S * (E + A) := (ε r.1, r.2).

Definition oblivious {A} (m : PyM S E A) : Prop := ∀ s, obs (m s) = obs (m (ε s)).

Definition ε_equiv (s1 s2 : S) : Prop := ε s1 = ε s2.

#[export] Instance ε_equiv_equivalence : Equivalence ε_equiv.
Proof. split; repeat intro; unfold ε_equiv in *; congruence. Qed.

Lemma oblivious_ret {A} (x : A) : oblivious (mret x).
Proof. intros s. unfold obs. simpl. by rewrite ε_idem. Qed.

Lemma oblivious_raise {A} e : oblivious (raise (A := A) e).
Proof. intros s. unfold obs. simpl. by rewrite ε_idem. Qed.

Lemma oblivious_bind {A B} (m : PyM S E A) (f : A → PyM S E B) :
  oblivious m → (∀ x, oblivious (f x)) → oblivious (m ≫= f).
Proof.
  intros Hm Hf s. specialize (Hm s). py_unfold. unfold obs in Hm.
  destruct (m s) as [s1 [e1|x1]], (m (ε s)) as [s2 [e2|x2]]; simpl in Hm; simplify_eq.
  - unfold obs. simpl. congruence.
  - match goal with |- obs (f ?x ?a) = obs (f ?x ?b) => rewrite (Hf x a), (Hf x b) end.
    congruence.
Qed.

(** A computation that first reads the state through [f], then goes on
    in a way that does not tell [s] and [ε s] apart. *)
Lemma oblivious_gets {A B} (f : S → A) (g : A → PyM S E B) :
  (∀ s, g (f s) = g (f (ε s))) → (∀ x, oblivious (g x)) → oblivious (gets f ≫= g).
Proof. intros Hg Ho s. py_unfold. simpl. by rewrite (Ho (f s) s), (Hg s). Qed.

Lemma oblivious_for {A} (body : A → PyM S E unit) l :
  (∀ x, oblivious (body x)) → oblivious (for_ body l).
Proof.
  intros Hb. induction l as [|x l IH]; simpl; [apply oblivious_ret|].
  apply oblivious_bind; [done|]. intros []. apply IH.
Qed.

#[export] Instance oblivious_proper {A} (m : PyM S E A) :
  oblivious m → Proper (ε_equiv ==> λ r1 r2, obs r1 = obs r2) m.
Proof. intros Hm s1 s2 Heq. unfold ε_equiv in Heq. by rewrite Hm, Heq, <- Hm. Qed.
End oblivious.

(** ** Loops, pointwise equality and exceptions that cannot occur *)

(** A loop over [range(i, i + m)] whose every step returns keeps a
    property indexed by the step. *)
Lemma for_seq_inv {St E} (P : nat → St → Prop) (f : nat → PyM St E unit) i m s :
  (∀ j s, i ≤ j → j < i + m → P j s → ∃ s', f j s = (s', inr ()) ∧ P (S j) s') →
  P i s → ∃ s', for_ f (seq i m) s = (s', inr ()) ∧ P (i + m) s'.
Proof.
  revert i s. induction m as [|m IH]; intros i s Hf Hs; simpl.
  - exists s. by rewrite Nat.add_0_r.
  - destruct (Hf i s) as (s1 & H1 & Hs1); [lia|lia|done|].
    rewrite (bind_ok _ _ _ _ _ H1). rewrite Nat.add_succ_r, <- Nat.add_succ_l.
    apply IH; [intros; apply Hf; auto; lia|done].
Qed.

(** Pointwise equality of computations. *)
#[export] Instance PyM_equiv {St E A} : Equiv (PyM St E A) := λ m1 m2, ∀ s, m1 s = m2 s.

#[export] Instance PyM_equivalence {St E A} : Equivalence (≡@{PyM St E A}).
Proof. split; repeat intro; unfold equiv, PyM_equiv in *; congruence. Qed.

Lemma bind_proper {St E A B} (m1 m2 : PyM St E A) (f1 f2 : A → PyM St E B) :
  m1 ≡ m2 → (∀ x, f1 x ≡ f2 x) → (m1 ≫= f1) ≡ (m2 ≫= f2).
Proof.
  unfold equiv, PyM_equiv. intros Hm Hf s. py_unfold. rewrite Hm.
  destruct (m2 s) as [s' [e|x]]; [done|apply Hf].
Qed.

Lemma for_proper {St E A} (g1 g2 : A → PyM St E unit) l :
  (∀ x, x ∈ l → g1 x ≡ g2 x) → for_ g1 l ≡ for_ g2 l.
Proof.
  induction l as [|x l IH]; intros Hg; [reflexivity|]. cbn [for_].
  apply bind_proper; [apply Hg; set_solver|]. intros _. apply IH. set_solver.
Qed.

Ltac peq_split :=
  repeat first [ reflexivity
               | match goal with |- (_ ≫= _) ≡ (_ ≫= _) => apply bind_proper; [|intros ?] end
               | case_match ].

(** A computation that never raises [e]. *)
Definition never_raises {St E A} (e : E) (m : PyM St E A) : Prop := ∀ s, (m s).2 ≠ inl e.

Section never_raises.
Context {St E : Type} (e : E).

Lemma never_raises_ret {A} (x : A) : never_raises (St := St) e (mret x).
Proof. by intros s. Qed.

Lemma never_raises_gets {A} (f : St → A) : never_raises (E := E) e (gets f).
Proof. by intros s. Qed.

Lemma never_raises_modify (f : St → St) : never_raises (E := E) e (modify f).
Proof. by intros s. Qed.

Lemma never_raises_raise {A} e' : e' ≠ e → never_raises (St := St) (A := A) e (raise e').
Proof. intros Hne s. cbn. congruence. Qed.

Lemma never_raises_bind {A B} (m : PyM St E A) (f : A → PyM St E B) :
  never_raises e m → (∀ x, never_raises e (f x)) → never_raises e (m ≫= f).
Proof.
  intros Hm Hf s. specialize (Hm s). py_unfold.
  destruct (m s) as [s' [e'|x]]; simpl in *; [intros [= ->]; by apply Hm|apply Hf].
Qed.

Lemma never_raises_for {A} (g : A → PyM St E unit) l :
  (∀ x, never_raises e (g x)) → never_raises e (for_ g l).
Proof.
  intros Hg. induction l; cbn [for_]; [apply never_raises_ret|].
  by apply never_raises_bind.
Qed.

(** A computation that returns no value can only end normally when it
    never raises. *)
Lemma never_raises_returns (m : PyM St E unit) s : (∀ e, never_raises e m) → (m s).2 = inr ().
Proof. intros H. destruct (m s).2 as [e'|[]] eqn:Er; [|done]. by destruct (H e' s). Qed.
End never_raises.

Lemma bind_err_res {St E A B} (m : PyM St E A) (f : A → PyM St E B) s e :
  (m s).2 = inl e → ((m ≫= f) s).2 = inl e.
Proof. py_unfold. destruct (m s) as [s' [e'|x]]; simpl; congruence. Qed.

Lemma catch_ok {St E A} (m : PyM St E A) h s s' x :
  m s = (s', inr x) → catch m h s = (s', inr x).
Proof. unfold catch. by intros ->. Qed.

Lemma catch_err {St E A} (m : PyM St E A) h s s' e :
  m s = (s', inl e) → catch m h s = h e s'.
Proof. unfold catch. by intros ->. Qed.

(** A loop whose every iteration keeps [P] and raises exactly [err x]
    (returns when it is [None]) raises the first error along the list. *)
Lemma for_first_some {St E A} (P : St → Prop) (err : A → option E) (body : A → PyM St E unit) l s :
  (∀ x s, P s → P (body x s).1 ∧
     (body x s).2 = match err x with Some e => inl e | None => inr () end) →
  P s → (for_ body l s).2 = match first_some err l with Some e => inl e | None => inr () end.
Proof.
  intros Hb. revert s. induction l as [|x l IH]; intros s Hs; [done|].
  cbn [for_ first_some]. py_unfold. destruct (Hb x s Hs) as [HP Hr].
  destruct (body x s) as [s' r]; simpl in *. subst r. destruct (err x); [done|]. by apply IH.
Qed.

(** When every element's error is [e0] or none, and one element has it,
    the first error is [e0]. *)
Lemma first_some_all {A B} (f : A → option B) l e0 x0 :
  (∀ x, x ∈ l → f x = None ∨ f x = Some e0) → x0 ∈ l → f x0 = Some e0 → first_some f l = Some e0.
Proof.
  intros Hall Hx0 Hf. induction l as [|x l IH]; [set_solver|]. cbn [first_some].
  destruct (Hall x) as [Hx|Hx]; [set_solver| |by rewrite Hx]. rewrite Hx.
  apply IH; [intros; apply Hall; set_solver|]. apply elem_of_cons in Hx0 as [->|]; [congruence|done].
Qed.

(** ** Functional refinement along a map of states

    [commutes f g m1 m2]: running [m2] on the image [f s] of a state is
    running [m1] on [s] and mapping the final state by [f] and the
    exception by [g].  The relation is closed under the monad's
    operations and loops, so a refinement is proved along the code. *)
Section commutes.
Context {S T E F : Type} (f : S → T) (g : E → F).

Definition commutes {A} (m1 : PyM S E A) (m2 : PyM T F A) : Prop :=
  ∀ s, m2 (f s) = (f (m1 s).1, sum_map g id (m1 s).2).

Lemma commutes_apply {A} (m1 : PyM S E A) m2 s :
  commutes m1 m2 → m2 (f s) = (f (m1 s).1, sum_map g id (m1 s).2).
Proof. auto. Qed.

Lemma commutes_ret {A} (x : A) : commutes (mret x) (mret x).
Proof. done. Qed.

Lemma commutes_raise {A} e : commutes (A:=A) (raise e) (raise (g e)).
Proof. done. Qed.

Lemma commutes_bind {A B} (m1 : PyM S E A) m2 (k1 : A → PyM S E B) k2 :
  commutes m1 m2 → (∀ x, commutes (k1 x) (k2 x)) → commutes (m1 ≫= k1) (m2 ≫= k2).
Proof.
  intros Hm Hk s. py_unfold. rewrite Hm.
  destruct (m1 s) as [s' [e|x]]; simpl; [done|apply Hk].
Qed.

Lemma commutes_for {A B} (b1 : A → PyM S E unit) (b2 : B → PyM T F unit) l1 l2 :
  Forall2 (λ x y, commutes (b1 x) (b2 y)) l1 l2 → commutes (for_ b1 l1) (for_ b2 l2).
Proof. induction 1; [apply commutes_ret|by apply commutes_bind]. Qed.
End commutes.

Lemma foldl_ext {A B} (f g : A → B → A) a l :
  (∀ a b, f a b = g a b) → foldl f a l = foldl g a l.
Proof. intros Hfg. revert a. induction l as [|b l IH]; intros a; simpl; [done|]. by rewrite Hfg, IH. Qed.

Lemma fmap_Forall_const {A B} (f : A → B) (l : list A) c :
  Forall (λ x, f x = c) l → f <$> l = replicate (length l) c.
Proof. induction 1; simpl; by f_equal. Qed.

Lemma concat_replicate_nil {A} n : concat (replicate n (@nil A)) = [].
Proof. induction n; simpl; auto. Qed.

Lemma list_filter_ext_in {A} (P1 P2 : A → Prop)
    `{!∀ x, Decision (P1 x), !∀ x, Decision (P2 x)} (l : list A) :
  (∀ x, x ∈ l → P1 x ↔ P2 x) → filter P1 l = filter P2 l.
Proof.
  induction l as [|a l IH]; intros Hiff; [done|]. rewrite !filter_cons.
  rewrite IH by set_solver. destruct (decide (P1 a)), (decide (P2 a)); set_solver.
Qed.

Section list_helpers.
Context `{EqDecision A}.

(** Concatenating the images of distinct elements when all but one of
    them map to the empty list. *)
Lemma concat_fmap_single {B} (f : A → list B) (ks : list A) k :
  NoDup ks → k ∈ ks → (∀ k2, k2 ∈ ks → k2 ≠ k → f k2 = []) →
  concat (f <$> ks) = f k.
Proof.
  induction ks as [|k1 ks IH]; [set_solver|]. rewrite fmap_cons. simpl.
  intros [Hn Hnd]%NoDup_cons Hk Hf.
  destruct (decide (k1 = k)) as [->|Hne].
  - rewrite (proj2 (concat_nil_Forall (f <$> ks))), app_nil_r; [done|].
    apply Forall_forall. intros l [k2 [-> Hk2]]%list_elem_of_fmap.
    apply Hf; set_solver.
  - rewrite Hf, IH by set_solver. done.
Qed.

(** A map without repetitions on [l] is injective on [l]. *)
Lemma NoDup_fmap_inj_on {B} (f : A → B) (l : list A) x y :
  NoDup (f <$> l) → x ∈ l → y ∈ l → f x = f y → x = y.
Proof.
  induction l as [|z l IH]; [set_solver|]. rewrite fmap_cons.
  intros [Hn Hnd]%NoDup_cons Hx Hy Hxy.
  apply elem_of_cons in Hx as [->|Hx], Hy as [->|Hy]; try done.
  - exfalso. apply Hn. rewrite Hxy. apply list_elem_of_fmap. eauto.
  - exfalso. apply Hn. rewrite <- Hxy. apply list_elem_of_fmap. eauto.
  - by apply IH.
Qed.

Lemma remove_first_None (x : A) l : remove_first x l = None ↔ x ∉ l.
Proof.
  induction l as [|y l IH]; simpl; [set_solver|].
  case_decide; subst; [set_solver|]. rewrite fmap_None, IH. set_solver.
Qed.
End list_helpers.

#[export] Hint Rewrite @bind_ret_l @bind_assoc @for_app : kb_simpl.
