(* ===== verification/PyDict.v ===== *)
(** * PyDict: Python's insertion-ordered [dict] with string keys

    [self.keys] in [src/Keyboard_binding.py] is a Python [dict].  Its
    iteration order is insertion order, and [update] walks it in that order,
    so the model keeps the order: a dict is an association list.
    - [get d k] is [d.get(k)];
    - [setitem k v d] is [d[k] = v]: an existing key keeps its position, a
      new key goes to the end;
    - [alter f k d] is an in-place mutation of the object stored at [k]
      ([value[0] = ...] on the list held by the dict): position unchanged;
    - [pop k d] is [d.pop(k)];
    - [keys d] is the iteration order of [d.items()].
    The invariant [wf] is that the keys are distinct.  The abstract
    specification is stdpp's [gmap]: [to_map] forgets the order, and the
    refinement theorem [dict_refines_gmap] says that every operation implements
    the corresponding map operation. *)

From S2P Require Import Prelude.

Module PyDict.
Section dict.
Context {V : Type}.

Definition dict := list (string * V).

Fixpoint get (d : dict) (k : string) : option V :=
  match d with
  | [] => None
  | (k', v) :: d' => if decide (k = k') then Some v else get d' k
  end.

Fixpoint setitem (k : string) (v : V) (d : dict) : dict :=
  match d with
  | [] => [(k, v)]
  | (k', v') :: d' =>
      if decide (k = k') then (k, v) :: d' else (k', v') :: setitem k v d'
  end.

Fixpoint alter (f : V → V) (k : string) (d : dict) : dict :=
  match d with
  | [] => []
  | (k', v) :: d' =>
      if decide (k = k') then (k', f v) :: d' else (k', v) :: alter f k d'
  end.

Fixpoint pop (k : string) (d : dict) : dict :=
  match d with
  | [] => []
  | (k', v) :: d' => if decide (k = k') then d' else (k', v) :: pop k d'
  end.

Fixpoint keys (d : dict) : list string :=
  match d with
  | [] => []
  | (k, _) :: d' => k :: keys d'
  end.

Definition wf (d : dict) : Prop := NoDup (keys d).

(** Every value replaced by [f key value], in place (a specification
    device: the source has no such loop). *)
Definition mapi (f : string → V → V) (d : dict) : dict := (λ '(k, v), (k, f k v)) <$> d.

(** The abstract map: the first binding of a key wins, as in [get]. *)
Definition to_map (d : dict) : gmap string V := list_to_map d.

(** ** Lookups after each operation *)

Lemma get_setitem (d : dict) k k' v :
  get (setitem k v d) k' = if decide (k' = k) then Some v else get d k'.
Proof.
  induction d as [|[k1 v1] d IH]; simpl; repeat case_decide; simpl;
    repeat case_decide; subst; congruence.
Qed.

Lemma get_alter (d : dict) f k k' :
  get (alter f k d) k' = if decide (k' = k) then f <$> get d k' else get d k'.
Proof.
  induction d as [|[k1 v1] d IH]; simpl; repeat case_decide; simpl;
    repeat case_decide; subst; try congruence; by rewrite IH, decide_True.
Qed.

Lemma get_alter_eq (d : dict) f k : get (alter f k d) k = f <$> get d k.
Proof. by rewrite get_alter, decide_True. Qed.

Lemma get_alter_ne (d : dict) f k k' : k' ≠ k → get (alter f k d) k' = get d k'.
Proof. intros. by rewrite get_alter, decide_False. Qed.

Lemma get_elem_of_keys (d : dict) k : is_Some (get d k) ↔ k ∈ keys d.
Proof.
  induction d as [|[k1 v1] d IH]; simpl.
  - rewrite is_Some_alt. set_solver.
  - case_decide; subst; [set_solver|]. rewrite IH. set_solver.
Qed.

Lemma get_elem_of (d : dict) k v : get d k = Some v → (k, v) ∈ d.
Proof.
  induction d as [|[k1 v1] d IH]; simpl; [done|].
  case_decide; [intros [= <-]; subst; set_solver|]. intros. set_solver.
Qed.

Lemma get_None_keys (d : dict) k : get d k = None ↔ k ∉ keys d.
Proof. rewrite <- get_elem_of_keys, <- eq_None_not_Some. done. Qed.

Lemma get_pop (d : dict) k k' :
  wf d → get (pop k d) k' = if decide (k' = k) then None else get d k'.
Proof.
  unfold wf. induction d as [|[k1 v1] d IH]; simpl; intros Hnd; [by case_decide|].
  apply NoDup_cons in Hnd as [Hn Hnd].
  destruct (decide (k = k1)) as [->|Hne]; simpl.
  - destruct (decide (k' = k1)) as [->|]; [by apply get_None_keys|done].
  - rewrite IH by done. by repeat case_decide; subst.
Qed.

(** ** Algebra of in-place updates *)

Lemma alter_alter (d : dict) f g k : alter f k (alter g k d) = alter (f ∘ g) k d.
Proof.
  induction d as [|[k1 v1] d IH]; simpl; [done|].
  destruct (decide (k = k1)); simpl; [by rewrite decide_True|].
  rewrite decide_False by done. by f_equal.
Qed.

Lemma alter_comm (d : dict) f g k k' :
  k ≠ k' → alter f k (alter g k' d) = alter g k' (alter f k d).
Proof.
  intros Hne. induction d as [|[k1 v1] d IH]; simpl; [done|].
  destruct (decide (k' = k1)), (decide (k = k1)); subst; simpl;
    decide_cases; congruence.
Qed.

Lemma alter_ext (d : dict) f g k : (∀ v, f v = g v) → alter f k d = alter g k d.
Proof.
  intros Hfg. induction d as [|[k1 v1] d IH]; simpl; [done|].
  destruct (decide (k = k1)); by rewrite ?Hfg, ?IH.
Qed.

(** Only the first binding of [k], the one [get] sees, is updated. *)
Lemma alter_get_ext (d : dict) f g k v :
  get d k = Some v → f v = g v → alter f k d = alter g k d.
Proof.
  induction d as [|[k1 v1] d IH]; simpl; [done|].
  destruct (decide (k = k1)); [intros [= ->] ->; done|].
  intros Hg Hfg. by rewrite IH.
Qed.

Lemma alter_id (d : dict) f k v : get d k = Some v → f v = v → alter f k d = d.
Proof.
  induction d as [|[k1 v1] d IH]; simpl; [done|].
  destruct (decide (k = k1)); [intros [= ->] ->; done|].
  intros Hg Hf. by rewrite IH.
Qed.

Lemma get_mapi (d : dict) f k : get (mapi f d) k = f k <$> get d k.
Proof.
  induction d as [|[k1 v1] d IH]; simpl; [done|].
  destruct (decide (k = k1)); subst; done.
Qed.

Lemma keys_mapi (d : dict) f : keys (mapi f d) = keys d.
Proof. induction d as [|[k1 v1] d IH]; simpl; by f_equal. Qed.

Lemma mapi_cons f k v (d : dict) : mapi f ((k, v) :: d) = (k, f k v) :: mapi f d.
Proof. done. Qed.

(** ** A projection of every value

    [g] forgets part of each value ([g] applied twice is [g] applied
    once).  The operations that do not read the forgotten part commute
    with it. *)
Section projection.
Context (g : string → V → V) (g_idem : ∀ k v, g k (g k v) = g k v).

Lemma mapi_idem (d : dict) : mapi g (mapi g d) = mapi g d.
Proof. induction d as [|[k1 v1] d IH]; [done|]. rewrite !mapi_cons, g_idem, IH. done. Qed.

Lemma mapi_alter_mapi f k (d : dict) :
  (∀ v, g k (f (g k v)) = g k (f v)) → mapi g (alter f k (mapi g d)) = mapi g (alter f k d).
Proof.
  intros Hf. induction d as [|[k1 v1] d IH]; [done|]. rewrite mapi_cons. simpl.
  case_decide; subst; rewrite !mapi_cons; [by rewrite Hf, mapi_idem|by rewrite g_idem, IH].
Qed.

Lemma mapi_setitem_mapi k v (d : dict) :
  mapi g (setitem k v (mapi g d)) = mapi g (setitem k v d).
Proof.
  induction d as [|[k1 v1] d IH]; [done|]. rewrite mapi_cons. simpl.
  case_decide; rewrite !mapi_cons; [by rewrite mapi_idem|by rewrite g_idem, IH].
Qed.

Lemma mapi_pop_mapi k (d : dict) : mapi g (pop k (mapi g d)) = mapi g (pop k d).
Proof.
  induction d as [|[k1 v1] d IH]; [done|]. rewrite mapi_cons. simpl.
  case_decide; [apply mapi_idem|]. rewrite !mapi_cons. by rewrite g_idem, IH.
Qed.
End projection.

(** Two dicts with distinct keys in the same order and the same lookups
    are equal. *)
Lemma dict_eq_ext (d1 d2 : dict) :
  wf d1 → keys d1 = keys d2 → (∀ k, get d1 k = get d2 k) → d1 = d2.
Proof.
  unfold wf. revert d2. induction d1 as [|[k1 v1] d1 IH]; intros [|[k2 v2] d2];
    simpl; try done.
  intros Hnd [= <- Hks] Hget. apply NoDup_cons in Hnd as [Hn Hnd].
  pose proof (Hget k1) as H1. rewrite !decide_True in H1 by done. injection H1 as <-.
  f_equal. apply IH; [done|done|]. intros k.
  destruct (decide (k = k1)) as [->|Hne].
  - assert (k1 ∉ keys d2) by congruence.
    rewrite (proj2 (get_None_keys d1 k1)), (proj2 (get_None_keys d2 k1)); done.
  - specialize (Hget k). by rewrite !decide_False in Hget.
Qed.

(** ** How each operation changes the iteration order *)

Lemma keys_alter (d : dict) f k : keys (alter f k d) = keys d.
Proof.
  induction d as [|[k1 v1] d IH]; simpl; [done|].
  case_decide; simpl; congruence.
Qed.

Lemma keys_setitem (d : dict) k v :
  keys (setitem k v d) = if decide (k ∈ keys d) then keys d else keys d ++ [k].
Proof.
  induction d as [|[k1 v1] d IH]; simpl; [done|].
  destruct (decide (k = k1)); subst; simpl; [by rewrite decide_True by set_solver|].
  rewrite IH. destruct (decide (k ∈ keys d));
    [rewrite decide_True by set_solver|rewrite decide_False by set_solver]; done.
Qed.

Lemma keys_pop (d : dict) k : keys (pop k d) = if decide (k ∈ keys d) then
    default [] (remove_first k (keys d)) else keys d.
Proof.
  induction d as [|[k1 v1] d IH]; simpl; [done|].
  destruct (decide (k = k1)); subst; simpl.
  - rewrite decide_True by set_solver. simpl. by rewrite decide_True.
  - rewrite IH. destruct (decide (k ∈ keys d)) as [Hin|Hin].
    + rewrite (decide_True (P := k ∈ _)) by set_solver. simpl.
      rewrite decide_False by congruence.
      destruct (remove_first k (keys d)) eqn:E; [done|].
      by apply remove_first_None in E.
    + by rewrite (decide_False (P := k ∈ _)) by set_solver.
Qed.

(** ** The invariant: distinct keys *)

Lemma wf_alter (d : dict) f k : wf d → wf (alter f k d).
Proof. unfold wf. by rewrite keys_alter. Qed.

Lemma wf_setitem (d : dict) k v : wf d → wf (setitem k v d).
Proof.
  unfold wf. rewrite keys_setitem. case_decide; [done|].
  intros. apply NoDup_app. split_and!; [done| |apply NoDup_singleton].
  set_solver.
Qed.

Lemma length_pop (d : dict) k : k ∈ keys d → S (length (pop k d)) = length d.
Proof.
  induction d as [|[k1 v1] d IH]; simpl; [set_solver|].
  case_decide; subst; [done|]. intros Hk. simpl. rewrite IH; [done|set_solver].
Qed.

Lemma wf_pop (d : dict) k : wf d → wf (pop k d).
Proof.
  unfold wf. induction d as [|[k1 v1] d IH]; simpl; [done|].
  intros Hnd. apply NoDup_cons in Hnd as [Hn Hnd].
  case_decide; [done|]. simpl. apply NoDup_cons. split; [|by apply IH].
  rewrite keys_pop.
  case_decide; [|done]. destruct (remove_first k (keys d)) eqn:E; simpl; [|set_solver].
  intros Hin. apply Hn. clear -E Hin. revert l E Hin. induction (keys d) as [|y ks IHk];
    simpl; intros l; [done|].
  case_decide; [intros [= <-]; set_solver|].
  destruct (remove_first k ks) eqn:E'; simpl; [|done]. intros [= <-]. set_solver.
Qed.

(** ** Refinement: the dict implements [gmap] *)

Lemma to_map_lookup (d : dict) k : to_map d !! k = get d k.
Proof.
  unfold to_map. induction d as [|[k1 v1] d IH]; simpl; [done|].
  case_decide; subst; [by rewrite lookup_insert_eq|].
  by rewrite lookup_insert_ne by done.
Qed.

Lemma to_map_setitem (d : dict) k v : to_map (setitem k v d) = <[k:=v]> (to_map d).
Proof.
  apply map_eq. intros k'. rewrite to_map_lookup, get_setitem, lookup_insert.
  decide_cases; rewrite ?to_map_lookup; congruence.
Qed.

Lemma to_map_alter (d : dict) f k :
  to_map (alter f k d) = base.alter f k (to_map d).
Proof.
  apply map_eq. intros k'. rewrite to_map_lookup, get_alter, lookup_alter.
  decide_cases; rewrite ?to_map_lookup; congruence.
Qed.

Lemma to_map_pop (d : dict) k : wf d → to_map (pop k d) = delete k (to_map d).
Proof.
  intros Hwf. apply map_eq. intros k'. rewrite to_map_lookup, get_pop, lookup_delete by done.
  decide_cases; rewrite ?to_map_lookup; congruence.
Qed.

(** The key set of the abstract map is the set of iterated keys. *)
Lemma to_map_dom (d : dict) : dom (to_map d) = list_to_set (keys d).
Proof.
  apply set_eq. intros k. rewrite elem_of_dom, to_map_lookup, get_elem_of_keys.
  set_solver.
Qed.

(** Refinement: on a dict with distinct keys, every operation of
    the ordered dict implements the corresponding operation of the
    unordered map [gmap]: [get] is lookup, [d[k] = v] is insert, an
    in-place update is [alter], [pop] is delete, and [keys] enumerates the
    domain without repetition. *)
Theorem dict_refines_gmap (d : dict) :
  wf d →
  (∀ k, get d k = to_map d !! k) ∧
  (∀ k v, to_map (setitem k v d) = <[k:=v]> (to_map d)) ∧
  (∀ f k, to_map (alter f k d) = base.alter f k (to_map d)) ∧
  (∀ k, to_map (pop k d) = delete k (to_map d)) ∧
  NoDup (keys d) ∧ dom (to_map d) = list_to_set (keys d).
Proof.
  intros Hwf. split_and!; intros; rewrite ?to_map_lookup;
    auto using to_map_setitem, to_map_alter, to_map_pop, to_map_dom.
Qed.
End dict.

Arguments dict : clear implicits.

(** ** A dict seen through a function of its values

    [map_values f d] is [d] with every value [v] at key [k] replaced by
    [f k v]: a view of a dict of one value type as a dict of another. *)
Section map_values.
Context {V W : Type} (f : string → V → W).

Definition map_values (d : dict V) : dict W := (λ '(k, v), (k, f k v)) <$> d.

Lemma map_values_cons k v (d : dict V) : map_values ((k, v) :: d) = (k, f k v) :: map_values d.
Proof. done. Qed.

Lemma get_map_values (d : dict V) k : get (map_values d) k = f k <$> get d k.
Proof. induction d as [|[k1 v1] d IH]; simpl; [done|]. by case_decide; subst. Qed.

Lemma keys_map_values (d : dict V) : keys (map_values d) = keys d.
Proof. induction d as [|[k1 v1] d IH]; simpl; by f_equal. Qed.

Lemma map_values_setitem k v (d : dict V) :
  map_values (setitem k v d) = setitem k (f k v) (map_values d).
Proof.
  induction d as [|[k1 v1] d IH]; [done|]. simpl.
  case_decide; subst; rewrite !map_values_cons; [done|by rewrite IH].
Qed.

Lemma map_values_alter (g : V → V) (g' : W → W) k (d : dict V) :
  (∀ v, f k (g v) = g' (f k v)) → map_values (alter g k d) = alter g' k (map_values d).
Proof.
  intros Hg. induction d as [|[k1 v1] d IH]; [done|]. simpl.
  case_decide; subst; rewrite !map_values_cons; [by rewrite Hg|by rewrite IH].
Qed.

Lemma map_values_pop k (d : dict V) : map_values (pop k d) = pop k (map_values d).
Proof.
  induction d as [|[k1 v1] d IH]; [done|]. simpl.
  case_decide; [done|]. by rewrite map_values_cons, IH.
Qed.
End map_values.

#[export] Hint Resolve wf_alter wf_setitem wf_pop : kb.
#[export] Hint Rewrite @get_alter_eq @keys_alter @to_map_lookup : kb_simpl.
(** ** The values of a dict *)

Lemma get_values {V} (d : dict V) j q : get d j = Some q → q ∈ snd <$> d.
Proof. intros H%get_elem_of. by apply (list_elem_of_fmap_2 snd) in H. Qed.

Lemma values_setitem {V} (P : V → Prop) k v (d : dict V) :
  Forall P (snd <$> d) → P v → Forall P (snd <$> setitem k v d).
Proof.
  intros Hd Hv. induction d as [|[k' v'] d IH]; cbn; [by constructor|].
  inversion Hd; subst. case_decide; constructor; auto.
Qed.

Lemma values_pop {V} (P : V → Prop) k (d : dict V) :
  Forall P (snd <$> d) → Forall P (snd <$> pop k d).
Proof.
  intros Hd. induction d as [|[k' v'] d IH]; cbn; [done|].
  inversion Hd; subst. case_decide; [done|constructor; auto].
Qed.

Lemma values_setitem_NoDup {V} k v (d : dict V) :
  NoDup (snd <$> d) → v ∉ snd <$> d → NoDup (snd <$> setitem k v d).
Proof.
  induction d as [|[k' v'] d IH]; intros Hd Hv; cbn in *; [by repeat constructor|].
  apply NoDup_cons in Hd as [Hv' Hd]. case_decide; constructor; [set_solver|done| |by apply IH; set_solver].
  intros Hin. assert (Forall (λ x, x ≠ v') (snd <$> setitem k v d)) as Hf.
  { apply values_setitem; [apply Forall_forall; set_solver|set_solver]. }
  rewrite Forall_forall in Hf. by apply (Hf v').
Qed.

Lemma values_pop_NoDup {V} k (d : dict V) :
  NoDup (snd <$> d) → NoDup (snd <$> pop k d).
Proof.
  induction d as [|[k' v'] d IH]; intros Hd; cbn in *; [done|].
  apply NoDup_cons in Hd as [Hv' Hd]. case_decide; [done|]. constructor; [|by apply IH].
  intros Hin. assert (Forall (λ x, x ≠ v') (snd <$> pop k d)) as Hf.
  { apply values_pop, Forall_forall. set_solver. }
  rewrite Forall_forall in Hf. by apply (Hf v').
Qed.

(** ** Building a dict member by member ([d[k] = v] in order) *)

Lemma keys_fst {V} (d : dict V) : keys d = fst <$> d.
Proof. induction d as [|[k v] d IH]; simpl; by f_equal. Qed.

Lemma setitem_fresh {V} k v (d : dict V) : k ∉ keys d → setitem k v d = d ++ [(k, v)].
Proof.
  induction d as [|[k' v'] d IH]; intros Hk; simpl in *; [done|].
  rewrite decide_False by set_solver. f_equal. apply IH. set_solver.
Qed.

Lemma foldl_setitem_wf {V} (d : dict V) kvs :
  wf d → wf (foldl (λ d kv, setitem kv.1 kv.2 d) d kvs).
Proof. revert d. induction kvs as [|[k v] kvs IH]; intros d Hd; simpl; auto using wf_setitem. Qed.

(** Distinct new keys are appended in order. *)
Lemma foldl_setitem_fresh {V} (d : dict V) kvs :
  NoDup (keys d ++ kvs.*1) → foldl (λ d kv, setitem kv.1 kv.2 d) d kvs = d ++ kvs.
Proof.
  revert d. induction kvs as [|[k v] kvs IH]; intros d Hnd; simpl; [by rewrite app_nil_r|].
  rewrite setitem_fresh.
  - rewrite IH, <- app_assoc; [done|]. by rewrite keys_fst, fmap_app, <- app_assoc, <- keys_fst.
  - intros Hk. apply NoDup_app in Hnd as (_ & Hd & _). apply (Hd k); [done|]. by left.
Qed.

Lemma foldl_setitem_map_values {V W} (f : V → W) (d : dict V) kvs :
  map_values (λ _, f) (foldl (λ d kv, setitem kv.1 kv.2 d) d kvs) =
    foldl (λ d kv, setitem kv.1 kv.2 d) (map_values (λ _, f) d) ((λ kv, (kv.1, f kv.2)) <$> kvs).
Proof.
  revert d. induction kvs as [|[k v] kvs IH]; intros d; simpl; [done|].
  by rewrite IH, map_values_setitem.
Qed.

(** ** Merging members into a dict

    [merge_step fresh upd d (k, w)]: a new key gets [fresh k w], appended;
    a present key's value is updated in place by [upd w].  Folded over
    members with distinct keys, each key ends as its own member says. *)
Section merge.
Context {V W : Type} (fresh : string → W → V) (upd : W → V → V).

Definition merge_step (d : dict V) (kw : string * W) : dict V :=
  match get d kw.1 with
  | None => setitem kw.1 (fresh kw.1 kw.2) d
  | Some _ => alter (upd kw.2) kw.1 d
  end.

Lemma get_foldl_merge (ms : dict W) d k :
  NoDup (keys ms) →
  get (foldl merge_step d ms) k =
    match get ms k with
    | Some w => Some (match get d k with Some v => upd w v | None => fresh k w end)
    | None => get d k
    end.
Proof.
  revert d. induction ms as [|[k1 w1] ms IH]; intros d Hnd; simpl in *; [done|].
  apply NoDup_cons in Hnd as [Hn Hnd]. rewrite IH by done. unfold merge_step. simpl.
  destruct (decide (k = k1)) as [->|Hne].
  - rewrite (proj2 (get_None_keys _ _) Hn).
    destruct (get d k1) eqn:E; simpl; [by rewrite get_alter_eq, E|by rewrite get_setitem, decide_True].
  - assert (get (match get d k1 with
                 | Some _ => alter (upd w1) k1 d
                 | None => setitem k1 (fresh k1 w1) d end) k = get d k) as Hd.
    { destruct (get d k1); [by rewrite get_alter_ne|by rewrite get_setitem, decide_False]. }
    by destruct (get ms k); rewrite Hd.
Qed.

Lemma keys_foldl_merge (ms : dict W) d :
  NoDup (keys ms) →
  keys (foldl merge_step d ms) = keys d ++ filter (λ k, k ∉ keys d) (keys ms).
Proof.
  revert d. induction ms as [|[k1 w1] ms IH]; intros d Hnd; simpl in *.
  - by rewrite app_nil_r.
  - apply NoDup_cons in Hnd as [Hn Hnd]. rewrite IH by done. rewrite filter_cons.
    unfold merge_step. simpl. destruct (get d k1) eqn:E.
    + rewrite keys_alter, decide_False; [done|].
      rewrite <- get_elem_of_keys, E. by intros [].
    + apply get_None_keys in E. rewrite keys_setitem, !decide_False by done.
      rewrite decide_True by done. rewrite <- app_assoc. f_equal. simpl. f_equal.
      apply list_filter_ext_in. intros k Hk. rewrite elem_of_app, list_elem_of_singleton.
      split; [naive_solver|]. intros Hnk [?|Heq]; [done|subst]. by apply Hn.
Qed.

Lemma wf_foldl_merge (ms : dict W) d : wf d → wf (foldl merge_step d ms).
Proof.
  revert d. induction ms as [|kw ms IH]; intros d Hd; simpl; [done|].
  apply IH. unfold merge_step. destruct (get d kw.1); auto using wf_alter, wf_setitem.
Qed.
End merge.

(** ** A property of every value *)

Lemma Forall_alter {V} (P : V → Prop) f k (d : dict V) :
  (∀ v, P v → P (f v)) → Forall (λ kv, P kv.2) d → Forall (λ kv, P kv.2) (alter f k d).
Proof.
  intros Hf Hd. induction Hd as [|[k1 v1] d Hv Hd IH]; simpl; [done|].
  case_decide; constructor; simpl in *; auto.
Qed.

(** On distinct keys, a property of every value found by [get]. *)
Lemma Forall_get {V} (P : V → Prop) (d : dict V) :
  wf d → (∀ k v, get d k = Some v → P v) → Forall (λ kv, P kv.2) d.
Proof.
  unfold wf. induction d as [|[k1 v1] d IH]; intros Hnd Hg; simpl in *; [done|].
  apply NoDup_cons in Hnd as [Hn Hnd]. constructor.
  - apply (Hg k1). by rewrite decide_True.
  - apply IH; [done|]. intros k v Hk. apply (Hg k).
    rewrite decide_False; [done|]. intros ->. apply Hn, get_elem_of_keys. by rewrite Hk.
Qed.

End PyDict.
