(* ===== verification/Registry.v ===== *)
(** * Registry: the key entries and the mutation API

    Models lines 41-269 of [src/Keyboard_binding.py].  A registry entry is
    the five-slot Python list [[target, pressed, latch, toggle,
    [heads, tails]]]; here it is the record [KeyEntry].  The object
    [keyboard_binding] holds [APP_TITLE] and the dict [keys].  Each method
    is a computation of [Py], the effect monad of [Prelude] on the object:
    it returns what the method returns ([bool], [unit], a pair of optional
    lists) or raises.  In-place mutations of an entry ([value[0] = ...],
    [value[4][0].insert(0, f)]) are [PyDict.alter]; they keep the entry's
    position in the dict. *)

From S2P Require Import Prelude PyDict.

Module Registry.

(** A callback, identified by its Python identity: [==] on functions. *)
Definition action := nat.

Record KeyEntry := mkEntry {
  target : string;        (** slot [0]: the key whose entry this key drives *)
  pressed : bool;         (** slot [1]: last sampled press, 0 or 1 *)
  latch : bool;           (** slot [2]: the toggle state, 0 or 1 *)
  toggle : bool;          (** slot [3]: edge mode when true *)
  heads : list action;    (** slot [4][0]: the head callbacks *)
  tails : list action     (** slot [4][1]: the tail callbacks *)
}.

#[export] Instance KeyEntry_eq_dec : EqDecision KeyEntry.
Proof. solve_decision. Defined.

Definition set_target (t : string) (e : KeyEntry) : KeyEntry :=
  mkEntry t (pressed e) (latch e) (toggle e) (heads e) (tails e).
Definition set_pressed (b : bool) (e : KeyEntry) : KeyEntry :=
  mkEntry (target e) b (latch e) (toggle e) (heads e) (tails e).
Definition set_latch (b : bool) (e : KeyEntry) : KeyEntry :=
  mkEntry (target e) (pressed e) b (toggle e) (heads e) (tails e).
Definition set_toggle (b : bool) (e : KeyEntry) : KeyEntry :=
  mkEntry (target e) (pressed e) (latch e) b (heads e) (tails e).
Definition set_heads (l : list action) (e : KeyEntry) : KeyEntry :=
  mkEntry (target e) (pressed e) (latch e) (toggle e) l (tails e).
Definition set_tails (l : list action) (e : KeyEntry) : KeyEntry :=
  mkEntry (target e) (pressed e) (latch e) (toggle e) (heads e) l.

Record keyboard_binding := mkKB {
  APP_TITLE : string;
  keys : PyDict.dict KeyEntry
}.

Definition set_keys (d : PyDict.dict KeyEntry) (self : keyboard_binding) :=
  mkKB (APP_TITLE self) d.

(** What a method can raise. *)
Inductive exn :=
  | TypeError                 (** subscripting [None] *)
  | ActionRaised (a : action) (** a callback raised *).

Abbreviation Py := (PyM keyboard_binding exn).

(** [self.keys[k] = ...] and in-place updates of [self.keys[k]]. *)
Definition alter_entry (f : KeyEntry → KeyEntry) (k : string) : Py unit :=
  modify (λ self, set_keys (PyDict.alter f k (keys self)) self).

Definition get_entry (k : string) : Py (option KeyEntry) :=
  gets (λ self, PyDict.get (keys self) k).

(** ** The constructor ([__init__], lines 43-91) *)

Definition fresh_entry (remap : string) (toggle : bool) : KeyEntry :=
  mkEntry remap false false toggle [] [].

Definition default_keys : list string :=
  ["a"; "b"; "c"; "d"; "e"; "f"; "g"; "h"; "i"; "j"; "k"; "l"; "m";
   "n"; "o"; "p"; "q"; "r"; "s"; "t"; "u"; "v"; "w"; "x"; "y"; "z";
   "1"; "2"; "3"; "4"; "5"; "6"; "7"; "8"; "9"; "0";
   "shift"; "ctrl"; "alt"]%string.

Definition init (title : string) : keyboard_binding :=
  mkKB title ((λ k, (k, fresh_entry k true)) <$> default_keys).

(** ** Key manipulation (lines 127-169) *)

(** [add_key(key, remap=None, toggle=True)]: [if not remap: remap = key];
    the empty string is falsy too. *)
Definition add_key (key : string) (remap : option string) (toggle : bool) : Py unit :=
  let remap := match remap with
               | Some r => if decide (r = ""%string) then key else r
               | None => key
               end in
  modify (λ self, set_keys (PyDict.setitem key (fresh_entry remap toggle) (keys self)) self).

Definition change_toggle (key : string) : Py bool :=
  v ← get_entry key;
  match v with
  | Some _ =>
      alter_entry (λ e, set_toggle (if toggle e then false else true) e) key;;
      mret true
  | None => mret false
  end.

Definition remove_key (key : string) : Py bool :=
  v ← get_entry key;
  match v with
  | Some _ => modify (λ self, set_keys (PyDict.pop key (keys self)) self);; mret true
  | None => mret false
  end.

Definition remap (key to_key : string) : Py bool :=
  v ← get_entry key;
  match v with
  | Some _ => alter_entry (set_target to_key) key;; mret true
  | None => mret false
  end.

(** ** Binding manipulation (lines 173-269) *)

(** The index of the first element equal to [x] (Python: the loop
    [for i in range(len(l)): if l[i] == x: ...]). *)
Fixpoint find_index (x : action) (l : list action) : option nat :=
  match l with
  | [] => None
  | y :: l' => if decide (y = x) then Some 0 else S <$> find_index x l'
  end.


(** [bind(key, head_func, tail_func, toggle)]: an argument that is not
    callable (for instance [None]) is [None] here. *)
Definition bind (key : string) (head_func tail_func : option action)
    (toggle : bool) : Py bool :=
  v ← get_entry key;
  match v with
  | Some _ =>
      alter_entry (set_toggle toggle) key;;
      (match head_func with
       | Some h => alter_entry (λ e, set_heads (h :: heads e) e) key
       | None => mret ()
       end);;
      (match tail_func with
       | Some t => alter_entry (λ e, set_tails (t :: tails e) e) key
       | None => mret ()
       end);;
      mret true
  | None => mret false
  end.

(** [bulk_bind(key, head_list, tail_list, toggle)]: an argument that is not
    a [list] is [None] here. *)
Definition bulk_bind (key : string) (head_list tail_list : option (list action))
    (toggle : bool) : Py bool :=
  v ← get_entry key;
  match v with
  | Some _ =>
      alter_entry (set_toggle toggle) key;;
      (match head_list with
       | Some hl => alter_entry (λ e, set_heads (heads e ++ hl) e) key
       | None => mret ()
       end);;
      (match tail_list with
       | Some tl => alter_entry (λ e, set_tails (tails e ++ tl) e) key
       | None => mret ()
       end);;
      mret true
  | None => mret false
  end.

Definition clear_bind (key : string) : Py bool :=
  v ← get_entry key;
  match v with
  | Some _ => alter_entry (λ e, set_tails [] (set_heads [] e)) key;; mret true
  | None => mret false
  end.

(** [remove_bind(key, head_tail, func)] does not test [value] before
    subscripting it: on a missing key, [value[4]] raises [TypeError]. *)
Definition remove_bind (key : string) (head_tail : bool) (func : action) : Py bool :=
  v ← get_entry key;
  match v with
  | None => raise TypeError
  | Some value =>
      if head_tail then
        match find_index func (heads value) with
        | Some i => alter_entry (λ e, set_heads (delete i (heads e)) e) key;; mret true
        | None => mret false
        end
      else
        match find_index func (tails value) with
        | Some i => alter_entry (λ e, set_tails (delete i (tails e)) e) key;; mret true
        | None => mret false
        end
  end.

(** [swap_binds(key_a, key_b)]: both pairs of lists are copied first, then
    written back crosswise, [a] before [b]. *)
Definition swap_binds (key_a key_b : string) : Py bool :=
  a ← get_entry key_a;
  b ← get_entry key_b;
  match a, b with
  | Some a, Some b =>
      alter_entry (λ e, set_tails (tails b) (set_heads (heads b) e)) key_a;;
      alter_entry (λ e, set_tails (tails a) (set_heads (heads a) e)) key_b;;
      mret true
  | _, _ => mret false
  end.

Definition get_binds (key : string) : Py (option (list action) * option (list action)) :=
  v ← get_entry key;
  match v with
  | Some value => mret (Some (heads value), Some (tails value))
  | None => mret (None, None)
  end.

(** Every call of the mutation API, with its result discarded: the
    registry's client interface as a step on the object. *)
Inductive api_call :=
  | AddKey (key : string) (remap : option string) (toggle : bool)
  | ChangeToggle (key : string)
  | RemoveKey (key : string)
  | Remap (key to_key : string)
  | Bind (key : string) (head_func tail_func : option action) (toggle : bool)
  | BulkBind (key : string) (head_list tail_list : option (list action)) (toggle : bool)
  | ClearBind (key : string)
  | RemoveBind (key : string) (head_tail : bool) (func : action)
  | SwapBinds (key_a key_b : string)
  | GetBinds (key : string).

Definition api (c : api_call) : Py unit :=
  match c with
  | AddKey k r t => add_key k r t
  | ChangeToggle k => change_toggle k;; mret ()
  | RemoveKey k => remove_key k;; mret ()
  | Remap k t => remap k t;; mret ()
  | Bind k h t tg => bind k h t tg;; mret ()
  | BulkBind k hl tl tg => bulk_bind k hl tl tg;; mret ()
  | ClearBind k => clear_bind k;; mret ()
  | RemoveBind k ht f => remove_bind k ht f;; mret ()
  | SwapBinds a b => swap_binds a b;; mret ()
  | GetBinds k => get_binds k;; mret ()
  end.

(** ** Invariants *)

(** The registry invariant: [self.keys] has distinct keys (it is a dict),
    and an entry's latch is set only while its pressed flag is set. *)
Definition latch_ok (e : KeyEntry) : Prop := latch e = true → pressed e = true.

Definition dict_inv (d : PyDict.dict KeyEntry) : Prop :=
  PyDict.wf d ∧ ∀ k e, PyDict.get d k = Some e → latch_ok e.

Definition kb_inv (self : keyboard_binding) : Prop := dict_inv (keys self).

Ltac kb_run :=
  unfold get_entry, alter_entry, set_keys in *; py_unfold; simpl in *.

(** ** The loop of [remove_bind] *)

Section remove_bind_loop.
Implicit Types (x : action) (l : list action).

Lemma find_index_None x l : find_index x l = None ↔ x ∉ l.
Proof.
  induction l as [|y l IH]; simpl; [set_solver|].
  case_decide; subst; [set_solver|].
  rewrite fmap_None, IH. set_solver.
Qed.

(** The index the loop of [remove_bind] pops is in range and is the
    first occurrence: when [find_index x l] returns [i], then [i < len(l)]
    (so [l.pop(i)] cannot raise [IndexError]), [l[i] == x], and no
    earlier element equals [x]. *)
Lemma find_index_bounds x l i :
  find_index x l = Some i → i < length l ∧ l !! i = Some x ∧ x ∉ take i l.
Proof.
  revert i. induction l as [|y l IH]; intros i; simpl; [done|].
  case_decide as Hy.
  - intros [= <-]. subst. split_and!; [lia|done|apply not_elem_of_nil].
  - destruct (find_index x l) as [j|] eqn:E; simpl; [|done]. intros [= <-].
    destruct (IH j eq_refl) as (Hj & Hl & Ht). split_and!; [lia|done|].
    cbn [take]. rewrite not_elem_of_cons. split; [congruence|done].
Qed.

(** [l.pop(i)] at the index of the first occurrence removes exactly the
    first occurrence. *)
Lemma delete_find_index x l :
  (λ i, delete i l) <$> find_index x l = remove_first x l.
Proof.
  induction l as [|y l IH]; simpl; [done|].
  case_decide; [done|].
  rewrite <- IH. by destruct (find_index x l).
Qed.
End remove_bind_loop.

(** ** Lemmas *)

Lemma dict_inv_alter d f k :
  (∀ e, latch_ok e → latch_ok (f e)) → dict_inv d → dict_inv (PyDict.alter f k d).
Proof.
  intros Hf [Hwf Hd]. split; [by apply PyDict.wf_alter|].
  intros k' e. rewrite PyDict.get_alter. case_decide; [|by apply Hd].
  destruct (PyDict.get d k') eqn:E; simpl; [intros [= <-]|done]. eauto.
Qed.

(** An update that leaves the pressed and latch slots alone. *)
Lemma dict_inv_alter_frame d k (f : KeyEntry → KeyEntry) :
  (∀ e, latch (f e) = latch e ∧ pressed (f e) = pressed e) →
  dict_inv d → dict_inv (PyDict.alter f k d).
Proof.
  intros Hf. apply dict_inv_alter. intros e. unfold latch_ok.
  destruct (Hf e) as [-> ->]. done.
Qed.

Lemma dict_inv_setitem d k e : latch_ok e → dict_inv d → dict_inv (PyDict.setitem k e d).
Proof.
  intros He [Hwf Hd]. split; [by apply PyDict.wf_setitem|].
  intros k' e'. rewrite PyDict.get_setitem. case_decide; [by intros [= <-]|eauto].
Qed.

Lemma dict_inv_pop d k : dict_inv d → dict_inv (PyDict.pop k d).
Proof.
  intros [Hwf Hd]. split; [by apply PyDict.wf_pop|].
  intros k' e'. rewrite PyDict.get_pop by done. case_decide; [done|eauto].
Qed.

Lemma latch_ok_fresh r t : latch_ok (fresh_entry r t).
Proof. done. Qed.

Ltac frame_solve := intros []; simpl; auto.

#[export] Hint Resolve dict_inv_pop dict_inv_setitem latch_ok_fresh : kb.
#[export] Hint Extern 2 (dict_inv (PyDict.alter _ _ _)) =>
  apply dict_inv_alter_frame; [frame_solve|] : kb.

(** ** The invariant holds initially and is kept by every call *)

Lemma get_fresh_entries (ks : list string) k e :
  PyDict.get ((λ k, (k, fresh_entry k true)) <$> ks) k = Some e → latch e = false.
Proof.
  induction ks as [|k' ks IH]; simpl; [done|].
  case_decide; [by intros [= <-]|done].
Qed.

Lemma init_inv title : kb_inv (init title).
Proof.
  split; [by vm_compute; repeat constructor; set_solver|].
  intros k e He. apply get_fresh_entries in He. unfold latch_ok. congruence.
Qed.

Lemma api_inv c : preserves kb_inv (api c).
Proof.
  intros self.
  unfold kb_inv. intros Hinv. destruct self as [title d]. simpl in Hinv.
  destruct c; unfold api, add_key, change_toggle, remove_key, remap, bind,
    bulk_bind, clear_bind, remove_bind, swap_binds, get_binds in *; kb_run;
    repeat (case_inner; simpl in * ); auto with kb.
  all: by repeat (apply dict_inv_alter_frame; [frame_solve|]).
Qed.

(** C14. Every call of the mutation API keeps the registry invariant:
    distinct keys, and no entry latched without its pressed flag. *)
Theorem api_preserves_inv c self : kb_inv self → kb_inv (api c self).1.
Proof. apply api_inv. Qed.

(** ** Functional behaviour *)

(** C19. [remove_bind] on a key that is not registered raises [TypeError]
    (it subscripts the [None] that [self.keys.get] returned) and leaves the
    object as it was, on both lists. *)
Theorem remove_bind_missing self key head_tail func :
  PyDict.get (keys self) key = None →
  remove_bind key head_tail func self = (self, inl TypeError).
Proof. intros H. unfold remove_bind. kb_run. by rewrite H. Qed.

(** C18. [remove_bind] on a registered key removes exactly the first
    element of the chosen list that is the given callback and returns
    [True]; when the callback is not in that list it returns [False] and
    changes nothing.  (The Python index loop refines [remove_first].) *)
Theorem remove_bind_first self key head_tail func v :
  PyDict.get (keys self) key = Some v →
  remove_bind key head_tail func self =
    match remove_first func (if head_tail then heads v else tails v) with
    | Some l =>
        (set_keys (PyDict.alter (if head_tail then set_heads l else set_tails l)
           key (keys self)) self, inr true)
    | None => (self, inr false)
    end.
Proof.
  intros H. unfold remove_bind. kb_run. rewrite H.
  destruct head_tail; rewrite <- delete_find_index;
    destruct (find_index func _); simpl; [|done| |done];
    unfold set_keys; do 2 f_equal; by eapply PyDict.alter_get_ext.
Qed.

Lemma swap_binds_run self a b ea eb :
  PyDict.get (keys self) a = Some ea → PyDict.get (keys self) b = Some eb →
  swap_binds a b self =
    (set_keys (PyDict.alter (λ e, set_tails (tails ea) (set_heads (heads ea) e)) b
       (PyDict.alter (λ e, set_tails (tails eb) (set_heads (heads eb) e)) a (keys self)))
       self, inr true).
Proof. intros Ha Hb. unfold swap_binds. kb_run. by rewrite Ha, Hb. Qed.

Lemma swap_binds_missing self a b :
  PyDict.get (keys self) a = None ∨ PyDict.get (keys self) b = None →
  swap_binds a b self = (self, inr false).
Proof.
  intros H. unfold swap_binds. kb_run.
  destruct H as [H|H]; rewrite H; [done|]. by destruct (PyDict.get _ a).
Qed.

(** [swap_binds] is an involution: swapping the bindings of two keys
    twice gives back the original object, and both calls report whether
    both keys are registered. *)
Lemma swap_binds_involutive self a b :
  (swap_binds a b;; swap_binds a b) self =
    (self, inr (bool_decide (is_Some (PyDict.get (keys self) a) ∧
                             is_Some (PyDict.get (keys self) b)))).
Proof.
  destruct (PyDict.get (keys self) a) as [ea|] eqn:Ha;
    [destruct (PyDict.get (keys self) b) as [eb|] eqn:Hb|].
  2,3: rewrite (bind_ok _ _ _ self false) by (apply swap_binds_missing; auto);
       rewrite swap_binds_missing by auto;
       rewrite bool_decide_eq_false_2; [done|]; by intros [[? ?] [? ?]].
  rewrite bool_decide_eq_true_2 by done.
  erewrite bind_ok by (by apply swap_binds_run).
  destruct (decide (a = b)) as [<-|Hne].
  - simplify_eq. rewrite !PyDict.alter_alter, (PyDict.alter_id _ _ a ea);
      [|done|by destruct ea].
    rewrite (swap_binds_run _ a a ea ea) by (simpl; done).
    rewrite !PyDict.alter_alter, (PyDict.alter_id _ _ a ea); [|done|by destruct ea].
    by destruct self.
  - rewrite (swap_binds_run _ a b
      (set_tails (tails eb) (set_heads (heads eb) ea))
      (set_tails (tails ea) (set_heads (heads ea) eb))); simpl;
      [|by rewrite PyDict.get_alter_ne, PyDict.get_alter_eq, Ha
       |by rewrite PyDict.get_alter_eq, PyDict.get_alter_ne, Hb].
    rewrite (PyDict.alter_comm _ _ _ a b), !PyDict.alter_alter by done.
    rewrite (PyDict.alter_id _ _ a ea), (PyDict.alter_id _ _ b eb); try done;
      [|by destruct eb|by destruct ea].
    by destruct self.
Qed.

(** C17. [swap_binds] exchanges the bindings.  When both keys are
    registered it returns [True], the dict keeps its keys and their order,
    [key_a]'s entry gets the lists [key_b] had and [key_b]'s entry the
    lists [key_a] had (targets, pressed, latch and toggle slots stay), no
    other key changes, and a second call gives back the original object.
    When a key is missing it returns [False] and changes nothing. *)
Theorem swap_binds_exchanges self a b :
  match PyDict.get (keys self) a, PyDict.get (keys self) b with
  | Some ea, Some eb =>
      ∃ self', swap_binds a b self = (self', inr true) ∧
        APP_TITLE self' = APP_TITLE self ∧ PyDict.keys (keys self') = PyDict.keys (keys self) ∧
        (∀ k, PyDict.get (keys self') k =
                if decide (k = b) then Some (set_tails (tails ea) (set_heads (heads ea) eb))
                else if decide (k = a) then Some (set_tails (tails eb) (set_heads (heads eb) ea))
                else PyDict.get (keys self) k) ∧
        (swap_binds a b self').1 = self
  | _, _ => swap_binds a b self = (self, inr false)
  end.
Proof.
  destruct (PyDict.get (keys self) a) as [ea|] eqn:Ha;
    [destruct (PyDict.get (keys self) b) as [eb|] eqn:Hb|]; try (apply swap_binds_missing; auto).
  eexists. split_and!; [by apply swap_binds_run|done|cbn [keys set_keys]; by rewrite !PyDict.keys_alter| |].
  - intros k. cbn [keys set_keys]. rewrite !PyDict.get_alter.
    destruct (decide (k = b)) as [->|]; [|destruct (decide (k = a)) as [->|]; [by rewrite Ha|done]].
    destruct (decide (b = a)) as [->|]; simplify_eq; [rewrite Ha; simpl; by destruct ea|by rewrite Hb].
  - pose proof (swap_binds_involutive self a b) as Hi.
    rewrite (bind_ok _ _ _ _ _ (swap_binds_run self a b ea eb Ha Hb)) in Hi. by rewrite Hi.
Qed.

(** A guarded method: on a registered key it applies [f] to the key's own
    entry in place and returns [True]; on a missing key it returns [False]
    and changes nothing. *)
Definition guarded_update (m : Py bool) (key : string) (f : KeyEntry → KeyEntry) : Prop :=
  ∀ self, m self =
    match PyDict.get (keys self) key with
    | Some _ => (set_keys (PyDict.alter f key (keys self)) self, inr true)
    | None => (self, inr false)
    end.

Ltac guarded_solve :=
  intros self; kb_run; repeat (case_inner; simpl); rewrite ?PyDict.alter_alter;
  try done; do 2 f_equal; apply PyDict.alter_ext;
  intros [? ? ? [] ? ?]; simpl; by rewrite ?app_nil_r.

(** C15. The guarded mutations act on the key's own entry only, each as
    its Python body says: [remap] sets the target, [change_toggle] flips
    the toggle, [bind] sets the toggle and puts the callbacks it is given
    at the front of the lists, [bulk_bind] sets the toggle and appends the
    lists it is given, [clear_bind] empties both lists.  On a missing key
    each returns [False] and changes nothing. *)
Theorem mutations_spec key to_key h t hl tl tg :
  guarded_update (remap key to_key) key (set_target to_key) ∧
  guarded_update (change_toggle key) key (λ e, set_toggle (negb (toggle e)) e) ∧
  guarded_update (bind key h t tg) key
    (λ e, set_tails (option_list t ++ tails e)
            (set_heads (option_list h ++ heads e) (set_toggle tg e))) ∧
  guarded_update (bulk_bind key hl tl tg) key
    (λ e, set_tails (tails e ++ default [] tl)
            (set_heads (heads e ++ default [] hl) (set_toggle tg e))) ∧
  guarded_update (clear_bind key) key (λ e, set_tails [] (set_heads [] e)).
Proof.
  unfold remap, change_toggle, bind, bulk_bind, clear_bind.
  split_and!; guarded_solve.
Qed.

(** C16. The key methods: [add_key] writes a fresh entry (unpressed,
    unlatched, no callbacks, the given toggle; target [remap], or the key
    itself when [remap] is [None] or empty) under [key], discarding the
    bindings of a registered key but keeping its place in the dict, and
    appending a new key at the end; [remove_key] deletes a registered key
    and returns whether it was registered; [get_binds] returns the two
    callback lists of a registered key, or [(None, None)], and changes
    nothing.  Other keys are left alone. *)
Theorem key_methods_spec self key r t :
  let self' := (add_key key r t self).1 in
  (add_key key r t self).2 = inr () ∧
  PyDict.get (keys self') key =
    Some (fresh_entry (default key (r ≫= λ r', if decide (r' = ""%string) then None else Some r')) t) ∧
  (∀ k, k ≠ key → PyDict.get (keys self') k = PyDict.get (keys self) k) ∧
  PyDict.keys (keys self') =
    (if decide (key ∈ PyDict.keys (keys self)) then PyDict.keys (keys self)
     else PyDict.keys (keys self) ++ [key]) ∧
  (PyDict.wf (keys self) →
   (remove_key key self).2 = inr (bool_decide (is_Some (PyDict.get (keys self) key))) ∧
   PyDict.get (keys (remove_key key self).1) key = None ∧
   ∀ k, k ≠ key → PyDict.get (keys (remove_key key self).1) k = PyDict.get (keys self) k) ∧
  get_binds key self =
    (self, inr (match PyDict.get (keys self) key with
                | Some v => (Some (heads v), Some (tails v))
                | None => (None, None)
                end)).
Proof.
  unfold add_key, remove_key, get_binds. kb_run.
  rewrite PyDict.keys_setitem. split_and!; [done| |intros k Hk|done| |].
  - rewrite PyDict.get_setitem, decide_True by done.
    destruct r as [r'|]; simpl; [by case_decide|done].
  - by rewrite PyDict.get_setitem, decide_False.
  - intros Hwf. destruct (PyDict.get (keys self) key) as [e|] eqn:E; simpl;
      rewrite ?PyDict.get_pop, ?decide_True by done; split_and!; try done;
      intros k' Hk; by rewrite ?PyDict.get_pop, ?decide_False.
  - by destruct (PyDict.get (keys self) key).
Qed.

End Registry.
