(* ===== verification/Persistence.v ===== *)
(** * Persistence: [load_keys] and [save_keys]

    Models lines 96-123 of [src/Keyboard_binding.py].  [json] and the file
    system are not modelled: [load_keys] receives what [json.load] returned,
    as the items of the decoded object ([Some items]), or [None] when
    opening, reading or decoding failed or the top-level value has no
    [.items()]; all of these end in the bare [except] and [return False].
    [save_keys] is the object it writes, [{k: v[0] for k, v in
    self.keys.items()}], in iteration order. *)

From S2P Require Import Prelude PyDict Registry.

Module Persistence.
Import Registry.

(** The body of the loop of [load_keys], for one decoded pair.  The test
    [key != v] compares the five-slot list with a string: it is always
    true, so the target is always written ([JsonFiles] models the values
    that are not strings, for which it can be false). *)
Definition load_item (kv : string * string) : Py unit :=
  let '(k, v) := kv in
  key ← get_entry k;
  match key with
  | None => add_key k (Some v) true
  | Some _ => alter_entry (set_target v) k
  end.

Definition load_keys (data : option (list (string * string))) : Py bool :=
  match data with
  | None => mret false
  | Some items => for_ load_item items;; mret true
  end.

Definition save_keys (self : keyboard_binding) : list (string * string) :=
  (λ '(k, v), (k, target v)) <$> keys self.

(** What [load_item] does to the dict. *)
Definition load_step (d : PyDict.dict KeyEntry) (kv : string * string) : PyDict.dict KeyEntry :=
  let '(k, v) := kv in
  match PyDict.get d k with
  | None => PyDict.setitem k (fresh_entry (if decide (v = ""%string) then k else v) true) d
  | Some _ => PyDict.alter (set_target v) k d
  end.

(** ** Lemmas *)

Lemma load_item_run kv self :
  load_item kv self = (set_keys (load_step (keys self) kv) self, inr ()).
Proof.
  destruct kv as [k v]. unfold load_item, add_key. kb_run.
  by destruct (PyDict.get (keys self) k).
Qed.

Lemma load_keys_run items self :
  load_keys (Some items) self =
    (set_keys (foldl load_step (keys self) items) self, inr true).
Proof.
  unfold load_keys. rewrite (bind_ok _ _ _ (set_keys (foldl load_step (keys self) items) self) ()).
  { done. }
  revert self. induction items as [|kv items IH]; intros self; simpl; [by destruct self|].
  rewrite (bind_ok _ _ _ _ _ (load_item_run kv self)), IH. done.
Qed.

Lemma get_save_keys self k :
  PyDict.get (save_keys self) k = target <$> PyDict.get (keys self) k.
Proof.
  unfold save_keys. induction (keys self) as [|[k1 v1] d IH]; simpl; [done|].
  by case_decide.
Qed.

Lemma keys_save_keys self : PyDict.keys (save_keys self) = PyDict.keys (keys self).
Proof. unfold save_keys. induction (keys self) as [|[k1 v1] d IH]; simpl; by f_equal. Qed.

Lemma load_step_merge d kv :
  load_step d kv =
    PyDict.merge_step (λ k v, fresh_entry (if decide (v = ""%string) then k else v) true)
      set_target d kv.
Proof. by destruct kv. Qed.

Lemma get_foldl_load_step (items : PyDict.dict string) d k :
  NoDup (PyDict.keys items) →
  PyDict.get (foldl load_step d items) k =
    match PyDict.get items k with
    | Some v => Some (match PyDict.get d k with
                      | Some e => set_target v e
                      | None => fresh_entry (if decide (v = ""%string) then k else v) true
                      end)
    | None => PyDict.get d k
    end.
Proof.
  intros Hnd. rewrite (foldl_ext _ _ _ _ load_step_merge).
  by rewrite PyDict.get_foldl_merge.
Qed.

Lemma keys_foldl_load_step (items : PyDict.dict string) d :
  NoDup (PyDict.keys items) →
  PyDict.keys (foldl load_step d items) =
    PyDict.keys d ++ filter (λ k, k ∉ PyDict.keys d) (PyDict.keys items).
Proof.
  intros Hnd. rewrite (foldl_ext _ _ _ _ load_step_merge).
  by rewrite PyDict.keys_foldl_merge.
Qed.

(** Loading keeps the registry invariant: a new key gets a fresh,
    unlatched entry; a known key only gets a new target. *)
Lemma load_step_inv d kv : dict_inv d → dict_inv (load_step d kv).
Proof. destruct kv as [k v]. simpl. destruct (PyDict.get d k); eauto with kb. Qed.

Lemma load_keys_inv data self : kb_inv self → kb_inv (load_keys data self).1.
Proof.
  destruct data as [items|]; [|done]. rewrite load_keys_run. unfold kb_inv. simpl.
  revert self. induction items as [|kv items IH]; intros self Hinv; simpl; [done|].
  apply (IH (set_keys (load_step (keys self) kv) self)). by apply load_step_inv.
Qed.

Lemma load_keys_title data self : APP_TITLE (load_keys data self).1 = APP_TITLE self.
Proof. destruct data; [by rewrite load_keys_run|done]. Qed.

(** C20. [load_keys] on a decoded object merges it into the registry: a
    registered key gets the new target and keeps its callbacks, toggle and
    state; an unregistered key is added at the end, in the order of the
    file, with default state, toggle on and no callbacks (and, since an
    empty string is falsy for [add_key], an empty target becomes the key
    itself); keys absent from the file are untouched; the result is
    [True].  A read or decode failure returns [False] and changes
    nothing. *)
Theorem load_keys_merge self items :
  load_keys None self = (self, inr false) ∧
  (NoDup (PyDict.keys items) →
   let self' := (load_keys (Some items) self).1 in
   (load_keys (Some items) self).2 = inr true ∧ APP_TITLE self' = APP_TITLE self ∧
   PyDict.keys (keys self') =
     PyDict.keys (keys self) ++ filter (λ k, k ∉ PyDict.keys (keys self)) (PyDict.keys items) ∧
   ∀ k, PyDict.get (keys self') k =
     match PyDict.get items k with
     | Some v => Some (match PyDict.get (keys self) k with
                       | Some e => set_target v e
                       | None => fresh_entry (if decide (v = ""%string) then k else v) true
                       end)
     | None => PyDict.get (keys self) k
     end).
Proof.
  split; [done|]. intros Hnd. rewrite load_keys_run. simpl.
  split_and!; [done|done|by apply keys_foldl_load_step|].
  intros k. by apply get_foldl_load_step.
Qed.

Lemma filter_not_in_keys (ks : list string) : filter (λ k, k ∉ ks) ks = [].
Proof.
  rewrite (list_filter_ext_in _ (λ _, False)); [|naive_solver].
  induction ks as [|a ks IH]; [done|]. rewrite filter_cons_False; [exact IH|tauto].
Qed.

(** C22. Round trip: writing the key-to-target map and loading it back
    into the same object changes nothing and reports success. *)
Theorem save_load_roundtrip self :
  PyDict.wf (keys self) → load_keys (Some (save_keys self)) self = (self, inr true).
Proof.
  intros Hwf. rewrite load_keys_run. destruct self as [t d]. unfold set_keys. simpl in *.
  do 3 f_equal. assert (NoDup (PyDict.keys (save_keys (mkKB t d)))) as Hnd
    by (rewrite keys_save_keys; done).
  apply PyDict.dict_eq_ext.
  - unfold PyDict.wf. rewrite keys_foldl_load_step by done.
    rewrite keys_save_keys. simpl. by rewrite filter_not_in_keys, app_nil_r.
  - rewrite keys_foldl_load_step by done. rewrite keys_save_keys. simpl.
    by rewrite filter_not_in_keys, app_nil_r.
  - intros k. rewrite get_foldl_load_step, get_save_keys by done. simpl.
    destruct (PyDict.get d k) as [[]|]; done.
Qed.

(** C24. Loading a saved map into another object restores the saved
    target of every saved key, except an empty target on a key the other
    object does not have ([add_key] treats [""] as "no remap"). *)
Theorem save_load_targets self s0 k e :
  PyDict.wf (keys self) → PyDict.get (keys self) k = Some e →
  target e ≠ ""%string ∨ k ∈ PyDict.keys (keys s0) →
  target <$> PyDict.get (keys (load_keys (Some (save_keys self)) s0).1) k = Some (target e).
Proof.
  intros Hwf He Hcase. rewrite load_keys_run. simpl.
  rewrite get_foldl_load_step by (by rewrite keys_save_keys).
  rewrite get_save_keys, He. simpl.
  destruct (PyDict.get (keys s0) k) as [e0|] eqn:E0; [by destruct e0|].
  destruct Hcase as [Hne|Hin]; [by rewrite decide_False|].
  apply PyDict.get_elem_of_keys in Hin. rewrite E0 in Hin. by destruct Hin.
Qed.

End Persistence.
