(* ===== verification/KeyMachine.v ===== *)
(** * KeyMachine: the abstract per-entry state machine

    The specification's view of one effective entry: a phase among
    [Released], [HeldPending] and [HeldFired], moved by one press sample
    per poll, in edge mode ([toggle = true]) or continuous mode, emitting
    at most one event (run the head callbacks, or the tail callbacks).
    [tick] is the transition relation, [next_phase] its executable form,
    [run] a sequence of polls.  The theorems here are about the abstract
    machine alone; [Dispatch] proves that [update] implements it. *)

From S2P Require Import Prelude.

Module KeyMachine.

Inductive phase := Released | HeldPending | HeldFired.

Inductive event := Head | Tail.

#[export] Instance phase_eq_dec : EqDecision phase.
Proof. solve_decision. Defined.
#[export] Instance event_eq_dec : EqDecision event.
Proof. solve_decision. Defined.

(** [tick toggle ph pressed ph' ev]: in mode [toggle], phase [ph] and a
    sample [pressed] move to [ph'] emitting [ev]. *)
Inductive tick : bool → phase → bool → phase → option event → Prop :=
  | tick_edge_rise ph : ph ≠ HeldFired → tick true ph true HeldFired (Some Head)
  | tick_edge_hold : tick true HeldFired true HeldFired None
  | tick_cont ph : tick false ph true HeldFired (Some Head)
  | tick_release tg : tick tg HeldFired false Released (Some Tail)
  | tick_idle tg ph : ph ≠ HeldFired → tick tg ph false Released None.

Definition next_phase (toggle : bool) (ph : phase) (pressed : bool) : phase * option event :=
  if pressed then
    if toggle then
      match ph with
      | HeldFired => (HeldFired, None)
      | _ => (HeldFired, Some Head)
      end
    else (HeldFired, Some Head)
  else
    match ph with
    | HeldFired => (Released, Some Tail)
    | _ => (Released, None)
    end.

(** A run: the phase after the samples, and the events of each poll. *)
Fixpoint run (toggle : bool) (ph : phase) (ps : list bool) : phase * list (option event) :=
  match ps with
  | [] => (ph, [])
  | p :: ps' =>
      let '(ph', ev) := next_phase toggle ph p in
      let '(ph'', evs) := run toggle ph' ps' in
      (ph'', ev :: evs)
  end.

(** ** The relation and the function agree *)

Lemma next_phase_tick tg ph p ph' ev :
  next_phase tg ph p = (ph', ev) ↔ tick tg ph p ph' ev.
Proof.
  split.
  - destruct tg, ph, p; simpl; intros [= <- <-]; constructor; congruence.
  - intros []; simpl; repeat case_match; congruence.
Qed.

(** The machine is total and deterministic. *)
Lemma tick_total tg ph p : ∃ ph' ev, tick tg ph p ph' ev.
Proof.
  destruct (next_phase tg ph p) as [ph' ev] eqn:E.
  exists ph', ev. by apply next_phase_tick.
Qed.

Lemma tick_det tg ph p ph1 ev1 ph2 ev2 :
  tick tg ph p ph1 ev1 → tick tg ph p ph2 ev2 → ph1 = ph2 ∧ ev1 = ev2.
Proof. rewrite <- !next_phase_tick. intros -> [= -> ->]. done. Qed.

(** A pressed sample always ends in [HeldFired], a released one in
    [Released]: the phase after a poll is determined by the sample. *)
Lemma next_phase_fst tg ph p :
  (next_phase tg ph p).1 = if p then HeldFired else Released.
Proof. by destruct tg, ph, p. Qed.

Lemma run_app tg ph ps1 ps2 :
  run tg ph (ps1 ++ ps2) =
    let '(ph1, evs1) := run tg ph ps1 in
    let '(ph2, evs2) := run tg ph1 ps2 in (ph2, evs1 ++ evs2).
Proof.
  revert ph. induction ps1 as [|p ps1 IH]; intros ph; simpl.
  - by destruct (run tg ph ps2).
  - destruct (next_phase tg ph p) as [ph' ev].
    rewrite IH. destruct (run tg ph' ps1), (run tg _ ps2). done.
Qed.

Lemma run_held_edge n : run true HeldFired (replicate n true) = (HeldFired, replicate n None).
Proof. induction n as [|n IH]; simpl; [done|]. by rewrite IH. Qed.

Lemma run_held_cont ph n :
  run false ph (replicate (S n) true) = (HeldFired, replicate (S n) (Some Head)).
Proof.
  revert ph. induction n as [|n IH]; intros ph; simpl; [done|].
  specialize (IH HeldFired). simpl in IH. destruct (run _ _ _) as [? evs] eqn:E.
  by injection IH as -> ->.
Qed.

(** ** The machine's guarantees *)

(** Edge mode: from a released key, [n + 1] pressed polls then one released
    poll emit the head event once, on the first poll, and the tail event
    once, on the release. *)
Lemma run_edge_press_release ph n :
  ph ≠ HeldFired →
  run true ph (replicate (S n) true ++ [false]) =
    (Released, Some Head :: replicate n None ++ [Some Tail]).
Proof.
  intros Hph. rewrite run_app. simpl.
  destruct ph; try done; rewrite run_held_edge; done.
Qed.

(** Continuous mode: [n + 1] pressed polls then one released poll emit the
    head event on every pressed poll and the tail event once. *)
Lemma run_cont_press_release ph n :
  run false ph (replicate (S n) true ++ [false]) =
    (Released, replicate (S n) (Some Head) ++ [Some Tail]).
Proof. rewrite run_app, run_held_cont. done. Qed.

End KeyMachine.
