(* ===== verification/Dispatch.v ===== *)
(** * Dispatch: the polling handler [update]

    Models lines 273-321 of [src/Keyboard_binding.py]: [__call_bind],
    [__is_app_active] and [update].  One poll observes the world through a
    [sample]: the focus oracle's answer, the key-state source, and which
    callbacks raise when called in this poll.  The state is a [world]: the
    object and the log of callback calls, in call order.

    [update] is [for_ (update_key smp)] over the keys in insertion order.
    [update_key] reads the key's entry, resolves the effective entry one
    hop through its target, and runs the edge or continuous machine on
    the effective entry, in place.  The refinement theorems relate it to
    [KeyMachine]: each iteration ticks the effective entry's phase
    ([update_key_tick]); the whole poll is a sequential functional
    specification [poll_seq]; when no two keys resolve to the same entry,
    [poll_seq] is the parallel specification [poll_par], in which every
    entry is ticked by its own driver, independently of the dict order. *)

From S2P Require Import Prelude PyDict Registry KeyMachine.

Module Dispatch.
Import Registry KeyMachine.

(** What one poll observes. *)
Record sample := mkSample {
  active_window : option string;  (** [pygetwindow.getActiveWindow().title];
                                      [None]: no window, or the query raised *)
  is_pressed : string → bool;     (** [keyboard.is_pressed] *)
  raises : action → bool          (** the callbacks that raise when called *)
}.

Record world := mkWorld { kb : keyboard_binding; calls : list action }.

Abbreviation Upd := (PyM world exn).

(** Run a method of the object inside a poll. *)
Definition lift {A} (m : Py A) : Upd A := λ w,
  let '(self', r) := m (kb w) in (mkWorld self' (calls w), r).

(** [__is_app_active]: [True] on a title equal to [APP_TITLE]; [None]
    (falsy) on another title; [False] when the query raises. *)
Definition is_app_active (smp : sample) (self : keyboard_binding) : bool :=
  match active_window smp with
  | Some title => bool_decide (title = APP_TITLE self)
  | None => false
  end.

(** Calling one callback: the call is logged, then it returns or raises. *)
Definition call (smp : sample) (a : action) : Upd unit := λ w,
  let w' := mkWorld (kb w) (calls w ++ [a]) in
  if raises smp a then (w', inl (ActionRaised a)) else (w', inr ()).

(** [__call_bind(key_data, index)]: the callbacks of one list, in order. *)
Definition call_bind (smp : sample) (l : list action) : Upd unit := for_ (call smp) l.
Arguments call_bind : simpl never.

(** [remap = v; if v[0] != k: temp = self.keys.get(v[0]); if temp: remap = temp]:
    the effective entry, with the key it is stored under. *)
Definition resolve (d : PyDict.dict KeyEntry) (k : string) (v : KeyEntry) : string * KeyEntry :=
  if decide (target v ≠ k) then
    match PyDict.get d (target v) with
    | Some temp => (target v, temp)
    | None => (k, v)
    end
  else (k, v).

(** One iteration of the loop of [update], for key [k].  [remap] is the
    effective entry as read at the start of the iteration; the slots read
    later ([remap[3]], [remap[2]], [remap[4]]) are the ones that
    [remap[1] = ...] does not change.  The [None] branch is never taken:
    the loop visits registered keys and no iteration removes one
    ([update_key_step] keeps the keys). *)
Definition update_key (smp : sample) (k : string) : Upd unit :=
  w ← gets id;
  match PyDict.get (keys (kb w)) k with
  | None => mret ()
  | Some v =>
      let '(ek, remap) := resolve (keys (kb w)) k v in
      if is_pressed smp k then
        lift (alter_entry (set_pressed true) ek);;
        if toggle remap then
          if latch remap then mret ()
          else call_bind smp (heads remap);; lift (alter_entry (set_latch true) ek)
        else
          call_bind smp (heads remap);; lift (alter_entry (set_latch true) ek)
      else
        lift (alter_entry (set_pressed false) ek);;
        if latch remap then
          lift (alter_entry (set_latch false) ek);; call_bind smp (tails remap)
        else mret ()
  end.

Definition update (smp : sample) : Upd unit :=
  w ← gets id;
  if is_app_active smp (kb w) then
    for_ (update_key smp) (PyDict.keys (keys (kb w)))
  else mret ().

(** ** The specification side *)

(** The phase of an entry, read off its pressed and latch slots. *)
Definition phase_of (e : KeyEntry) : phase :=
  if latch e then HeldFired else if pressed e then HeldPending else Released.

(** An entry after a poll that sampled [p] and raised nothing: both slots
    hold the sample. *)
Definition entry_tick (p : bool) (e : KeyEntry) : KeyEntry := set_latch p (set_pressed p e).

(** The callbacks an event of the machine calls. *)
Definition event_actions (e : KeyEntry) (ev : option event) : list action :=
  match ev with
  | Some Head => heads e
  | Some Tail => tails e
  | None => []
  end.

(** The callbacks a poll that samples [p] calls on entry [e]. *)
Definition fired (e : KeyEntry) (p : bool) : list action :=
  event_actions e (next_phase (toggle e) (phase_of e) p).2.

(** The key of the effective entry of [k]. *)
Definition eff_key (d : PyDict.dict KeyEntry) (k : string) : string :=
  match PyDict.get d k with
  | Some v => (resolve d k v).1
  | None => k
  end.

(** The sequential specification of a poll: the keys in order, each
    ticking its effective entry in the dict as it is at that point. *)
Fixpoint poll_seq (smp : sample) (ks : list string) (d : PyDict.dict KeyEntry)
    : PyDict.dict KeyEntry * list action :=
  match ks with
  | [] => (d, [])
  | k :: ks' =>
      let ek := eff_key d k in
      let log := match PyDict.get d ek with
                 | Some r => fired r (is_pressed smp k)
                 | None => []
                 end in
      let '(d', log') := poll_seq smp ks' (PyDict.alter (entry_tick (is_pressed smp k)) ek d) in
      (d', log ++ log')
  end.

(** The first key of [ks] whose effective entry is [ek]. *)
Fixpoint driver (d : PyDict.dict KeyEntry) (ks : list string) (ek : string) : option string :=
  match ks with
  | [] => None
  | k :: ks' => if decide (eff_key d k = ek) then Some k else driver d ks' ek
  end.

(** The parallel specification of a poll: every entry is ticked once by
    its driver, from the state before the poll; the log is the callbacks
    of each key's event, in key order. *)
Definition poll_par (smp : sample) (d : PyDict.dict KeyEntry) : PyDict.dict KeyEntry * list action :=
  (PyDict.mapi (λ k' e, match driver d (PyDict.keys d) k' with
                        | Some k => entry_tick (is_pressed smp k) e
                        | None => e
                        end) d,
   concat ((λ k, match PyDict.get d (eff_key d k) with
                 | Some r => fired r (is_pressed smp k)
                 | None => []
                 end) <$> PyDict.keys d)).

(** Resolution is injective: no two keys drive the same entry. *)
Definition injective_resolution (d : PyDict.dict KeyEntry) : Prop :=
  NoDup (eff_key d <$> PyDict.keys d).

(** ** Lemmas *)

Lemma resolve_get d k v :
  PyDict.get d k = Some v → PyDict.get d (resolve d k v).1 = Some (resolve d k v).2.
Proof.
  unfold resolve. intros Hk. by repeat case_match.
Qed.

Lemma call_ok smp a w :
  raises smp a = false → call smp a w = (mkWorld (kb w) (calls w ++ [a]), inr ()).
Proof. unfold call. by intros ->. Qed.

Lemma call_bind_ok smp l w :
  Forall (λ a, raises smp a = false) l →
  call_bind smp l w = (mkWorld (kb w) (calls w ++ l), inr ()).
Proof.
  unfold call_bind. revert w. induction l as [|a l IH]; intros [self log] Hl; simpl.
  - by rewrite app_nil_r.
  - apply Forall_cons in Hl as [Ha Hl].
    rewrite (bind_ok _ _ _ _ _ (call_ok _ _ _ Ha)), IH by done.
    simpl. by rewrite <- app_assoc.
Qed.

Lemma call_bind_raise smp pre a post w :
  Forall (λ a, raises smp a = false) pre → raises smp a = true →
  call_bind smp (pre ++ a :: post) w =
    (mkWorld (kb w) (calls w ++ pre ++ [a]), inl (ActionRaised a)).
Proof.
  intros Hpre Ha. unfold call_bind. rewrite for_app.
  rewrite (bind_ok _ _ _ _ _ (call_bind_ok _ _ _ Hpre)). simpl.
  py_unfold. unfold call at 1. rewrite Ha. simpl. by rewrite <- app_assoc.
Qed.

(** Calling callbacks never changes the object. *)
Lemma call_bind_kb smp l w : kb (call_bind smp l w).1 = kb w.
Proof.
  apply (for_invariant (λ w', kb w' = kb w)); [|done].
  intros a w' <-. unfold call. by destruct (raises smp a).
Qed.

(** The phase after a tick is the machine's next phase. *)
Lemma phase_of_tick p e :
  phase_of (entry_tick p e) = (next_phase (toggle e) (phase_of e) p).1.
Proof. rewrite next_phase_fst. by destruct p. Qed.

Lemma update_key_run smp k w v :
  PyDict.get (keys (kb w)) k = Some v →
  let '(ek, r) := resolve (keys (kb w)) k v in
  Forall (λ a, raises smp a = false) (fired r (is_pressed smp k)) →
  update_key smp k w =
    (mkWorld (set_keys (PyDict.alter (entry_tick (is_pressed smp k)) ek (keys (kb w))) (kb w))
             (calls w ++ fired r (is_pressed smp k)), inr ()).
Proof.
  intros Hk. pose proof (resolve_get _ _ _ Hk) as Hr.
  unfold update_key. py_unfold. cbn [fst snd id]. rewrite Hk.
  destruct (resolve _ k v) as [ek r]. simpl in Hr. intros Hf.
  unfold fired, event_actions, phase_of in *.
  destruct (is_pressed smp k), (toggle r) eqn:Et, (latch r) eqn:El, (pressed r) eqn:Ep;
    simpl in *; unfold lift; kb_run; rewrite ?call_bind_ok by done; simpl;
    rewrite ?app_nil_r, ?PyDict.alter_alter; try done;
    do 3 f_equal; eapply PyDict.alter_get_ext; try done; by destruct r; simpl in *; subst.
Qed.

(** An update that keeps every target keeps every resolution. *)
Lemma eff_key_alter d f ek k :
  (∀ e, target (f e) = target e) → eff_key (PyDict.alter f ek d) k = eff_key d k.
Proof.
  intros Hf. unfold eff_key, resolve. rewrite !PyDict.get_alter.
  destruct (decide (k = ek)); subst; destruct (PyDict.get d _) as [v|] eqn:Ev; simpl;
    rewrite ?Hf; try done;
  case_decide; try done; rewrite !PyDict.get_alter;
  destruct (decide (target v = ek)); subst; destruct (PyDict.get d (target v)); done.
Qed.

Lemma update_key_step smp k w :
  k ∈ PyDict.keys (keys (kb w)) → (∀ a, raises smp a = false) →
  update_key smp k w =
    (mkWorld (set_keys (PyDict.alter (entry_tick (is_pressed smp k))
                (eff_key (keys (kb w)) k) (keys (kb w))) (kb w))
             (calls w ++ match PyDict.get (keys (kb w)) (eff_key (keys (kb w)) k) with
                         | Some r => fired r (is_pressed smp k)
                         | None => []
                         end), inr ()).
Proof.
  intros Hin Hr. apply PyDict.get_elem_of_keys in Hin as [v Hv].
  pose proof (update_key_run smp k w v Hv) as Ht. pose proof (resolve_get _ _ _ Hv) as Hg.
  unfold eff_key. rewrite Hv. destruct (resolve _ k v) as [ek r]. simpl in *.
  rewrite Hg. apply Ht. apply Forall_forall. auto.
Qed.

Lemma for_update_key smp ks w :
  (∀ a, raises smp a = false) → ks ⊆ PyDict.keys (keys (kb w)) →
  for_ (update_key smp) ks w =
    (mkWorld (set_keys (poll_seq smp ks (keys (kb w))).1 (kb w))
             (calls w ++ (poll_seq smp ks (keys (kb w))).2), inr ()).
Proof.
  intros Hr. revert w. induction ks as [|k ks IH]; intros [[t d] log] Hks; simpl in *.
  - by rewrite app_nil_r.
  - assert (k ∈ PyDict.keys d) as Hk by set_solver.
    rewrite (bind_ok _ _ _ _ _ (update_key_step smp k (mkWorld (mkKB t d) log) Hk Hr)).
    rewrite IH by (simpl; rewrite PyDict.keys_alter; set_solver). simpl.
    unfold set_keys. simpl.
    destruct (poll_seq smp ks (PyDict.alter _ _ d)). simpl. by rewrite app_assoc.
Qed.

Lemma eff_key_tick d p ek k : eff_key (PyDict.alter (entry_tick p) ek d) k = eff_key d k.
Proof. apply eff_key_alter. by intros []. Qed.

Lemma driver_None d ks k' : k' ∉ eff_key d <$> ks → driver d ks k' = None.
Proof.
  induction ks as [|k ks IH]; [done|]. rewrite fmap_cons.
  intros Hn. cbn [driver]. rewrite decide_False by set_solver. apply IH. set_solver.
Qed.

(** Under injective resolution, each key's iteration leaves the entries of
    the later keys as they were, so the sequential poll ticks every entry
    from its state before the poll. *)
Lemma poll_seq_pointwise smp d0 ks d :
  (∀ k, eff_key d k = eff_key d0 k) → NoDup (eff_key d0 <$> ks) →
  PyDict.keys (poll_seq smp ks d).1 = PyDict.keys d ∧
  (∀ k', PyDict.get (poll_seq smp ks d).1 k' =
     match driver d0 ks k' with
     | Some k => entry_tick (is_pressed smp k) <$> PyDict.get d k'
     | None => PyDict.get d k'
     end) ∧
  (poll_seq smp ks d).2 =
    concat ((λ k, match PyDict.get d (eff_key d0 k) with
                  | Some r => fired r (is_pressed smp k)
                  | None => []
                  end) <$> ks).
Proof.
  revert d. induction ks as [|k ks IH]; intros d Heff Hnd; simpl; [done|].
  rewrite fmap_cons in Hnd. apply NoDup_cons in Hnd as [Hn Hnd].
  rewrite Heff.
  set (d1 := PyDict.alter (entry_tick (is_pressed smp k)) (eff_key d0 k) d).
  destruct (IH d1) as (Hk & Hg & Hl); [intros; unfold d1; by rewrite eff_key_tick|done|].
  destruct (poll_seq smp ks d1) as [d' log'] eqn:E. simpl in *.
  split_and!.
  - rewrite Hk. apply PyDict.keys_alter.
  - intros k'. rewrite Hg. unfold d1. rewrite PyDict.get_alter.
    destruct (decide (eff_key d0 k = k')) as [<-|Hne].
    + by rewrite driver_None, !decide_True.
    + by rewrite decide_False by congruence.
  - rewrite Hl. do 2 f_equal. apply list_fmap_ext. intros i k2 Hi. unfold d1.
    rewrite PyDict.get_alter_ne; [done|]. intros Heq. apply Hn.
    apply list_elem_of_fmap. exists k2. split; [done|by eapply list_elem_of_lookup_2].
Qed.

(** Under injective resolution the sequential poll is the parallel one:
    the order of the keys in the dict does not matter, every entry is
    ticked by its own driver from its state before the poll. *)
Lemma poll_seq_par smp d :
  PyDict.wf d → injective_resolution d →
  poll_seq smp (PyDict.keys d) d = poll_par smp d.
Proof.
  intros Hwf Hinj. destruct (poll_seq_pointwise smp d (PyDict.keys d) d) as (Hk & Hg & Hl);
    [done|done|].
  destruct (poll_seq smp _ d) as [d' log] eqn:E. simpl in *. unfold poll_par.
  f_equal; [|done].
  apply PyDict.dict_eq_ext; [unfold PyDict.wf; by rewrite Hk| by rewrite PyDict.keys_mapi|].
  intros k'. rewrite Hg, PyDict.get_mapi. by destruct (driver _ _ _), (PyDict.get d k').
Qed.

(** Refinement of a poll by the sequential specification: when the
    application is focused and no callback raises, [update] changes the
    registry and the call log exactly as [poll_seq] over the keys in
    insertion order says. *)
Lemma update_seq smp w :
  is_app_active smp (kb w) = true → (∀ a, raises smp a = false) →
  update smp w =
    (mkWorld (set_keys (poll_seq smp (PyDict.keys (keys (kb w))) (keys (kb w))).1 (kb w))
             (calls w ++ (poll_seq smp (PyDict.keys (keys (kb w))) (keys (kb w))).2), inr ()).
Proof.
  intros Ha Hr. unfold update. py_unfold. simpl. rewrite Ha.
  by apply for_update_key.
Qed.

(** Refinement of a poll by the parallel specification. *)
Lemma update_par smp w :
  kb_inv (kb w) → injective_resolution (keys (kb w)) →
  is_app_active smp (kb w) = true → (∀ a, raises smp a = false) →
  update smp w =
    (mkWorld (set_keys (poll_par smp (keys (kb w))).1 (kb w))
             (calls w ++ (poll_par smp (keys (kb w))).2), inr ()).
Proof.
  intros [Hwf _] Hinj Ha Hr. rewrite update_seq by done.
  by rewrite poll_seq_par.
Qed.

Lemma update_key_head_raises smp k w v ek r pre a post :
  PyDict.get (keys (kb w)) k = Some v → resolve (keys (kb w)) k v = (ek, r) →
  is_pressed smp k = true → (toggle r = false ∨ latch r = false) →
  heads r = pre ++ a :: post →
  Forall (λ a, raises smp a = false) pre → raises smp a = true →
  update_key smp k w =
    (mkWorld (set_keys (PyDict.alter (set_pressed true) ek (keys (kb w))) (kb w))
             (calls w ++ pre ++ [a]), inl (ActionRaised a)).
Proof.
  intros Hk Er Hp Hmode Hh Hpre Ha. unfold update_key. py_unfold. simpl.
  rewrite Hk, Er, Hp. unfold lift, alter_entry. py_unfold. simpl.
  destruct (toggle r), (latch r); [destruct Hmode; congruence| | |];
    simpl; by rewrite Hh, call_bind_raise.
Qed.

Lemma update_key_tail_raises smp k w v ek r pre a post :
  PyDict.get (keys (kb w)) k = Some v → resolve (keys (kb w)) k v = (ek, r) →
  is_pressed smp k = false → latch r = true →
  tails r = pre ++ a :: post →
  Forall (λ a, raises smp a = false) pre → raises smp a = true →
  update_key smp k w =
    (mkWorld (set_keys (PyDict.alter (entry_tick false) ek (keys (kb w))) (kb w))
             (calls w ++ pre ++ [a]), inl (ActionRaised a)).
Proof.
  intros Hk Er Hp Hl Ht Hpre Ha. unfold update_key. py_unfold. simpl.
  rewrite Hk, Er, Hp, Hl. unfold lift, alter_entry. py_unfold. simpl.
  rewrite Ht, call_bind_raise by done. simpl. by rewrite PyDict.alter_alter.
Qed.

Lemma lift_alter_run f ek w :
  lift (alter_entry f ek) w =
    (mkWorld (set_keys (PyDict.alter f ek (keys (kb w))) (kb w)) (calls w), inr ()).
Proof. done. Qed.

(** Elimination of [call_bind] followed by more work: the object the
    continuation starts from is the one [call_bind] started from. *)
Lemma call_bind_then {A} smp l (g : unit → Upd A) w (P : world → Prop) :
  (∀ w2, kb w2 = kb w → P w2) → (∀ w2, kb w2 = kb w → P (g () w2).1) →
  P ((call_bind smp l ≫= g) w).1.
Proof.
  intros H1 H2. py_unfold. pose proof (call_bind_kb smp l w) as Hkb.
  destruct (call_bind smp l w) as [w2 [e|[]]]; simpl in *; auto.
Qed.

(** An iteration writes the effective entry [r] with [set_pressed], then
    perhaps [set_latch]; each state it can stop in keeps [latch_ok].  The
    state between [remap[1] = 0] and [remap[2] = 0] does not, but no
    callback runs there. *)
Lemma update_key_inv smp k w : kb_inv (kb w) → kb_inv (kb (update_key smp k w).1).
Proof.
  intros Hinv. unfold update_key. rewrite (bind_ok _ _ _ w w) by done.
  destruct (PyDict.get _ k) as [v|] eqn:Hk; [|done].
  pose proof (resolve_get _ _ _ Hk) as Hg.
  destruct (resolve _ k v) as [ek r] eqn:Er. simpl in Hg.
  pose proof (proj2 Hinv ek r Hg) as Hr. unfold latch_ok in Hr.
  assert (∀ f, latch_ok (f r) → kb_inv (set_keys (PyDict.alter f ek (keys (kb w))) (kb w)))
    as Halt.
  { intros f Hf. unfold kb_inv, set_keys. simpl.
    rewrite (PyDict.alter_get_ext _ f (λ _, f r) ek r) by done.
    apply dict_inv_alter; [by intros|done]. }
  destruct (is_pressed smp k), (toggle r), (latch r) eqn:El;
    rewrite ?(bind_ok _ _ _ _ _ (lift_alter_run _ _ _)), ?lift_alter_run; simpl;
    try (apply Halt; destruct r; unfold latch_ok; simpl in *; intros; congruence);
    first [rewrite call_bind_kb
          |apply (call_bind_then _ _ _ _ (λ w, kb_inv (kb w))); intros w2 Hw2;
           rewrite ?lift_alter_run; simpl; rewrite Hw2];
    simpl; rewrite ?PyDict.alter_alter; apply Halt; destruct r; unfold latch_ok;
    simpl in *; intros; congruence.
Qed.

Lemma update_inv smp : preserves (λ w, kb_inv (kb w)) (update smp).
Proof.
  unfold update. apply preserves_bind; [apply preserves_gets|]. intros w.
  destruct (is_app_active smp (kb w)); [|apply preserves_ret].
  apply preserves_for. intros k w'. apply update_key_inv.
Qed.

(** ** The poll's guarantees *)

(** C6. One iteration of [update] ticks the effective entry: when no
    callback it calls raises, the iteration for key [k] sets the effective
    entry's pressed and latch slots to the sample, moves its phase as
    [KeyMachine.tick] says, and calls exactly the callbacks of the event
    the machine emits; no other entry changes. *)
Theorem update_key_tick smp k w v :
  PyDict.get (keys (kb w)) k = Some v →
  let '(ek, r) := resolve (keys (kb w)) k v in
  Forall (λ a, raises smp a = false) (fired r (is_pressed smp k)) →
  tick (toggle r) (phase_of r) (is_pressed smp k)
       (phase_of (entry_tick (is_pressed smp k) r))
       (next_phase (toggle r) (phase_of r) (is_pressed smp k)).2 ∧
  update_key smp k w =
    (mkWorld (set_keys (PyDict.alter (entry_tick (is_pressed smp k)) ek (keys (kb w))) (kb w))
             (calls w ++ fired r (is_pressed smp k)), inr ()).
Proof.
  intros Hk. pose proof (update_key_run smp k w v Hk) as Hrun.
  destruct (resolve _ k v) as [ek r]. intros Hf. split; [|by apply Hrun].
  rewrite phase_of_tick. apply next_phase_tick. by destruct next_phase.
Qed.

(** C1. Refinement of a poll by the parallel specification: on a registry
    with distinct keys where no two keys resolve to the same entry, a
    focused poll in which no callback raises ticks every driven entry
    once, through its driver's sample and from its state before the poll,
    as [KeyMachine.tick] says; it leaves undriven entries and the key
    order alone, and calls the callbacks of each key's event in key
    order. *)
Theorem update_refines_par smp w :
  kb_inv (kb w) → injective_resolution (keys (kb w)) →
  is_app_active smp (kb w) = true → (∀ a, raises smp a = false) →
  let d := keys (kb w) in
  ∃ d', update smp w = (mkWorld (set_keys d' (kb w)) (calls w ++ (poll_par smp d).2), inr ()) ∧
    PyDict.keys d' = PyDict.keys d ∧
    ∀ k' e, PyDict.get d k' = Some e →
      match driver d (PyDict.keys d) k' with
      | Some k =>
          PyDict.get d' k' = Some (entry_tick (is_pressed smp k) e) ∧
          tick (toggle e) (phase_of e) (is_pressed smp k)
               (phase_of (entry_tick (is_pressed smp k) e))
               (next_phase (toggle e) (phase_of e) (is_pressed smp k)).2
      | None => PyDict.get d' k' = Some e
      end.
Proof.
  intros Hinv Hinj Ha Hr. simpl. exists (poll_par smp (keys (kb w))).1.
  split_and!; [by apply update_par|apply PyDict.keys_mapi|].
  intros k' e He. unfold poll_par. simpl. rewrite PyDict.get_mapi, He. simpl.
  destruct (driver _ _ _); [|done]. split; [done|].
  rewrite phase_of_tick. apply next_phase_tick. by destruct next_phase.
Qed.

(** Focus gating: when the focused window is not the application's,
    [update] does nothing: no state change and no callback call. *)
Theorem update_unfocused smp w :
  is_app_active smp (kb w) = false → update smp w = (w, inr ()).
Proof. intros H. unfold update. py_unfold. simpl. by rewrite H. Qed.

(** C9. A poll keeps the registry invariant (distinct keys; no entry
    latched without its pressed flag), also when a callback raises and
    the poll stops half-way. *)
Theorem update_preserves_inv smp w : kb_inv (kb w) → kb_inv (kb (update smp w).1).
Proof. apply update_inv. Qed.

(** C10. A raising head callback aborts the whole poll: the keys after [k]
    are not visited, the head callbacks after the raising one are not
    called, and the effective entry is left pressed but not latched
    ([HeldPending]), so the next poll in which [k] is held calls its head
    callbacks again, even in edge mode. *)
Theorem update_head_raises smp w ks1 k ks2 w1 v ek r pre a post :
  is_app_active smp (kb w) = true →
  PyDict.keys (keys (kb w)) = ks1 ++ k :: ks2 →
  for_ (update_key smp) ks1 w = (w1, inr ()) →
  PyDict.get (keys (kb w1)) k = Some v → resolve (keys (kb w1)) k v = (ek, r) →
  is_pressed smp k = true → (toggle r = false ∨ latch r = false) →
  heads r = pre ++ a :: post →
  Forall (λ a, raises smp a = false) pre → raises smp a = true →
  update smp w =
    (mkWorld (set_keys (PyDict.alter (set_pressed true) ek (keys (kb w1))) (kb w1))
             (calls w1 ++ pre ++ [a]), inl (ActionRaised a)) ∧
  fired (set_pressed true r) true = heads r.
Proof.
  intros Ha Hks H1 Hk Er Hp Hmode Hh Hpre Hra. split.
  - unfold update. py_unfold. simpl. rewrite Ha, Hks.
    eapply for_abort; [done|]. by eapply update_key_head_raises.
  - unfold fired, phase_of. destruct r as [? ? [] [] ? ?]; simpl in *; by destruct Hmode.
Qed.

(** C11. A raising tail callback also aborts the whole poll, but the
    code clears the latch before it calls the tails ([remap[2] = 0] comes
    first): the entry is left released, so the tails after the raising one
    are never called and no later released poll calls the tails again. *)
Theorem update_tail_raises smp w ks1 k ks2 w1 v ek r pre a post :
  is_app_active smp (kb w) = true →
  PyDict.keys (keys (kb w)) = ks1 ++ k :: ks2 →
  for_ (update_key smp) ks1 w = (w1, inr ()) →
  PyDict.get (keys (kb w1)) k = Some v → resolve (keys (kb w1)) k v = (ek, r) →
  is_pressed smp k = false → latch r = true →
  tails r = pre ++ a :: post →
  Forall (λ a, raises smp a = false) pre → raises smp a = true →
  update smp w =
    (mkWorld (set_keys (PyDict.alter (entry_tick false) ek (keys (kb w1))) (kb w1))
             (calls w1 ++ pre ++ [a]), inl (ActionRaised a)) ∧
  phase_of (entry_tick false r) = Released ∧ fired (entry_tick false r) false = [].
Proof.
  intros Ha Hks H1 Hk Er Hp Hl Ht Hpre Hra. split; [|by destruct r].
  unfold update. py_unfold. simpl. rewrite Ha, Hks.
  eapply for_abort; [done|]. by eapply update_key_tail_raises.
Qed.

End Dispatch.
