(* ===== verification/Traces.v ===== *)
(** * Traces: the driver loop on arbitrary and infinite sample streams

    [Polling] follows one key through a run of polls of a fixed shape
    (held, then released).  This file takes any trace.  The driver loop
    [while True: kb.update()] never stops: [stream_polls smps n] is its
    first [n] polls on the stream of samples [smps].  The file proves:
    - a response property (liveness): while the application is focused,
      no callback raises and no other key is pressed, a poll in which [k]
      is held is answered, at the first later poll in which [k] is
      released, by exactly the tail callbacks of [k]'s effective entry; so
      when [k] is released again and again (the fairness of a real
      keyboard), every press is answered;
    - in edge mode, over any finite trace, the log of the calls is made of
      whole pairs "heads, then tails", followed by the heads alone when
      the key is still held at the end (its entry latched).
    Both are first shown on the abstract machine ([phase_at], [event_at]
    and [edge_actions_pairs]) and carried to the code by
    [Polling.polls_run]. *)

From S2P Require Import Prelude PyDict Registry KeyMachine Dispatch Polling.

Module Traces.
Import Registry KeyMachine Dispatch Polling.

(** The first [n] polls of the driver loop, on the stream [smps]. *)
Definition stream_polls (smps : nat → sample) (n : nat) : Upd unit :=
  polls (smps <$> seq 0 n).

(** The abstract machine on a stream: the phase before poll [n], and the
    event of poll [n]. *)
Definition phase_at (tg : bool) (ph : phase) (ps : nat → bool) (n : nat) : phase :=
  (run tg ph (ps <$> seq 0 n)).1.

Definition event_at (tg : bool) (ph : phase) (ps : nat → bool) (n : nat) : option event :=
  (next_phase tg (phase_at tg ph ps n) (ps n)).2.

(** ** The machine on streams *)

Lemma run_snoc tg ph ps p :
  run tg ph (ps ++ [p]) =
    ((next_phase tg (run tg ph ps).1 p).1,
     (run tg ph ps).2 ++ [(next_phase tg (run tg ph ps).1 p).2]).
Proof.
  rewrite run_app. destruct (run tg ph ps) as [ph1 evs]. simpl.
  by destruct (next_phase tg ph1 p).
Qed.

Lemma fmap_seq_S {A} (f : nat → A) n : f <$> seq 0 (S n) = (f <$> seq 0 n) ++ [f n].
Proof. by rewrite seq_S, fmap_app. Qed.

Lemma phase_at_S tg ph ps n :
  phase_at tg ph ps (S n) = (next_phase tg (phase_at tg ph ps n) (ps n)).1.
Proof. unfold phase_at. by rewrite fmap_seq_S, run_snoc. Qed.

Lemma events_S tg ph ps n :
  (run tg ph (ps <$> seq 0 (S n))).2 = (run tg ph (ps <$> seq 0 n)).2 ++ [event_at tg ph ps n].
Proof. unfold event_at, phase_at. by rewrite fmap_seq_S, run_snoc. Qed.

(** A press latches the machine: the next poll starts in [HeldFired]. *)
Lemma phase_at_pressed tg ph ps n : ps n = true → phase_at tg ph ps (S n) = HeldFired.
Proof. intros H. by rewrite phase_at_S, next_phase_fst, H. Qed.

(** From a press at [i], the first release [j] after it emits the tail
    event. *)
Lemma tail_after_press tg ph ps i m :
  ps i = true → i < m → ps m = false →
  ∃ j, i < j ≤ m ∧ (∀ l, i ≤ l < j → ps l = true) ∧ ps j = false ∧
       event_at tg ph ps j = Some Tail.
Proof.
  intros Hi Him Hm. remember (m - i) as d eqn:Hd. revert i Hi Him Hd.
  induction d as [|d IH]; intros i Hi Him Hd; [lia|].
  destruct (ps (S i)) eqn:Hs.
  - destruct (IH (S i)) as (j & ? & Hl & ? & ?); [done| |lia|].
    { destruct (decide (S i = m)); [congruence|lia]. }
    exists j. split_and!; [lia|lia| |done|done].
    intros l ?. destruct (decide (l = i)) as [->|]; [done|apply Hl; lia].
  - exists (S i). split_and!; [lia|lia| |done|].
    + intros l ?. by replace l with i by lia.
    + unfold event_at. by rewrite phase_at_pressed, Hs.
Qed.

(** Edge mode: the actions of the events of any run are whole pairs
    "heads, then tails", and the heads alone when the run ends held; the
    heads of a run that starts held count as already emitted. *)
Lemma edge_actions_pairs (r : KeyEntry) ph ps :
  ∃ n, (if decide (ph = HeldFired) then heads r else []) ++
         concat (event_actions r <$> (run true ph ps).2) =
       concat (replicate n (heads r ++ tails r)) ++
         (if decide ((run true ph ps).1 = HeldFired) then heads r else []).
Proof.
  revert ph. induction ps as [|p ps IH]; intros ph; [exists 0; by rewrite app_nil_r|].
  cbn [run]. destruct (next_phase true ph p) as [ph' ev] eqn:Ent.
  destruct (run true ph' ps) as [ph'' evs] eqn:Er. cbn [fst snd].
  destruct (IH ph') as [n Hn]. rewrite Er in Hn. cbn [fst snd] in Hn.
  rewrite fmap_cons. cbn [concat].
  destruct p, ph; simplify_eq/=;
    first [exists n; exact Hn | exists (S n); simpl; by rewrite <- !app_assoc, Hn].
Qed.

(** ** The driver loop on streams *)

Section stream.
Context (k : string) (r : KeyEntry) (smps : nat → sample) (w : world).
Hypothesis Hsolo : solo k r (kb w).
Hypothesis Hquiet : ∀ n, quiet k (APP_TITLE (kb w)) (smps n).

Let pk : nat → bool := λ i, is_pressed (smps i) k.

Lemma stream_polls_run n :
  ∃ w', stream_polls smps n w = (w', inr ()) ∧
    calls w' = calls w ++ concat (event_actions r <$> (run (toggle r) (phase_of r) (pk <$> seq 0 n)).2).
Proof.
  destruct (polls_run k r (smps <$> seq 0 n) w) as (w' & r' & Hrun & _ & _ & Hc); [done| |].
  { apply Forall_fmap, Forall_forall. intros. apply Hquiet. }
  exists w'. rewrite <- list_fmap_compose in Hc. split; [done|exact Hc].
Qed.

(** Poll [n] of the loop appends the actions of the machine's event [n]. *)
Lemma stream_poll_step n :
  ∃ w1 w2, stream_polls smps n w = (w1, inr ()) ∧ stream_polls smps (S n) w = (w2, inr ()) ∧
    calls w2 = calls w1 ++ event_actions r (event_at (toggle r) (phase_of r) pk n).
Proof.
  destruct (stream_polls_run n) as (w1 & H1 & Hc1).
  destruct (stream_polls_run (S n)) as (w2 & H2 & Hc2).
  exists w1, w2. split_and!; [done|done|].
  rewrite Hc2, Hc1, events_S, fmap_app, concat_app, <- app_assoc. simpl. by rewrite app_nil_r.
Qed.

End stream.

(** ** The guarantees *)

(** C8. Liveness: while the application is focused, no callback raises
    and no key other than [k] is pressed, a press of [k] at poll [i] is
    answered at the first later poll [j] in which [k] is released (when
    there is one, [m]): poll [j] of the driver loop calls exactly the tail
    callbacks of [k]'s effective entry, in either mode.  On a keyboard
    that releases [k] again and again, every press is thus answered. *)
Theorem press_answered k r smps w i m :
  solo k r (kb w) → (∀ n, quiet k (APP_TITLE (kb w)) (smps n)) →
  is_pressed (smps i) k = true → i < m → is_pressed (smps m) k = false →
  ∃ j w1 w2, i < j ≤ m ∧ (∀ l, i ≤ l < j → is_pressed (smps l) k = true) ∧
    is_pressed (smps j) k = false ∧
    stream_polls smps j w = (w1, inr ()) ∧ stream_polls smps (S j) w = (w2, inr ()) ∧
    calls w2 = calls w1 ++ tails r.
Proof.
  intros Hs Hq Hi Him Hm.
  destruct (tail_after_press (toggle r) (phase_of r) (λ i, is_pressed (smps i) k) i m)
    as (j & Hj & Hl & Hrel & Hev); [done..|].
  destruct (stream_poll_step k r smps w Hs Hq j) as (w1 & w2 & H1 & H2 & Hc).
  rewrite Hev in Hc. exists j, w1, w2. split_and!; try done; lia.
Qed.

(** C33. Edge mode over any trace: from a released entry, whatever the
    samples of [k], a run of polls (focused, nothing raising, no other key
    pressed) calls whole pairs "heads, then tails" of [k]'s effective
    entry, followed by the heads alone exactly when the entry ends
    latched: no head call without its tail call once [k] is released, and
    no tail call without a head call before it. *)
Theorem edge_calls_pairs k r smps w :
  solo k r (kb w) → clean r → toggle r = true → Forall (quiet k (APP_TITLE (kb w))) smps →
  ∃ w' r' n, polls smps w = (w', inr ()) ∧
    PyDict.get (keys (kb w')) (eff_key (keys (kb w)) k) = Some r' ∧
    calls w' = calls w ++ concat (replicate n (heads r ++ tails r)) ++
                 (if latch r' then heads r else []).
Proof.
  intros Hs [Hl Hp] Ht Hq.
  destruct (polls_run k r smps w Hs Hq) as (w' & r' & Hrun & Hget & Hph & Hc).
  destruct (edge_actions_pairs r (phase_of r) ((λ smp, is_pressed smp k) <$> smps)) as [n Hn].
  assert (phase_of r = Released) as Hr0 by (unfold phase_of; by rewrite Hl, Hp).
  rewrite Ht, Hr0 in Hc, Hph. rewrite Hr0, decide_False, app_nil_l, <- Hph in Hn by done.
  exists w', r', n. split_and!; [done|done|]. rewrite Hc, Hn. do 2 f_equal.
  unfold phase_of. destruct (latch r'), (pressed r'); simpl; case_decide; congruence.
Qed.

End Traces.
