(* ===== verification/JsonFiles.v ===== *)
(** * JsonFiles: [load_keys] and [save_keys] over JSON values and files

    [Persistence] gives [load_keys] the decoded items as string pairs.  The
    code runs on what [json.load] returns, any JSON value, read from a
    file that may be missing or hold no JSON document.  This file models
    that: JSON values [json] (numbers are integers), the decoding [decode]
    of [json.load] (an object becomes a [dict]: a repeated key keeps its
    first position and its last value), Python's [==] between an entry
    list and a JSON value ([entry_eq]), a file system of documents
    ([fs]), [load_keys] with its [try]/[except] ([jload_keys]),
    [save_keys] ([jsave_keys]), and the poll [update] ([jupdate]) on a
    registry whose targets are JSON values: [self.keys.get(v[0])] raises
    [TypeError] when the target is a list or an object, which a loaded
    file can put there, and [keyboard.is_pressed(k)] raises [ValueError]
    on a name the keyboard library does not know ([key_pressed]); with
    callbacks that return, a poll raises the first of these along the
    keys ([key_error], [jupdate_first_error]).  [jembed] embeds the string model of [Registry]
    and [Dispatch]; on its image the two models agree.  [jreachable] is
    a program that loads, saves and polls while other programs write
    files; its invariant [jinv] (distinct keys, decoded targets) makes a
    save followed by a load the identity in every reachable state. *)

From S2P Require Import Prelude PyDict Registry Persistence KeyMachine Dispatch.

Module JsonFiles.
Import Registry Persistence Dispatch.

(** ** JSON values *)

Unset Elimination Schemes.
Inductive json :=
  | JNull
  | JBool (b : bool)
  | JNum (z : Z)
  | JStr (s : string)
  | JArr (l : list json)
  | JObj (kvs : list (string * json)).
Set Elimination Schemes.

(** Induction through the nested lists. *)
Definition json_ind (P : json → Prop) (fnull : P JNull) (fbool : ∀ b, P (JBool b))
    (fnum : ∀ z, P (JNum z)) (fstr : ∀ s, P (JStr s))
    (farr : ∀ l, Forall P l → P (JArr l))
    (fobj : ∀ kvs, Forall (λ kv, P kv.2) kvs → P (JObj kvs)) : ∀ j, P j :=
  fix F j :=
    match j with
    | JNull => fnull
    | JBool b => fbool b
    | JNum z => fnum z
    | JStr s => fstr s
    | JArr l => farr l ((fix G l : Forall P l :=
                          match l with
                          | [] => List.Forall_nil _
                          | x :: l' => @List.Forall_cons _ P x l' (F x) (G l')
                          end) l)
    | JObj kvs => fobj kvs ((fix G kvs : Forall (λ kv, P kv.2) kvs :=
                              match kvs with
                              | [] => List.Forall_nil _
                              | kv :: kvs' => @List.Forall_cons _ (λ kv, P kv.2) kv kvs' (F kv.2) (G kvs')
                              end) kvs)
    end.

(** Python's truth value of a decoded value ([if not remap]). *)
Definition truthy (j : json) : bool :=
  match j with
  | JNull => false
  | JBool b => b
  | JNum z => negb (Z.eqb z 0)
  | JStr s => negb (bool_decide (s = ""%string))
  | JArr [] | JObj [] => false
  | JArr _ | JObj _ => true
  end.

(** Lists and dicts cannot be hashed: [d.get(x)] raises [TypeError]. *)
Definition unhashable (j : json) : bool :=
  match j with
  | JArr _ | JObj _ => true
  | _ => false
  end.

(** [json.load] builds an object as a [dict], one [d[k] = v] per member in
    document order. *)
Definition dict_of_pairs {V} (kvs : list (string * V)) : PyDict.dict V :=
  @foldl (PyDict.dict V) _ (λ d kv, PyDict.setitem kv.1 kv.2 d) [] kvs.

Fixpoint decode (j : json) : json :=
  match j with
  | JArr l => JArr (map decode l)
  | JObj kvs => JObj (dict_of_pairs (map (λ kv, (kv.1, decode kv.2)) kvs))
  | _ => j
  end.

(** Python's [==] on decoded values: [True == 1] and [False == 0]; lists
    elementwise; dicts by length and key lookup. *)
Definition num_of (j : json) : option Z :=
  match j with
  | JBool b => Some (if b then 1 else 0)%Z
  | JNum z => Some z
  | _ => None
  end.

Fixpoint py_eq (a b : json) : bool :=
  match a, b with
  | JNull, JNull => true
  | JStr s, JStr t => bool_decide (s = t)
  | JArr l, JArr m =>
      (fix go (l m : list json) : bool :=
         match l, m with
         | [], [] => true
         | x :: l', y :: m' => py_eq x y && go l' m'
         | _, _ => false
         end) l m
  | JObj kv, JObj kw =>
      Nat.eqb (length kv) (length kw) &&
      forallb (λ p, match PyDict.get kw p.1 with
                    | Some w => py_eq p.2 w
                    | None => false
                    end) kv
  | _, _ =>
      match num_of a, num_of b with
      | Some x, Some y => Z.eqb x y
      | _, _ => false
      end
  end.

(** ** The registry with JSON targets *)

Record JEntry := mkJEntry {
  jtarget : json;         (** slot [0]: a key name, or any value a file wrote *)
  jpressed : bool;
  jlatch : bool;
  jtoggle : bool;
  jheads : list action;
  jtails : list action
}.

Definition set_jtarget (t : json) (e : JEntry) : JEntry :=
  mkJEntry t (jpressed e) (jlatch e) (jtoggle e) (jheads e) (jtails e).
Definition set_jpressed (b : bool) (e : JEntry) : JEntry :=
  mkJEntry (jtarget e) b (jlatch e) (jtoggle e) (jheads e) (jtails e).
Definition set_jlatch (b : bool) (e : JEntry) : JEntry :=
  mkJEntry (jtarget e) (jpressed e) b (jtoggle e) (jheads e) (jtails e).

Definition b2z (b : bool) : Z := if b then 1 else 0.

(** [key != v] in [load_keys] is [not entry_eq key v]: the entry is the
    list [[target, pressed, latch, toggle, [heads, tails]]], with ints in
    slots 1 and 2 and callbacks, which equal no JSON value, in slot 4. *)
Definition entry_eq (e : JEntry) (v : json) : bool :=
  match v with
  | JArr [t; p; l; tg; JArr [JArr hs; JArr ts]] =>
      py_eq (jtarget e) t && py_eq (JNum (b2z (jpressed e))) p &&
      py_eq (JNum (b2z (jlatch e))) l && py_eq (JBool (jtoggle e)) tg &&
      match jheads e, hs with [], [] => true | _, _ => false end &&
      match jtails e, ts with [], [] => true | _, _ => false end
  | _ => false
  end.

Record jkb := mkJKB { jAPP_TITLE : string; jkeys : PyDict.dict JEntry }.

(** A file holds a JSON document, or text that is not one. *)
Inductive file := Doc (j : json) | Text.

(** The program's state: the object, the file system, the call log. *)
Record jsys := mkJSys { jself : jkb; fs : gmap string file; jcalls : list action }.

Inductive jexn :=
  | JTypeError
  | JActionRaised (a : action)
  | FileNotFoundError
  | JSONDecodeError
  | AttributeError
  | ValueError.

Abbreviation J := (PyM jsys jexn).

Definition set_jkeys (d : PyDict.dict JEntry) (s : jsys) : jsys :=
  mkJSys (mkJKB (jAPP_TITLE (jself s)) d) (fs s) (jcalls s).

Definition jalter_entry (f : JEntry → JEntry) (k : string) : J unit :=
  modify (λ s, set_jkeys (PyDict.alter f k (jkeys (jself s))) s).

Definition jget_entry (k : string) : J (option JEntry) :=
  gets (λ s, PyDict.get (jkeys (jself s)) k).

(** [add_key(key, remap, toggle)] with a decoded value as [remap]. *)
Definition jadd_key (key : string) (remap : json) (toggle : bool) : J unit :=
  let remap := if truthy remap then remap else JStr key in
  modify (λ s, set_jkeys (PyDict.setitem key (mkJEntry remap false false toggle [] [])
                                         (jkeys (jself s))) s).

(** ** [load_keys] and [save_keys] *)

(** The body of the loop of [load_keys]. *)
Definition jload_item (kv : string * json) : J unit :=
  let '(k, v) := kv in
  key ← jget_entry k;
  match key with
  | None => jadd_key k v true
  | Some e => if entry_eq e v then mret () else jalter_entry (set_jtarget v) k
  end.

(** [open(FILE, 'r')]. *)
Definition open_read (FILE : string) : J file :=
  s ← gets id;
  match fs s !! FILE with
  | Some f => mret f
  | None => raise FileNotFoundError
  end.

(** [json.load(f)]. *)
Definition json_load (f : file) : J json :=
  match f with
  | Doc j => mret (decode j)
  | Text => raise JSONDecodeError
  end.

(** [data.items()]: only a dict has it. *)
Definition items (data : json) : J (list (string * json)) :=
  match data with
  | JObj kvs => mret kvs
  | _ => raise AttributeError
  end.

Definition jload_keys (FILE : string) : J bool :=
  catch (f ← open_read FILE;
         data ← json_load f;
         its ← items data;
         for_ jload_item its;;
         mret true)
        (λ _, mret false).

(** What [jload_item] does to the dict. *)
Definition jload_step (d : PyDict.dict JEntry) (kv : string * json) : PyDict.dict JEntry :=
  let '(k, v) := kv in
  match PyDict.get d k with
  | None => PyDict.setitem k (mkJEntry (if truthy v then v else JStr k) false false true [] []) d
  | Some e => if entry_eq e v then d else PyDict.alter (set_jtarget v) k d
  end.

(** [json.dump({k: v[0] for k, v in self.keys.items()}, open(FILE, 'w'))]. *)
Definition jsave_keys (FILE : string) : J unit :=
  modify (λ s, mkJSys (jself s)
                 (<[FILE := Doc (JObj ((λ kv, (kv.1, jtarget kv.2)) <$> jkeys (jself s)))]> (fs s))
                 (jcalls s)).

(** ** The poll on JSON targets *)

Definition jis_app_active (smp : sample) (s : jsys) : bool :=
  match active_window smp with
  | Some title => bool_decide (title = jAPP_TITLE (jself s))
  | None => false
  end.

Definition jcall (smp : sample) (a : action) : J unit := λ s,
  let s' := mkJSys (jself s) (fs s) (jcalls s ++ [a]) in
  if raises smp a then (s', inl (JActionRaised a)) else (s', inr ()).

Definition jcall_bind (smp : sample) (l : list action) : J unit := for_ (jcall smp) l.

(** What the keyboard library answers in one poll: [known k] is false for
    a name [keyboard.is_pressed] cannot map to a key (it raises
    [ValueError] on it); [add_key] and a loaded file can register any
    name. *)
Record jsample := mkJSample { jsmp : sample; known : string → bool }.

(** [keyboard.is_pressed(k)]. *)
Definition key_pressed (smp : jsample) (k : string) : J bool :=
  if known smp k then mret (is_pressed (jsmp smp) k) else raise ValueError.

(** [remap = v; if v[0] != k: temp = self.keys.get(v[0]); if temp: remap = temp].
    A target that is not a string differs from [k]; [get] hashes it. *)
Definition jresolve (d : PyDict.dict JEntry) (k : string) (v : JEntry) : J (string * JEntry) :=
  match jtarget v with
  | JStr t =>
      if decide (t ≠ k) then
        match PyDict.get d t with
        | Some temp => mret (t, temp)
        | None => mret (k, v)
        end
      else mret (k, v)
  | JArr _ | JObj _ => raise JTypeError
  | _ => mret (k, v)
  end.

Definition jupdate_key (smp : jsample) (k : string) : J unit :=
  s ← gets id;
  match PyDict.get (jkeys (jself s)) k with
  | None => mret ()
  | Some v =>
      jresolve (jkeys (jself s)) k v ≫= λ '(ek, remap),
      key_pressed smp k ≫= λ pressed : bool,
      if pressed then
        jalter_entry (set_jpressed true) ek;;
        if jtoggle remap then
          if jlatch remap then mret ()
          else jcall_bind (jsmp smp) (jheads remap);; jalter_entry (set_jlatch true) ek
        else
          jcall_bind (jsmp smp) (jheads remap);; jalter_entry (set_jlatch true) ek
      else
        jalter_entry (set_jpressed false) ek;;
        if jlatch remap then
          jalter_entry (set_jlatch false) ek;; jcall_bind (jsmp smp) (jtails remap)
        else mret ()
  end.

Definition jupdate (smp : jsample) : J unit :=
  s ← gets id;
  if jis_app_active (jsmp smp) s then
    for_ (jupdate_key smp) (PyDict.keys (jkeys (jself s)))
  else mret ().

(** Key [k] is registered and its target cannot be hashed. *)
Definition target_unhashable (k : string) (s : jsys) : Prop :=
  ∃ e, PyDict.get (jkeys (jself s)) k = Some e ∧ unhashable (jtarget e) = true.

(** The exception the iteration of [k] raises when no callback raises:
    [TypeError] from [self.keys.get(v[0])] when [k]'s target cannot be
    hashed, else [ValueError] from [keyboard.is_pressed(k)] when the
    keyboard library does not know the name [k]. *)
Definition key_error (smp : jsample) (s : jsys) (k : string) : option jexn :=
  match jtarget <$> PyDict.get (jkeys (jself s)) k with
  | None => None
  | Some t => if unhashable t then Some JTypeError else if known smp k then None else Some ValueError
  end.

(** [s] has the keys and the targets of [s0]. *)
Definition same_targets (s0 s : jsys) : Prop :=
  ∀ k, jtarget <$> PyDict.get (jkeys (jself s)) k = jtarget <$> PyDict.get (jkeys (jself s0)) k.

(** The invariant of the JSON model: distinct keys, and every target a
    decoded value (what [json.load] or a key name gives). *)
Definition jinv (s : jsys) : Prop :=
  PyDict.wf (jkeys (jself s)) ∧
  Forall (λ kv, decode (jtarget kv.2) = jtarget kv.2) (jkeys (jself s)).

(** ** The string model inside *)

Definition jembed_entry (e : KeyEntry) : JEntry :=
  mkJEntry (JStr (target e)) (pressed e) (latch e) (toggle e) (heads e) (tails e).

Definition jembed_kb (self : keyboard_binding) : jkb :=
  mkJKB (APP_TITLE self) (PyDict.map_values (λ _, jembed_entry) (keys self)).

Definition jexn_of (e : exn) : jexn :=
  match e with
  | TypeError => JTypeError
  | ActionRaised a => JActionRaised a
  end.

(** A world of [Dispatch] next to the file system [fs0]. *)
Definition jembed (fs0 : gmap string file) (w : world) : jsys :=
  mkJSys (jembed_kb (kb w)) fs0 (calls w).

(** An object of [Registry] with the file system [fs0] and the log [c0]. *)
Definition jembed_self (fs0 : gmap string file) (c0 : list action) (self : keyboard_binding) : jsys :=
  mkJSys (jembed_kb self) fs0 c0.

(** ** Decoding *)

Lemma map_pairs_fmap {V W} (f : V → W) (kvs : list (string * V)) :
  map (λ kv, (kv.1, f kv.2)) kvs = (λ kv, (kv.1, f kv.2)) <$> kvs.
Proof. induction kvs as [|kv kvs IH]; simpl; by f_equal. Qed.

Lemma map_values_pairs {V W} (f : V → W) (d : PyDict.dict V) :
  PyDict.map_values (λ _, f) d = (λ kv, (kv.1, f kv.2)) <$> d.
Proof. induction d as [|[k v] d IH]; simpl; by f_equal. Qed.

Lemma dict_of_pairs_wf {V} (kvs : list (string * V)) : PyDict.wf (dict_of_pairs kvs).
Proof. apply PyDict.foldl_setitem_wf. constructor. Qed.

Lemma dict_of_pairs_map {V W} (f : V → W) (kvs : list (string * V)) :
  dict_of_pairs ((λ kv, (kv.1, f kv.2)) <$> kvs) = (λ kv, (kv.1, f kv.2)) <$> dict_of_pairs kvs.
Proof.
  rewrite <- (map_values_pairs f (dict_of_pairs kvs)). unfold dict_of_pairs.
  by rewrite PyDict.foldl_setitem_map_values.
Qed.

(** A dict is rebuilt as itself. *)
Lemma dict_of_pairs_wf_id {V} (d : PyDict.dict V) : PyDict.wf d → dict_of_pairs d = d.
Proof.
  intros Hwf. unfold dict_of_pairs. rewrite PyDict.foldl_setitem_fresh; [done|].
  simpl. unfold PyDict.wf in Hwf. by rewrite <- PyDict.keys_fst.
Qed.

Lemma decode_obj kvs :
  decode (JObj kvs) = JObj (dict_of_pairs ((λ kv, (kv.1, decode kv.2)) <$> kvs)).
Proof. simpl. by rewrite map_pairs_fmap. Qed.

(** Decoding a decoded value changes nothing: a loaded value written back
    and loaded again is the same value. *)
Lemma decode_idem j : decode (decode j) = decode j.
Proof.
  induction j as [| | | |l IH|kvs IH] using json_ind; try done.
  - simpl. f_equal. rewrite map_map. apply map_ext_Forall. by eapply Forall_impl; [exact IH|].
  - rewrite !decode_obj, dict_of_pairs_map, dict_of_pairs_wf_id by apply dict_of_pairs_wf.
    f_equal. rewrite <- dict_of_pairs_map, <- list_fmap_compose. f_equal.
    clear -IH. induction IH as [|[k v] kvs Hv _ IHl]; simpl in *; [done|]. rewrite Hv. f_equal. exact IHl.
Qed.

(** ** The string model inside *)

Lemma jembed_kb_alter f f' ek self :
  (∀ e, jembed_entry (f e) = f' (jembed_entry e)) →
  jembed_kb (set_keys (PyDict.alter f ek (keys self)) self) =
    mkJKB (APP_TITLE self) (PyDict.alter f' ek (jkeys (jembed_kb self))).
Proof. intros Hf. unfold jembed_kb. simpl. f_equal. by apply PyDict.map_values_alter. Qed.

Lemma jresolve_embed d k v :
  jresolve (PyDict.map_values (λ _, jembed_entry) d) k (jembed_entry v) =
    mret ((resolve d k v).1, jembed_entry (resolve d k v).2).
Proof.
  unfold jresolve, resolve. simpl. case_decide; [|done].
  rewrite PyDict.get_map_values. by destruct (PyDict.get d (target v)).
Qed.

Lemma key_pressed_known smp k : known smp k = true → key_pressed smp k = mret (is_pressed (jsmp smp) k).
Proof. intros H. unfold key_pressed. by rewrite H. Qed.

Section embed.
Context (fs0 : gmap string file).

Lemma commutes_alter f f' ek :
  (∀ e, jembed_entry (f e) = f' (jembed_entry e)) →
  commutes (jembed fs0) jexn_of (lift (alter_entry f ek)) (jalter_entry f' ek).
Proof. intros Hf w. unfold jembed. simpl. by rewrite (jembed_kb_alter f f'). Qed.

Lemma commutes_call_bind smp l :
  commutes (jembed fs0) jexn_of (call_bind smp l) (jcall_bind smp l).
Proof.
  unfold call_bind, jcall_bind. apply commutes_for, Forall_Forall2_diag, Forall_forall.
  intros a _ w. unfold call, jcall. by destruct (raises smp a).
Qed.

Ltac commutes_build :=
  repeat first [ apply commutes_bind; [|intros ?]
               | apply commutes_ret
               | apply commutes_call_bind
               | apply commutes_alter; intros []; reflexivity ].

Lemma commutes_update_key smp k :
  known smp k = true →
  commutes (jembed fs0) jexn_of (update_key (jsmp smp) k) (jupdate_key smp k).
Proof.
  intros Hk w. unfold update_key, jupdate_key.
  rewrite (bind_ok _ _ w w w), (bind_ok _ _ (jembed fs0 w) (jembed fs0 w) (jembed fs0 w)) by done.
  cbv beta. change (jkeys (jself (jembed fs0 w))) with (PyDict.map_values (λ _, jembed_entry) (keys (kb w))).
  rewrite PyDict.get_map_values. destruct (PyDict.get (keys (kb w)) k) as [v|]; [|done].
  cbn [fmap option_fmap option_map]. rewrite jresolve_embed, bind_ret_l.
  destruct (resolve (keys (kb w)) k v) as [ek r]. cbv beta iota. cbn [fst snd].
  rewrite key_pressed_known, bind_ret_l by done.
  destruct (is_pressed (jsmp smp) k), (toggle r) eqn:Ht, (latch r) eqn:Hl; cbn [jtoggle jlatch jheads jtails jembed_entry];
    rewrite ?Ht, ?Hl; cbv iota; apply commutes_apply; commutes_build.
Qed.

Lemma commutes_update smp :
  (∀ k, known smp k = true) → commutes (jembed fs0) jexn_of (update (jsmp smp)) (jupdate smp).
Proof.
  intros Hk w. unfold update, jupdate.
  rewrite (bind_ok _ _ w w w), (bind_ok _ _ (jembed fs0 w) (jembed fs0 w) (jembed fs0 w)) by done.
  cbv beta. change (jis_app_active (jsmp smp) (jembed fs0 w)) with (is_app_active (jsmp smp) (kb w)).
  destruct (is_app_active (jsmp smp) (kb w)); cbv iota; [|done].
  change (jkeys (jself (jembed fs0 w))) with (PyDict.map_values (λ _, jembed_entry) (keys (kb w))).
  rewrite PyDict.keys_map_values. apply commutes_apply, commutes_for, Forall_Forall2_diag, Forall_forall.
  intros k _. by apply commutes_update_key.
Qed.
End embed.

Lemma open_read_ok FILE f s : fs s !! FILE = Some f → open_read FILE s = (s, inr f).
Proof. intros H. unfold open_read. by rewrite (bind_ok _ _ s s s), H by done. Qed.

Lemma open_read_missing FILE s : fs s !! FILE = None → open_read FILE s = (s, inl FileNotFoundError).
Proof. intros H. unfold open_read. by rewrite (bind_ok _ _ s s s), H by done. Qed.

(** A document of strings decodes as the dict of its members. *)
Lemma decode_strings (kvs : list (string * string)) :
  decode (JObj ((λ kv, (kv.1, JStr kv.2)) <$> kvs)) =
    JObj ((λ kv, (kv.1, JStr kv.2)) <$> dict_of_pairs kvs).
Proof.
  by rewrite decode_obj, <- list_fmap_compose, <- dict_of_pairs_map.
Qed.

Section embed_load.
Context (fs0 : gmap string file) (c0 : list action).

Lemma commutes_load_item kv :
  commutes (jembed_self fs0 c0) jexn_of (load_item kv) (jload_item (kv.1, JStr kv.2)).
Proof.
  destruct kv as [k v]. intros self. unfold load_item, jload_item, get_entry, jget_entry. cbn [fst snd].
  rewrite (bind_ok _ _ self self (PyDict.get (keys self) k)),
    (bind_ok _ _ _ _ (PyDict.get (jkeys (jembed_kb self)) k)) by done.
  change (jkeys (jembed_kb self)) with (PyDict.map_values (λ _, jembed_entry) (keys self)).
  rewrite PyDict.get_map_values.
  destruct (PyDict.get (keys self) k) as [e|]; cbn [fmap option_fmap option_map].
  - unfold jalter_entry, alter_entry, modify, jembed_self. simpl. by rewrite (jembed_kb_alter _ (set_jtarget (JStr v))).
  - unfold jadd_key, add_key, modify, jembed_self, jembed_kb, set_jkeys. simpl. do 3 f_equal.
    rewrite PyDict.map_values_setitem. unfold truthy.
    destruct (decide (v = ""%string)) as [->|Hv]; [done|]. by rewrite bool_decide_false.
Qed.

(** On a file holding an object of strings, [jload_keys] is [load_keys]
    on the members [json.load] keeps. *)
Lemma jload_keys_embed FILE members self :
  fs0 !! FILE = Some (Doc (JObj ((λ kv, (kv.1, JStr kv.2)) <$> members))) →
  jload_keys FILE (jembed_self fs0 c0 self) =
    (jembed_self fs0 c0 (load_keys (Some (dict_of_pairs members)) self).1, inr true).
Proof.
  intros Hf.
  assert (∃ s', load_keys (Some (dict_of_pairs members)) self = (s', inr true)) as [s' Hrun]
    by (eexists; apply load_keys_run).
  assert (commutes (jembed_self fs0 c0) jexn_of (load_keys (Some (dict_of_pairs members)))
            (for_ jload_item ((λ kv, (kv.1, JStr kv.2)) <$> dict_of_pairs members);; mret true)) as Hc.
  { apply commutes_bind; [|intros; apply commutes_ret].
    apply commutes_for, Forall2_fmap_r, Forall_Forall2_diag, Forall_forall.
    intros kv _. apply commutes_load_item. }
  unfold jload_keys. apply catch_ok.
  rewrite (bind_ok _ _ _ _ _ (open_read_ok FILE _ (jembed_self fs0 c0 self) Hf)).
  cbv beta. unfold json_load. cbv iota. rewrite bind_ret_l. cbv beta.
  rewrite decode_strings. unfold items. cbv iota. rewrite bind_ret_l. cbv beta.
  by rewrite (commutes_apply _ _ _ _ _ Hc), Hrun.
Qed.
End embed_load.

(** The states of a program that builds the object and then loads,
    saves and polls, while other programs may write files. *)
Inductive jreachable (title : string) : jsys → Prop :=
  | jreach_init fs0 : jreachable title (jembed_self fs0 [] (init title))
  | jreach_load FILE s : jreachable title s → jreachable title (jload_keys FILE s).1
  | jreach_save FILE s : jreachable title s → jreachable title (jsave_keys FILE s).1
  | jreach_poll smp s : jreachable title s → jreachable title (jupdate smp s).1
  | jreach_write FILE f s :
      jreachable title s → jreachable title (mkJSys (jself s) (<[FILE := f]> (fs s)) (jcalls s)).

(** ** [load_keys] on every branch *)

Lemma jload_step_merge d kv :
  jload_step d kv =
    PyDict.merge_step (λ k v, mkJEntry (if truthy v then v else JStr k) false false true [] [])
      (λ v e, if entry_eq e v then e else set_jtarget v e) d kv.
Proof.
  destruct kv as [k v]. unfold PyDict.merge_step. simpl.
  destruct (PyDict.get d k) as [e|] eqn:E; [|done].
  destruct (entry_eq e v) eqn:Eq.
  - symmetry. apply (PyDict.alter_id _ _ _ e E). by rewrite Eq.
  - apply (PyDict.alter_get_ext _ _ _ _ e E). by rewrite Eq.
Qed.

Lemma set_jkeys_same s : set_jkeys (jkeys (jself s)) s = s.
Proof. by destruct s as [[t d] f c]. Qed.

Lemma jload_item_run kv s :
  jload_item kv s = (set_jkeys (jload_step (jkeys (jself s)) kv) s, inr ()).
Proof.
  destruct kv as [k v]. unfold jload_item, jget_entry.
  rewrite (bind_ok _ _ s s (PyDict.get (jkeys (jself s)) k)) by done. simpl.
  destruct (PyDict.get (jkeys (jself s)) k) as [e|]; [|done].
  destruct (entry_eq e v); [|done]. by rewrite set_jkeys_same.
Qed.

Lemma for_jload_item kvs s :
  for_ jload_item kvs s = (set_jkeys (foldl jload_step (jkeys (jself s)) kvs) s, inr ()).
Proof.
  revert s. induction kvs as [|kv kvs IH]; intros s; simpl; [by rewrite set_jkeys_same|].
  by rewrite (bind_ok _ _ _ _ _ (jload_item_run kv s)), IH.
Qed.

Lemma decode_JObj_wf j kvs : decode j = JObj kvs → PyDict.wf kvs.
Proof. destruct j; simpl; intros; simplify_eq. apply dict_of_pairs_wf. Qed.

(** The body of the [try] once the file is open: [json.load], then
    [.items()] and the loop. *)
Lemma jload_keys_doc FILE s j :
  fs s !! FILE = Some (Doc j) →
  jload_keys FILE s =
    catch (its ← items (decode j); for_ jload_item its;; mret true) (λ _, mret false) s.
Proof.
  intros Hf. unfold jload_keys, catch.
  by rewrite (bind_ok _ _ _ _ _ (open_read_ok FILE _ s Hf)).
Qed.

(** C21. [load_keys] on every branch.  A missing file, a file that holds
    no JSON document, and a document that is not an object (no
    [.items()]) all end in the bare [except]: [False] is returned and
    nothing has changed.  Otherwise [True] is returned and the dict is
    merged with the object [json.load] built (a repeated key counts once,
    with its last value): a key of the file that is registered keeps its
    entry, whose target becomes the file's value unless the entry list
    equals that value; a new key gets a fresh entry appended in file
    order, whose target is the value when it is truthy and the key
    otherwise; the other keys are untouched. *)
Theorem jload_keys_spec FILE s :
  PyDict.wf (jkeys (jself s)) →
  match fs s !! FILE with
  | Some (Doc j) =>
      match decode j with
      | JObj kvs =>
          ∃ d', jload_keys FILE s = (set_jkeys d' s, inr true) ∧ PyDict.wf d' ∧
            PyDict.keys d' = PyDict.keys (jkeys (jself s)) ++
                               filter (λ k, k ∉ PyDict.keys (jkeys (jself s))) (PyDict.keys kvs) ∧
            ∀ k, PyDict.get d' k =
                   match PyDict.get kvs k with
                   | Some v => Some (match PyDict.get (jkeys (jself s)) k with
                                     | Some e => if entry_eq e v then e else set_jtarget v e
                                     | None => mkJEntry (if truthy v then v else JStr k)
                                                 false false true [] []
                                     end)
                   | None => PyDict.get (jkeys (jself s)) k
                   end
      | _ => jload_keys FILE s = (s, inr false)
      end
  | _ => jload_keys FILE s = (s, inr false)
  end.
Proof.
  intros Hwf. destruct (fs s !! FILE) as [[j|]|] eqn:Hf.
  - rewrite (jload_keys_doc _ _ _ Hf). destruct (decode j) as [| | | | |kvs] eqn:Hd; try done.
    pose proof (decode_JObj_wf _ _ Hd) as Hkvs.
    exists (foldl jload_step (jkeys (jself s)) kvs).
    rewrite (foldl_ext _ _ _ _ jload_step_merge). split_and!.
    + apply catch_ok. cbn [items]. rewrite bind_ret_l.
      by rewrite (bind_ok _ _ _ _ _ (for_jload_item kvs s)), (foldl_ext _ _ _ _ jload_step_merge).
    + by apply PyDict.wf_foldl_merge.
    + by apply PyDict.keys_foldl_merge.
    + intros k. by apply PyDict.get_foldl_merge.
  - unfold jload_keys, catch. by rewrite (bind_ok _ _ _ _ _ (open_read_ok FILE _ s Hf)).
  - unfold jload_keys, catch. by rewrite (bind_err _ _ _ _ _ (open_read_missing FILE s Hf)).
Qed.

(** ** Save, then load *)

Lemma jembed_kb_wf self : PyDict.wf (keys self) → PyDict.wf (jkeys (jembed_kb self)).
Proof. unfold PyDict.wf. cbn. by rewrite PyDict.keys_map_values. Qed.

(** The targets of the string model are decoded values. *)
Lemma jembed_kb_decoded self :
  Forall (λ kv, decode (jtarget kv.2) = jtarget kv.2) (jkeys (jembed_kb self)).
Proof. cbn. rewrite map_values_pairs. apply Forall_fmap, Forall_forall. by intros [k e] _. Qed.

Lemma keys_pairs {V W} (f : V → W) (d : PyDict.dict V) :
  PyDict.keys ((λ kv, (kv.1, f kv.2)) <$> d) = PyDict.keys d.
Proof. by rewrite <- map_values_pairs, PyDict.keys_map_values. Qed.

Lemma keys_fmap_fst {V W} (h : string * V → string * W) (d : PyDict.dict V) :
  (∀ kv, (h kv).1 = kv.1) → PyDict.keys (h <$> d) = PyDict.keys d.
Proof.
  intros Hh. rewrite !PyDict.keys_fst, <- list_fmap_compose.
  apply list_fmap_ext. intros; simpl; apply Hh.
Qed.

Lemma get_pairs {V W} (f : V → W) (d : PyDict.dict V) k :
  PyDict.get ((λ kv, (kv.1, f kv.2)) <$> d) k = f <$> PyDict.get d k.
Proof. by rewrite <- map_values_pairs, PyDict.get_map_values. Qed.

(** The object [save_keys] writes decodes as itself when the targets are
    decoded values. *)
Lemma decode_saved (d : PyDict.dict JEntry) :
  PyDict.wf d → Forall (λ kv, decode (jtarget kv.2) = jtarget kv.2) d →
  decode (JObj ((λ kv, (kv.1, jtarget kv.2)) <$> d)) = JObj ((λ kv, (kv.1, jtarget kv.2)) <$> d).
Proof.
  intros Hwf Hdec. rewrite decode_obj, <- list_fmap_compose.
  rewrite dict_of_pairs_wf_id.
  - f_equal. clear Hwf. induction Hdec as [|[k e] d He _ IH]; simpl in *; [done|]. rewrite He. f_equal. exact IH.
  - unfold PyDict.wf. by rewrite keys_fmap_fst.
Qed.

Lemma set_jtarget_same e : set_jtarget (jtarget e) e = e.
Proof. by destruct e. Qed.

(** Saving then loading the same file is the identity when the keys
    are distinct and the targets are decoded values. *)
Lemma jsave_load_id FILE s :
  PyDict.wf (jkeys (jself s)) → Forall (λ kv, decode (jtarget kv.2) = jtarget kv.2) (jkeys (jself s)) →
  jload_keys FILE (jsave_keys FILE s).1 = ((jsave_keys FILE s).1, inr true).
Proof.
  intros Hwf Hdec. pose proof (jload_keys_spec FILE (jsave_keys FILE s).1 Hwf) as Hspec.
  cbn [jsave_keys modify fst fs jself] in Hspec. rewrite lookup_insert_eq in Hspec. cbv beta iota in Hspec.
  rewrite decode_saved in Hspec by done.
  destruct Hspec as (d' & Hrun & Hwf' & Hkeys & Hget).
  replace d' with (jkeys (jself s)) in Hrun.
  { cbn [jsave_keys modify fst]. rewrite Hrun. by destruct s as [[t d] f c]. }
  symmetry. apply PyDict.dict_eq_ext; [done| |].
  - by rewrite Hkeys, keys_pairs, filter_not_in_keys, app_nil_r.
  - intros k. rewrite Hget, get_pairs.
    destruct (PyDict.get (jkeys (jself s)) k) as [e|]; simpl; [|done].
    by destruct (entry_eq e (jtarget e)); rewrite ?set_jtarget_same.
Qed.

(** The string model is the JSON model on string targets.  For a
    registry of [Registry] (its targets strings, embedded by [jembed]), a
    file holding a JSON object of strings is loaded as [load_keys] loads
    the members [json.load] keeps (a repeated key once, with its last
    value), and a poll in which the keyboard library knows every name,
    whatever it samples and raises, is [update]. *)
Theorem json_model_refines fs0 FILE members w smp :
  fs0 !! FILE = Some (Doc (JObj ((λ kv, (kv.1, JStr kv.2)) <$> members))) →
  (∀ k, known smp k = true) →
  jload_keys FILE (jembed fs0 w) =
    (jembed fs0 (mkWorld (load_keys (Some (dict_of_pairs members)) (kb w)).1 (calls w)), inr true) ∧
  jupdate smp (jembed fs0 w) =
    (jembed fs0 (update (jsmp smp) w).1, sum_map jexn_of id (update (jsmp smp) w).2).
Proof.
  intros Hf Hk. split; [apply (jload_keys_embed fs0 (calls w) FILE members (kb w) Hf)|].
  by apply commutes_update.
Qed.

(** ** An unhashable target breaks every poll *)

(** A poll writes only slots 1 and 2 of entries and the log: every
    property of the targets and keys it keeps. *)
Section poll_frame.
Context (Q : jsys → Prop).
Hypothesis HQalter : ∀ f x, (∀ e, jtarget (f e) = jtarget e) → preserves Q (jalter_entry f x).
Hypothesis HQcall : ∀ smp a, preserves Q (jcall smp a).

Lemma jupdate_key_frame smp x : preserves Q (jupdate_key smp x).
Proof.
  unfold jupdate_key. apply preserves_bind; [apply preserves_gets|intros s0].
  destruct (PyDict.get _ x) as [v|]; [|apply preserves_ret].
  apply preserves_bind; [unfold jresolve; repeat case_match; auto using preserves_ret, preserves_raise|].
  intros [ek r]. apply preserves_bind; [unfold key_pressed; case_match; auto using preserves_ret, preserves_raise|].
  intros pressed. unfold jcall_bind.
  destruct pressed, (jtoggle r), (jlatch r);
    repeat first [ apply preserves_bind; [|intros ?] | apply preserves_ret
                 | apply preserves_for; intros ?; apply HQcall
                 | apply HQalter; intros []; done ].
Qed.

Lemma jupdate_frame smp : preserves Q (jupdate smp).
Proof.
  unfold jupdate. apply preserves_bind; [apply preserves_gets|intros s0].
  case_match; [|apply preserves_ret]. apply preserves_for. apply jupdate_key_frame.
Qed.
End poll_frame.

(** ** The exceptions of a poll *)

Lemma jresolve_err d x v : unhashable (jtarget v) = true → jresolve d x v = raise JTypeError.
Proof. unfold jresolve, unhashable. by destruct (jtarget v). Qed.

Lemma jresolve_ok d x v : unhashable (jtarget v) = false → ∃ p, jresolve d x v = mret p.
Proof. unfold jresolve, unhashable. destruct (jtarget v); try done; repeat case_match; eauto. Qed.

(** With callbacks that return, the iteration of [x] raises exactly
    [key_error smp s x]. *)
Lemma jupdate_key_error smp x s :
  (∀ a, raises (jsmp smp) a = false) →
  (jupdate_key smp x s).2 = match key_error smp s x with Some e => inl e | None => inr () end.
Proof.
  intros Hr. unfold jupdate_key, key_error. rewrite (bind_ok _ _ s s s) by done. cbv beta.
  destruct (PyDict.get _ x) as [v|]; [|done]. cbn [fmap option_fmap option_map].
  destruct (unhashable (jtarget v)) eqn:Hu; [by rewrite jresolve_err|].
  destruct (jresolve_ok (jkeys (jself s)) x v Hu) as [[ek r] ->]. rewrite bind_ret_l.
  unfold key_pressed. destruct (known smp x); [|done]. rewrite bind_ret_l.
  apply never_raises_returns. intros e. unfold jalter_entry, jcall_bind.
  destruct (is_pressed (jsmp smp) x), (jtoggle r), (jlatch r);
    repeat first [ apply never_raises_bind; [|intros ?] | apply never_raises_ret
                 | apply never_raises_modify
                 | apply never_raises_for; intros a s'; unfold jcall; rewrite Hr; discriminate ].
Qed.

Lemma key_error_same smp s0 s x : same_targets s0 s → key_error smp s x = key_error smp s0 x.
Proof. intros H. unfold key_error. by rewrite H. Qed.

Lemma same_targets_alter s0 f y :
  (∀ e, jtarget (f e) = jtarget e) → preserves (same_targets s0) (jalter_entry f y).
Proof.
  intros Hf. apply preserves_modify. intros s Hs k. cbn. rewrite PyDict.get_alter, <- Hs.
  case_decide; [|done]. destruct (PyDict.get _ k); simpl; by rewrite ?Hf.
Qed.

Lemma same_targets_call s0 smp a : preserves (same_targets s0) (jcall smp a).
Proof. intros s Hs. unfold jcall. by destruct (raises smp a). Qed.

Lemma jupdate_key_same smp s0 x : preserves (same_targets s0) (jupdate_key smp x).
Proof. apply jupdate_key_frame; [apply same_targets_alter|apply same_targets_call]. Qed.

Lemma jupdate_same smp s0 : preserves (same_targets s0) (jupdate smp).
Proof. apply jupdate_frame; [apply same_targets_alter|apply same_targets_call]. Qed.

Lemma jupdate_first_error_run smp s :
  jis_app_active (jsmp smp) s = true → (∀ a, raises (jsmp smp) a = false) →
  (jupdate smp s).2 =
    match first_some (key_error smp s) (PyDict.keys (jkeys (jself s))) with Some e => inl e | None => inr () end.
Proof.
  intros Ha Hr. unfold jupdate. rewrite (bind_ok _ _ s s s) by done. cbv beta. rewrite Ha.
  apply (for_first_some (same_targets s)); [|done]. intros x s' Hs'.
  split; [by apply jupdate_key_same|]. by rewrite jupdate_key_error, (key_error_same _ s s') by done.
Qed.

Section unhashable.
Context (k : string).

Lemma jalter_preserves f x :
  (∀ e, jtarget (f e) = jtarget e) → preserves (target_unhashable k) (jalter_entry f x).
Proof.
  intros Hf. apply preserves_modify. intros s (e & He & Hu). exists (if decide (k = x) then f e else e).
  cbn. rewrite PyDict.get_alter, He. by case_decide; rewrite ?Hf.
Qed.

Lemma jupdate_preserves smp : preserves (target_unhashable k) (jupdate smp).
Proof.
  apply jupdate_frame; [apply jalter_preserves|].
  intros smp' a s Hs. unfold jcall. by destruct (raises smp' a).
Qed.

(** A focused poll in which no callback raises and every name is known
    to the keyboard library raises [TypeError], and the target stays
    unhashable for the next poll. *)
Lemma jupdate_unhashable smp s :
  target_unhashable k s → jis_app_active (jsmp smp) s = true → (∀ a, raises (jsmp smp) a = false) →
  (∀ x, known smp x = true) →
  (jupdate smp s).2 = inl JTypeError ∧ target_unhashable k (jupdate smp s).1.
Proof.
  intros Hs Ha Hr Hk. split; [|by apply jupdate_preserves].
  destruct Hs as (e & He & Hu). rewrite jupdate_first_error_run by done.
  rewrite (first_some_all _ _ JTypeError k); [done| | |].
  - intros x _. unfold key_error. rewrite Hk. destruct (jtarget <$> _) as [t|]; [|by left].
    destruct (unhashable t); auto.
  - apply PyDict.get_elem_of_keys. by rewrite He.
  - unfold key_error. by rewrite He; simpl; rewrite Hu.
Qed.
End unhashable.

(** C13. The exceptions of a poll.  When no callback raises, a poll of an
    application that is not focused returns; a focused poll raises the
    exception of the first registered key, in the dict's order, whose
    target cannot be hashed ([TypeError], from [self.keys.get(v[0])]) or
    whose name the keyboard library does not know ([ValueError], from
    [keyboard.is_pressed(k)]), and returns when there is none.  Either way
    the keys and their targets are left as they were. *)
Theorem jupdate_first_error smp s :
  (∀ a, raises (jsmp smp) a = false) →
  (jupdate smp s).2 =
    (if jis_app_active (jsmp smp) s then
       match first_some (key_error smp s) (PyDict.keys (jkeys (jself s))) with
       | Some e => inl e | None => inr () end
     else inr ()) ∧
  same_targets s (jupdate smp s).1.
Proof.
  intros Hr. split; [|by apply jupdate_same].
  destruct (jis_app_active (jsmp smp) s) eqn:Ha; [by apply jupdate_first_error_run|].
  unfold jupdate. rewrite (bind_ok _ _ s s s) by done. cbv beta. by rewrite Ha.
Qed.

(** C12. A file can break the poll.  When the file maps a registered key
    to a JSON list or object (that is not the entry list itself),
    [load_keys] accepts it and returns [True]; from then on a focused poll
    in which no callback raises ends in [TypeError] ([self.keys.get(v[0])]
    hashes the list), and the target is still there for the next poll. *)
Theorem load_breaks_update FILE s kvs k e v smp :
  PyDict.wf (jkeys (jself s)) → fs s !! FILE = Some (Doc (JObj kvs)) →
  PyDict.get (jkeys (jself s)) k = Some e →
  PyDict.get (dict_of_pairs ((λ kv, (kv.1, decode kv.2)) <$> kvs)) k = Some v →
  unhashable v = true → entry_eq e v = false →
  active_window (jsmp smp) = Some (jAPP_TITLE (jself s)) → (∀ a, raises (jsmp smp) a = false) →
  (∀ x, known smp x = true) →
  (jload_keys FILE s).2 = inr true ∧
  (jupdate smp (jload_keys FILE s).1).2 = inl JTypeError ∧
  target_unhashable k (jupdate smp (jload_keys FILE s).1).1.
Proof.
  intros Hwf Hf He Hv Hu Heq Hact Hr Hk. pose proof (jload_keys_spec FILE s Hwf) as Hspec.
  rewrite Hf, decode_obj in Hspec. destruct Hspec as (d' & Hrun & _ & _ & Hget).
  rewrite Hrun. split; [done|]. apply jupdate_unhashable; [|cbn; unfold jis_app_active; rewrite Hact;
    by apply bool_decide_eq_true_2|done|done].
  exists (set_jtarget v e). cbn. by rewrite Hget, Hv, He, Heq.
Qed.

(** ** The invariant in every reachable state *)

Lemma fmap_pairs_fixed {V} (f : V → V) (l : list (string * V)) :
  (λ kv, (kv.1, f kv.2)) <$> l = l → Forall (λ kv, f kv.2 = kv.2) l.
Proof.
  induction l as [|[k v] l IH]; simpl; intros H; [done|].
  injection H as Hv Hl. constructor; auto.
Qed.

(** The members of a decoded object are decoded values. *)
Lemma decode_JObj_values j kvs : decode j = JObj kvs → Forall (λ kv, decode kv.2 = kv.2) kvs.
Proof.
  intros Hd. pose proof (decode_idem j) as Hi. rewrite Hd, decode_obj in Hi. injection Hi as Hi.
  apply fmap_pairs_fixed. rewrite <- (dict_of_pairs_wf_id ((λ kv, (kv.1, decode kv.2)) <$> kvs)); [exact Hi|].
  unfold PyDict.wf. rewrite keys_fmap_fst by done. exact (decode_JObj_wf _ _ Hd).
Qed.

Lemma jload_keys_inv FILE s : jinv s → jinv (jload_keys FILE s).1.
Proof.
  intros [Hwf Hdec]. pose proof (jload_keys_spec FILE s Hwf) as Hspec. revert Hspec.
  destruct (fs s !! FILE) as [[j|]|]; [|intros ->; by split..].
  destruct (decode j) as [| | | | |kvs] eqn:Hd; try (intros ->; by split).
  intros (d' & -> & Hwf' & _ & Hget). split; [done|]. cbn.
  apply (PyDict.Forall_get (λ e, decode (jtarget e) = jtarget e)); [done|]. intros k e' He'. rewrite Hget in He'.
  pose proof (decode_JObj_values _ _ Hd) as Hkvs. rewrite Forall_forall in Hdec. rewrite Forall_forall in Hkvs.
  destruct (PyDict.get kvs k) as [v|] eqn:Hv.
  - assert (decode v = v) as Hvv by (apply (Hkvs (k, v)), PyDict.get_elem_of, Hv).
    destruct (PyDict.get (jkeys (jself s)) k) as [e|] eqn:He; injection He' as <-.
    + destruct (entry_eq e v); [apply (Hdec (k, e)), PyDict.get_elem_of, He|exact Hvv].
    + simpl. by destruct (truthy v).
  - apply (Hdec (k, e')), PyDict.get_elem_of, He'.
Qed.

Lemma jupdate_inv smp : preserves jinv (jupdate smp).
Proof.
  apply jupdate_frame.
  - intros f x Hf. apply preserves_modify. intros s [Hwf Hdec]. cbn. split.
    + by apply PyDict.wf_alter.
    + apply (PyDict.Forall_alter (λ e, decode (jtarget e) = jtarget e)); [|done]. intros e He. by rewrite Hf.
  - intros smp' a s Hs. unfold jcall. by destruct (raises smp' a).
Qed.

Lemma jreachable_inv title s : jreachable title s → jinv s.
Proof.
  induction 1 as [fs0| | | |]; [|by apply jload_keys_inv|done|by apply jupdate_inv|done].
  split; [apply jembed_kb_wf, (proj1 (init_inv title))|apply jembed_kb_decoded].
Qed.

(** C23. Round trip through a file: in every state a program reaches by
    loading, saving and polling (other programs writing files between),
    [save_keys(FILE)] then [load_keys(FILE)] returns [True] and leaves the
    program as the save left it, whatever JSON values the targets have
    become. *)
Theorem jsave_load_roundtrip title FILE s :
  jreachable title s → jload_keys FILE (jsave_keys FILE s).1 = ((jsave_keys FILE s).1, inr true).
Proof. intros [Hwf Hdec]%jreachable_inv. by apply jsave_load_id. Qed.

End JsonFiles.
