(* ===== verification/Budget.v ===== *)
(** * Budget: how many callbacks one poll can call

    One call of [update] (lines 296-321 of [src/Keyboard_binding.py])
    visits every registered key once and, for each, calls at most one of
    the two lists of its effective entry ([__call_bind(remap, 0)] or
    [__call_bind(remap, 1)]), possibly stopping half-way when a callback
    raises.  The lists and targets do not change during a poll (the loop
    writes only slots [1] and [2]), so the number of callbacks a poll calls
    is bounded by [poll_budget], the sum over the keys of the longer list
    of each key's effective entry, read before the poll.  [grows] is the
    bound for a piece of the poll, with the closure lemmas that compose
    it along the code. *)

From S2P Require Import Prelude PyDict Registry KeyMachine Dispatch.

Module Budget.
Import Registry Dispatch.

(** The longer list of [k]'s effective entry. *)
Definition key_budget (d : PyDict.dict KeyEntry) (k : string) : nat :=
  match PyDict.get d (eff_key d k) with
  | Some r => length (heads r) `max` length (tails r)
  | None => 0
  end.

Definition poll_budget (d : PyDict.dict KeyEntry) : nat :=
  foldr (λ k n, key_budget d k + n) 0 (PyDict.keys d).

(** The slots of an entry a poll never writes. *)
Definition lists_of (e : KeyEntry) : string * list action * list action :=
  (target e, heads e, tails e).

Definition same_lists (d0 d : PyDict.dict KeyEntry) : Prop :=
  ∀ k, lists_of <$> PyDict.get d k = lists_of <$> PyDict.get d0 k.

(** [m], run from a world whose dict has the lists of [d0], appends at
    most [b] calls to the log and keeps the lists. *)
Definition grows {A} (d0 : PyDict.dict KeyEntry) (m : Upd A) (b : nat) : Prop :=
  ∀ w, same_lists d0 (keys (kb w)) →
    ∃ l, calls (m w).1 = calls w ++ l ∧ length l ≤ b ∧ same_lists d0 (keys (kb (m w).1)).

(** ** Resolution depends only on targets *)

Lemma eff_key_same d0 d k : same_lists d0 d → eff_key d k = eff_key d0 k.
Proof.
  intros H. unfold eff_key, resolve. pose proof (H k) as Hk.
  destruct (PyDict.get d k) as [v|], (PyDict.get d0 k) as [v0|]; simplify_eq/=; [|done].
  assert (target v = target v0) as -> by (unfold lists_of in Hk; congruence).
  case_decide; [|done]. pose proof (H (target v0)) as Ht.
  by destruct (PyDict.get d (target v0)), (PyDict.get d0 (target v0)).
Qed.

Lemma key_budget_same d0 d k : same_lists d0 d → key_budget d k = key_budget d0 k.
Proof.
  intros H. unfold key_budget. rewrite (eff_key_same d0 d) by done.
  pose proof (H (eff_key d0 k)) as Hk.
  destruct (PyDict.get d _) as [r|], (PyDict.get d0 _) as [r0|]; simplify_eq/=; [|done].
  unfold lists_of in Hk. congruence.
Qed.

Lemma same_lists_alter d0 d f ek :
  (∀ e, lists_of (f e) = lists_of e) → same_lists d0 d → same_lists d0 (PyDict.alter f ek d).
Proof.
  intros Hf H k. rewrite PyDict.get_alter, <- H. case_decide; [|done].
  destruct (PyDict.get d k); simpl; [by rewrite Hf|done].
Qed.

(** ** Composing bounds along the code *)

Section grows.
Context (d0 : PyDict.dict KeyEntry).

Lemma grows_ret {A} (x : A) : grows d0 (mret x) 0.
Proof. intros w Hw. exists []. by rewrite app_nil_r. Qed.

Lemma grows_bind {A B} (m : Upd A) (f : A → Upd B) b1 b2 :
  grows d0 m b1 → (∀ x, grows d0 (f x) b2) → grows d0 (m ≫= f) (b1 + b2).
Proof.
  intros Hm Hf w Hw. destruct (Hm w Hw) as (l1 & Hc1 & Hl1 & Hw1). py_unfold.
  destruct (m w) as [w1 [e|x]]; simpl in *; [exists l1; split_and!; auto; lia|].
  destruct (Hf x w1 Hw1) as (l2 & Hc2 & Hl2 & Hw2). exists (l1 ++ l2).
  rewrite Hc2, Hc1, app_assoc, length_app. split_and!; auto; lia.
Qed.

Lemma grows_mono {A} (m : Upd A) b b' : b ≤ b' → grows d0 m b → grows d0 m b'.
Proof. intros Hb Hm w Hw. destruct (Hm w Hw) as (l & ? & ? & ?). exists l. split_and!; auto; lia. Qed.

Lemma grows_lift_alter f ek :
  (∀ e, lists_of (f e) = lists_of e) → grows d0 (lift (alter_entry f ek)) 0.
Proof.
  intros Hf w Hw. exists []. rewrite lift_alter_run, app_nil_r. simpl.
  split_and!; [done|lia|by apply same_lists_alter].
Qed.

Lemma grows_call_bind smp l : grows d0 (call_bind smp l) (length l).
Proof.
  unfold call_bind. induction l as [|a l IH]; [apply grows_ret|]. simpl.
  replace (S (length l)) with (1 + length l) by lia. apply grows_bind; [|intros; apply IH].
  intros w Hw. exists [a]. unfold call. destruct (raises smp a); simpl; split_and!; auto.
Qed.

Lemma grows_for {A} (body : A → Upd unit) (bf : A → nat) l :
  (∀ x, grows d0 (body x) (bf x)) → grows d0 (for_ body l) (foldr (λ x n, bf x + n) 0 l).
Proof.
  intros Hb. induction l as [|x l IH]; [apply grows_ret|]. simpl.
  apply grows_bind; [apply Hb|intros; apply IH].
Qed.
End grows.

Lemma grows_at {A} d0 (m : Upd A) b w :
  grows d0 m b → same_lists d0 (keys (kb w)) →
  ∃ l, calls (m w).1 = calls w ++ l ∧ length l ≤ b ∧ same_lists d0 (keys (kb (m w).1)).
Proof. intros H. apply H. Qed.

Ltac grows_build :=
  repeat first [ apply grows_bind; [|intros ?]
               | apply grows_ret
               | apply grows_call_bind
               | apply grows_lift_alter; intros []; done ].

(** One iteration of the loop calls at most the longer list of the key's
    effective entry. *)
Lemma update_key_grows d0 smp k : grows d0 (update_key smp k) (key_budget d0 k).
Proof.
  intros w Hw. rewrite <- (key_budget_same d0 (keys (kb w))) by done.
  unfold update_key. rewrite (bind_ok _ _ w w w) by done. cbv beta.
  unfold key_budget, eff_key.
  destruct (PyDict.get (keys (kb w)) k) as [v|] eqn:Hk;
    [|rewrite Hk; by apply (grows_at d0 (mret ())); [apply grows_ret|]].
  cbv beta iota. pose proof (resolve_get _ _ _ Hk) as Hg.
  destruct (resolve _ k v) as [ek r]. simpl in Hg.
  cbn [fst] in *. rewrite Hg. apply (grows_at d0); [|done].
  destruct (is_pressed smp k), (toggle r), (latch r);
    (eapply grows_mono; [|grows_build]); lia.
Qed.

(** C29. A poll is bounded: one call of [update] appends to the call log
    at most [poll_budget] callbacks, the sum over the registered keys of
    the longer list of each key's effective entry as it was before the
    poll; this holds also when a callback raises and the poll stops. *)
Theorem update_calls_bound smp w :
  ∃ l, calls (update smp w).1 = calls w ++ l ∧ length l ≤ poll_budget (keys (kb w)).
Proof.
  unfold update. rewrite (bind_ok _ _ w w w) by done. cbv beta.
  destruct (is_app_active smp (kb w)); [|exists []; simpl; rewrite app_nil_r; split; [done|lia]].
  destruct (grows_for (keys (kb w)) (update_key smp) (key_budget (keys (kb w)))
              (PyDict.keys (keys (kb w))) (λ k, update_key_grows _ smp k) w (λ k, eq_refl))
    as (l & Hl & Hlen & _).
  by exists l.
Qed.

End Budget.
