(* ===== verification/System.v ===== *)
(** * System: the object over its lifetime

    The client program of [src/Keyboard_binding.py] builds one object,
    then, in any order, calls the mutation API, loads key maps and lets the
    driver loop poll.  [op] is one such operation and [step_op] its effect
    on the [world] (the object and the callback log).  An operation that
    raises leaves the object as it stopped, as Python does; a client that
    catches the exception goes on from there, so [reachable] also steps
    from such states.  [save_keys] only reads the object and is not an
    operation here.  The theorems state what holds in every reachable
    state. *)

From S2P Require Import Prelude PyDict Registry Persistence KeyMachine Dispatch Polling.

Module System.
Import Registry Persistence KeyMachine Dispatch.

Inductive op :=
  | Api (c : api_call)
  | Load (data : option (list (string * string)))
  | Poll (smp : sample).

Definition step_op (o : op) : Upd unit :=
  match o with
  | Api c => lift (api c)
  | Load data => lift (load_keys data);; mret ()
  | Poll smp => update smp
  end.

(** The worlds a program that builds [keyboard_binding(title)] can reach. *)
Inductive reachable (title : string) : world → Prop :=
  | reach_init : reachable title (mkWorld (init title) [])
  | reach_step o w : reachable title w → reachable title (step_op o w).1.

(** ** The title is never written *)

Definition title_is (t : string) (w : world) : Prop := APP_TITLE (kb w) = t.

Lemma lift_title {A} t (m : Py A) :
  (∀ self, APP_TITLE (m self).1 = APP_TITLE self) → preserves (title_is t) (lift m).
Proof. intros Hm w. unfold title_is, lift. destruct (m (kb w)) eqn:E. simpl. by rewrite <- Hm, E. Qed.

Lemma alter_entry_title t f ek : preserves (title_is t) (lift (alter_entry f ek)).
Proof. by apply lift_title. Qed.

Lemma call_title t smp a : preserves (title_is t) (call smp a).
Proof. intros w. unfold call. by destruct (raises smp a). Qed.

#[local] Hint Resolve alter_entry_title call_title : kb.

Lemma api_title c self : APP_TITLE (api c self).1 = APP_TITLE self.
Proof.
  destruct self as [title d].
  destruct c; unfold api, add_key, change_toggle, remove_key, remap, bind,
    bulk_bind, clear_bind, remove_bind, swap_binds, get_binds in *; kb_run;
    by repeat (case_inner; simpl in * ).
Qed.

Lemma update_title t smp : preserves (title_is t) (update smp).
Proof.
  unfold update, update_key. preserves_split; eauto with kb.
Qed.

Lemma step_op_title t o : preserves (title_is t) (step_op o).
Proof.
  destruct o; simpl; [apply lift_title, api_title| |apply update_title].
  apply preserves_bind; [apply lift_title, load_keys_title|eauto with kb].
Qed.

Lemma lift_inv {A} (m : Py A) : preserves kb_inv m → preserves (λ w, kb_inv (kb w)) (lift m).
Proof. intros Hm w Hw. unfold lift. specialize (Hm (kb w) Hw). by destruct (m (kb w)). Qed.

Lemma step_op_inv o : preserves (λ w, kb_inv (kb w)) (step_op o).
Proof.
  destruct o as [c|data|smp]; simpl.
  - apply lift_inv, api_inv.
  - apply preserves_bind; [|eauto with kb]. apply lift_inv. intros s. apply load_keys_inv.
  - apply update_inv.
Qed.

(** ** Every reachable state *)

(** C5. Whatever the client does, in any order (calls of the mutation API,
    loads of key maps, polls, also ones that raise), the object keeps the
    registry invariant (distinct keys; no entry latched without its
    pressed flag) and the title it was built with. *)
Theorem reachable_inv title w :
  reachable title w → kb_inv (kb w) ∧ APP_TITLE (kb w) = title.
Proof.
  induction 1 as [|o w _ [Hinv Ht]]; [split; [apply init_inv|done]|].
  split; [by apply step_op_inv|by apply (step_op_title title o w)].
Qed.

End System.
