(* ===== verification/Pressed.v ===== *)
(** * Pressed: the pressed slot is write-only

    [update] writes [remap[1] = 1] and [remap[1] = 0] (lines 308 and 318
    of [src/Keyboard_binding.py]), but no line of the source reads slot
    [1]: the edge test reads the latch ([remap[2]]), the API copies or
    replaces whole lists, and [save_keys] writes only slot [0].  Here
    [erase] forgets the slot, [erase_kb] and [erase_w] forget it in every
    entry, and every operation a client can perform is [oblivious] to it
    (see [Prelude]): run from two states that differ only in pressed
    slots, it returns the same result, calls the same callbacks and ends
    in states that again differ only in pressed slots.  So the
    specification's [HeldPending] phase (pressed, not latched) cannot be
    told apart from [Released] by anything the program does. *)

From S2P Require Import Prelude PyDict Registry Persistence KeyMachine Dispatch System.

Module Pressed.
Import Registry Persistence Dispatch System.

Definition erase (e : KeyEntry) : KeyEntry := set_pressed false e.

Definition erase_kb (self : keyboard_binding) : keyboard_binding :=
  set_keys (PyDict.mapi (λ _, erase) (keys self)) self.

Definition erase_w (w : world) : world := mkWorld (erase_kb (kb w)) (calls w).

(** An update of an entry that does not read the pressed slot. *)
Definition blind (f : KeyEntry → KeyEntry) : Prop := ∀ e, erase (f (erase e)) = erase (f e).

(** ** Erasure *)

Lemma erase_idem (_ : string) e : erase (erase e) = erase e.
Proof. by destruct e. Qed.

Lemma erase_kb_idem self : erase_kb (erase_kb self) = erase_kb self.
Proof. unfold erase_kb, set_keys. simpl. by rewrite (PyDict.mapi_idem _ erase_idem). Qed.

Lemma erase_w_idem w : erase_w (erase_w w) = erase_w w.
Proof. unfold erase_w. simpl. by rewrite erase_kb_idem. Qed.

Lemma get_erase self k : PyDict.get (keys (erase_kb self)) k = erase <$> PyDict.get (keys self) k.
Proof. apply PyDict.get_mapi. Qed.

Lemma resolve_erase self k v :
  resolve (keys (erase_kb self)) k (erase v) =
    let '(ek, r) := resolve (keys self) k v in (ek, erase r).
Proof.
  unfold resolve. replace (target (erase v)) with (target v) by (by destruct v).
  rewrite get_erase. case_decide; [|done]. by destruct (PyDict.get (keys self) (target v)).
Qed.

(** ** The methods of the object *)

Lemma alter_entry_oblivious f k : blind f → oblivious erase_kb (alter_entry f k).
Proof.
  intros Hf self. unfold obs, alter_entry, modify, erase_kb, set_keys. simpl.
  by rewrite (PyDict.mapi_alter_mapi _ erase_idem).
Qed.

Lemma modify_keys_oblivious (op : PyDict.dict KeyEntry → PyDict.dict KeyEntry) :
  (∀ d, PyDict.mapi (λ _, erase) (op (PyDict.mapi (λ _, erase) d)) =
        PyDict.mapi (λ _, erase) (op d)) →
  oblivious erase_kb (modify (E := exn) (λ self, set_keys (op (keys self)) self)).
Proof. intros Hop self. unfold obs, modify, erase_kb, set_keys. simpl. by rewrite Hop. Qed.

(** The lookup [self.keys.get(k)] followed by a computation that does not
    read the pressed slot of what it found. *)
Lemma get_entry_oblivious {A} k (g : option KeyEntry → Py A) :
  (∀ v, g (erase <$> v) = g v) → (∀ v, oblivious erase_kb (g v)) →
  oblivious erase_kb (get_entry k ≫= g).
Proof.
  intros Hg Ho. apply oblivious_gets; [|done]. intros self. by rewrite get_erase, Hg.
Qed.

(** ** Inside a poll *)

Lemma lift_oblivious {A} (m : Py A) : oblivious erase_kb m → oblivious erase_w (lift m).
Proof.
  intros Hm w. specialize (Hm (kb w)). unfold obs, lift in *. cbn [erase_w kb].
  destruct (m (kb w)), (m (erase_kb (kb w))). cbn [fst snd erase_w kb calls] in *.
  unfold erase_w. cbn [kb calls]. congruence.
Qed.

Lemma call_bind_oblivious smp l : oblivious erase_w (call_bind smp l).
Proof.
  apply oblivious_for; [exact erase_w_idem|]. intros a w. unfold obs, call, erase_w. simpl.
  destruct (raises smp a); simpl; by rewrite erase_kb_idem.
Qed.

Ltac oblivious_split :=
  repeat first [ exact erase_kb_idem
               | exact erase_w_idem
               | apply get_entry_oblivious; [intros [[]|]; reflexivity|intros ?]
               | apply oblivious_bind; [|intros ?]
               | apply oblivious_ret
               | apply oblivious_raise
               | apply call_bind_oblivious
               | apply oblivious_for; [|intros ?]
               | apply lift_oblivious
               | apply alter_entry_oblivious; intros []; reflexivity
               | apply modify_keys_oblivious; intros ?;
                 first [apply (PyDict.mapi_setitem_mapi _ erase_idem)
                       |apply (PyDict.mapi_pop_mapi _ erase_idem)]
               | case_inner ].

(** ** Every operation *)

Lemma api_oblivious c : oblivious erase_kb (api c).
Proof.
  destruct c; unfold api, add_key, change_toggle, remove_key, remap, bind, bulk_bind,
    clear_bind, remove_bind, swap_binds, get_binds; oblivious_split.
Qed.

Lemma load_keys_oblivious data : oblivious erase_kb (load_keys data).
Proof. unfold load_keys, load_item, add_key. oblivious_split. Qed.

Lemma update_key_oblivious smp k : oblivious erase_w (update_key smp k).
Proof.
  unfold update_key. apply oblivious_gets.
  - intros w. unfold id. cbn [erase_w kb]. rewrite get_erase.
    destruct (PyDict.get (keys (kb w)) k) as [v|]; [|done].
    cbn [fmap option_fmap option_map]. rewrite resolve_erase.
    destruct (resolve _ k v) as [ek [? ? ? ? ? ?]]. done.
  - intros w. oblivious_split.
Qed.

Lemma update_oblivious smp : oblivious erase_w (update smp).
Proof.
  unfold update. apply oblivious_gets.
  - intros w. unfold id. cbn [erase_w kb erase_kb set_keys keys APP_TITLE].
    unfold is_app_active. simpl. by rewrite PyDict.keys_mapi.
  - intros w. destruct (is_app_active smp (kb w)); [|apply oblivious_ret, erase_w_idem].
    apply oblivious_for; [exact erase_w_idem|apply update_key_oblivious].
Qed.

Lemma step_op_oblivious o : oblivious erase_w (step_op o).
Proof.
  destruct o as [c|data|smp]; simpl.
  - apply lift_oblivious, api_oblivious.
  - apply oblivious_bind; [apply lift_oblivious, load_keys_oblivious|].
    intros. apply oblivious_ret, erase_w_idem.
  - apply update_oblivious.
Qed.

(** ** No client can observe the pressed slot *)

(** C26. The pressed slot ([remap[1]]) is write-only: any sequence of
    API calls, loads and polls, run from two states that differ only in
    the pressed slots of their entries, returns the same result, makes the
    same callback calls, and ends in states that again differ only in
    pressed slots. *)
Theorem pressed_write_only ops w1 w2 :
  erase_w w1 = erase_w w2 →
  obs erase_w (for_ step_op ops w1) = obs erase_w (for_ step_op ops w2).
Proof.
  intros H. assert (oblivious erase_w (for_ step_op ops)) as Ho
    by (apply oblivious_for; [exact erase_w_idem|apply step_op_oblivious]).
  exact (oblivious_proper erase_w _ Ho w1 w2 H).
Qed.

End Pressed.
