(* ===== verification/Aliasing.v ===== *)
(** * Aliasing: the callback lists as shared Python list objects

    In [src/Keyboard_binding.py] slot [4] of an entry holds two Python
    list objects, and the methods mutate them in place:
    [value[4][0].insert(0, f)] in [bind], [.extend] in [bulk_bind],
    [.clear()] in [clear_bind], [.pop(i)] in [remove_bind]; [swap_binds]
    stores fresh copies ([.copy()]); [add_key] and [__init__] create
    fresh empty lists; and [get_binds] returns the two list objects
    themselves.  [Registry] models an entry's lists as values.  This file
    models them as references into a store of list objects ([heap]), with
    every method of the mutation API written again over that store, and
    proves two things:
    - refinement: while no list object is shared between two slots (the
      invariant [sep], which every method keeps), the store model and the
      value model agree: [deref] of the store model's result is the value
      model's result ([hapi_refines]);
    - aliasing: the lists [get_binds] returns are the registry's own
      objects, so a caller that appends to one changes the key's bindings,
      until [swap_binds] (or [add_key]) replaces them with fresh objects,
      after which the caller's list is detached ([get_binds_live]). *)

From S2P Require Import Prelude PyDict Registry.

Module Aliasing.
Import Registry.

(** A list object's identity. *)
Definition loc := nat.

(** A registry entry whose slot [4] refers to two list objects. *)
Record HEntry := mkHEntry {
  htarget : string;
  hpressed : bool;
  hlatch : bool;
  htoggle : bool;
  hheads : loc;   (** the object [value[4][0]] *)
  htails : loc    (** the object [value[4][1]] *)
}.

Record hkb := mkHKB {
  hAPP_TITLE : string;
  hkeys : PyDict.dict HEntry;
  heap : gmap loc (list action);  (** the contents of every list object *)
  hnext : loc                     (** the next object to create *)
}.

Abbreviation HPy := (PyM hkb exn).

Definition set_hkeys (d : PyDict.dict HEntry) (s : hkb) : hkb :=
  mkHKB (hAPP_TITLE s) d (heap s) (hnext s).

Definition set_htarget (t : string) (e : HEntry) : HEntry :=
  mkHEntry t (hpressed e) (hlatch e) (htoggle e) (hheads e) (htails e).
Definition set_htoggle (b : bool) (e : HEntry) : HEntry :=
  mkHEntry (htarget e) (hpressed e) (hlatch e) b (hheads e) (htails e).
Definition set_hlists (h t : loc) (e : HEntry) : HEntry :=
  mkHEntry (htarget e) (hpressed e) (hlatch e) (htoggle e) h t.

(** ** The store *)

(** A new list object holding [l] ([[]], or [x.copy()]). *)
Definition alloc (l : list action) : HPy loc := λ s,
  (mkHKB (hAPP_TITLE s) (hkeys s) (<[hnext s := l]> (heap s)) (S (hnext s)), inr (hnext s)).

(** The contents of a list object. *)
Definition load (p : loc) : HPy (list action) := gets (λ s, heap s !!! p).

(** An in-place mutation of a list object. *)
Definition mutate (p : loc) (f : list action → list action) : HPy unit :=
  modify (λ s, mkHKB (hAPP_TITLE s) (hkeys s) (<[p := f (heap s !!! p)]> (heap s)) (hnext s)).

(** A caller's [l.append(a)] on a list object it holds. *)
Definition list_append (p : loc) (a : action) : HPy unit := mutate p (λ l, l ++ [a]).

Definition hget_entry (k : string) : HPy (option HEntry) := gets (λ s, PyDict.get (hkeys s) k).

Definition halter_entry (f : HEntry → HEntry) (k : string) : HPy unit :=
  modify (λ s, set_hkeys (PyDict.alter f k (hkeys s)) s).

(** ** The constructor: two fresh lists per default key, in order *)

Fixpoint hinit_keys (ks : list string) (n : loc) : PyDict.dict HEntry :=
  match ks with
  | [] => []
  | k :: ks' => (k, mkHEntry k false false true n (S n)) :: hinit_keys ks' (S (S n))
  end.

Definition hinit (title : string) : hkb :=
  mkHKB title (hinit_keys default_keys 0)
    (list_to_map ((λ p, (p, [])) <$> seq 0 (2 * length default_keys)))
    (2 * length default_keys).

(** ** The mutation API over the store (lines 127-269) *)

Definition hadd_key (key : string) (remap : option string) (toggle : bool) : HPy unit :=
  let remap := match remap with
               | Some r => if decide (r = ""%string) then key else r
               | None => key
               end in
  h ← alloc [];
  t ← alloc [];
  modify (λ s, set_hkeys (PyDict.setitem key (mkHEntry remap false false toggle h t) (hkeys s)) s).

Definition hchange_toggle (key : string) : HPy bool :=
  v ← hget_entry key;
  match v with
  | Some _ =>
      halter_entry (λ e, set_htoggle (if htoggle e then false else true) e) key;;
      mret true
  | None => mret false
  end.

Definition hremove_key (key : string) : HPy bool :=
  v ← hget_entry key;
  match v with
  | Some _ => modify (λ s, set_hkeys (PyDict.pop key (hkeys s)) s);; mret true
  | None => mret false
  end.

Definition hremap (key to_key : string) : HPy bool :=
  v ← hget_entry key;
  match v with
  | Some _ => halter_entry (set_htarget to_key) key;; mret true
  | None => mret false
  end.

Definition hbind (key : string) (head_func tail_func : option action) (toggle : bool) : HPy bool :=
  v ← hget_entry key;
  match v with
  | Some value =>
      halter_entry (set_htoggle toggle) key;;
      (match head_func with
       | Some h => mutate (hheads value) (λ l, h :: l)
       | None => mret ()
       end);;
      (match tail_func with
       | Some t => mutate (htails value) (λ l, t :: l)
       | None => mret ()
       end);;
      mret true
  | None => mret false
  end.

Definition hbulk_bind (key : string) (head_list tail_list : option (list action))
    (toggle : bool) : HPy bool :=
  v ← hget_entry key;
  match v with
  | Some value =>
      halter_entry (set_htoggle toggle) key;;
      (match head_list with
       | Some hl => mutate (hheads value) (λ l, l ++ hl)
       | None => mret ()
       end);;
      (match tail_list with
       | Some tl => mutate (htails value) (λ l, l ++ tl)
       | None => mret ()
       end);;
      mret true
  | None => mret false
  end.

Definition hclear_bind (key : string) : HPy bool :=
  v ← hget_entry key;
  match v with
  | Some value => mutate (hheads value) (λ _, []);; mutate (htails value) (λ _, []);; mret true
  | None => mret false
  end.

Definition hremove_bind (key : string) (head_tail : bool) (func : action) : HPy bool :=
  v ← hget_entry key;
  match v with
  | None => raise TypeError
  | Some value =>
      let p := if head_tail then hheads value else htails value in
      l ← load p;
      match find_index func l with
      | Some i => mutate p (delete i);; mret true
      | None => mret false
      end
  end.

(** [a_head = a[4][0].copy()], ..., then [a[4][0] = b_head], ...: four
    fresh objects, written back crosswise, [a] before [b]. *)
Definition hswap_binds (key_a key_b : string) : HPy bool :=
  a ← hget_entry key_a;
  b ← hget_entry key_b;
  match a, b with
  | Some a, Some b =>
      a_head ← load (hheads a) ≫= alloc;
      a_tail ← load (htails a) ≫= alloc;
      b_head ← load (hheads b) ≫= alloc;
      b_tail ← load (htails b) ≫= alloc;
      halter_entry (set_hlists b_head b_tail) key_a;;
      halter_entry (set_hlists a_head a_tail) key_b;;
      mret true
  | _, _ => mret false
  end.

(** [return value[4][0], value[4][1]]: the objects themselves. *)
Definition hget_binds (key : string) : HPy (option loc * option loc) :=
  v ← hget_entry key;
  match v with
  | Some value => mret (Some (hheads value), Some (htails value))
  | None => mret (None, None)
  end.

Definition hapi (c : api_call) : HPy unit :=
  match c with
  | AddKey k r t => hadd_key k r t
  | ChangeToggle k => hchange_toggle k;; mret ()
  | RemoveKey k => hremove_key k;; mret ()
  | Remap k t => hremap k t;; mret ()
  | Bind k h t tg => hbind k h t tg;; mret ()
  | BulkBind k hl tl tg => hbulk_bind k hl tl tg;; mret ()
  | ClearBind k => hclear_bind k;; mret ()
  | RemoveBind k ht f => hremove_bind k ht f;; mret ()
  | SwapBinds a b => hswap_binds a b;; mret ()
  | GetBinds k => hget_binds k;; mret ()
  end.

(** ** The value view and the separation invariant *)

Definition deref_entry (h : gmap loc (list action)) (e : HEntry) : KeyEntry :=
  mkEntry (htarget e) (hpressed e) (hlatch e) (htoggle e) (h !!! hheads e) (h !!! htails e).

Definition deref (s : hkb) : keyboard_binding :=
  mkKB (hAPP_TITLE s) (PyDict.map_values (λ _, deref_entry (heap s)) (hkeys s)).

(** The list objects the entries refer to, in dict order. *)
Fixpoint locs (d : PyDict.dict HEntry) : list loc :=
  match d with
  | [] => []
  | (_, e) :: d' => hheads e :: htails e :: locs d'
  end.

(** No list object is held by two slots, and every one is older than
    [hnext]. *)
Definition sep (s : hkb) : Prop :=
  NoDup (locs (hkeys s)) ∧ ∀ p, p ∈ locs (hkeys s) → p < hnext s.

(** ** Lemmas: the value view of the store *)

Lemma deref_entry_insert_ne h p x e :
  p ≠ hheads e → p ≠ htails e → deref_entry (<[p:=x]> h) e = deref_entry h e.
Proof. intros. unfold deref_entry. by rewrite !lookup_total_insert_ne. Qed.

(** Writing an object no entry refers to changes no entry's view. *)
Lemma deref_frame h p x d :
  p ∉ locs d →
  PyDict.map_values (λ _, deref_entry (<[p:=x]> h)) d = PyDict.map_values (λ _, deref_entry h) d.
Proof.
  induction d as [|[k e] d IH]; intros Hp; [done|]. rewrite !PyDict.map_values_cons.
  simpl in Hp. rewrite !not_elem_of_cons in Hp. destruct Hp as (? & ? & ?).
  rewrite deref_entry_insert_ne, IH by done. done.
Qed.

Lemma locs_get d k v : PyDict.get d k = Some v → hheads v ∈ locs d ∧ htails v ∈ locs d.
Proof.
  induction d as [|[k1 e1] d IH]; simpl; [done|].
  case_decide; [intros [= ->]; set_solver|]. intros Hk. specialize (IH Hk). set_solver.
Qed.

(** Writing one of the objects of the entry at [k], when no object is
    shared, changes exactly that entry's view, as [upd] says. *)
Lemma deref_mutate (sel : HEntry → loc) (upd : list action → KeyEntry → KeyEntry) h d k v x :
  (∀ e, sel e = hheads e ∨ sel e = htails e) →
  (∀ e h, hheads e ≠ htails e → deref_entry (<[sel e:=x]> h) e = upd x (deref_entry h e)) →
  NoDup (locs d) → PyDict.get d k = Some v →
  PyDict.map_values (λ _, deref_entry (<[sel v:=x]> h)) d =
    PyDict.alter (upd x) k (PyDict.map_values (λ _, deref_entry h) d).
Proof.
  intros Hsel Hupd. induction d as [|[k1 e1] d IH]; intros Hnd Hk; [done|].
  rewrite !PyDict.map_values_cons. simpl in *.
  apply NoDup_cons in Hnd as [Hh1 Hnd]. apply NoDup_cons in Hnd as [Ht1 Hnd].
  rewrite not_elem_of_cons in Hh1. destruct Hh1 as [Hne Hh1].
  case_decide as Heq; [subst k1|].
  - injection Hk as ->. rewrite Hupd by done. f_equal.
    apply deref_frame. destruct (Hsel v) as [->| ->]; done.
  - destruct (locs_get _ _ _ Hk) as [Hh Ht].
    assert (sel v ∈ locs d) as Hs by (by destruct (Hsel v) as [->| ->]).
    rewrite deref_entry_insert_ne by (intros E; rewrite E in Hs; contradiction).
    f_equal. by apply IH.
Qed.

Lemma deref_mutate_heads h d k v x :
  NoDup (locs d) → PyDict.get d k = Some v →
  PyDict.map_values (λ _, deref_entry (<[hheads v:=x]> h)) d =
    PyDict.alter (set_heads x) k (PyDict.map_values (λ _, deref_entry h) d).
Proof.
  apply (deref_mutate hheads); [by left|]. intros e h' Hne.
  unfold deref_entry, set_heads. simpl. f_equal; [apply lookup_total_insert_eq|by apply lookup_total_insert_ne].
Qed.

Lemma deref_mutate_tails h d k v x :
  NoDup (locs d) → PyDict.get d k = Some v →
  PyDict.map_values (λ _, deref_entry (<[htails v:=x]> h)) d =
    PyDict.alter (set_tails x) k (PyDict.map_values (λ _, deref_entry h) d).
Proof.
  apply (deref_mutate htails); [by right|]. intros e h' Hne.
  unfold deref_entry, set_tails. simpl. f_equal; [by apply lookup_total_insert_ne|apply lookup_total_insert_eq].
Qed.

(** A new object is referred to by no entry. *)
Lemma deref_alloc s l :
  sep s → deref (alloc l s).1 = deref s ∧ sep (alloc l s).1.
Proof.
  intros [Hnd Hlt]. unfold deref, alloc, sep. simpl. split.
  - rewrite deref_frame; [done|]. intros Hin. specialize (Hlt _ Hin). lia.
  - split; [done|]. intros p Hp. specialize (Hlt _ Hp). lia.
Qed.

(** ** Lemmas: separation *)

(** An update that keeps an entry's objects. *)
Definition keeps_lists (f : HEntry → HEntry) : Prop :=
  ∀ e, hheads (f e) = hheads e ∧ htails (f e) = htails e.

Lemma locs_alter_keeps f k d : keeps_lists f → locs (PyDict.alter f k d) = locs d.
Proof.
  intros Hf. induction d as [|[k1 e1] d IH]; [done|]. simpl.
  case_decide; simpl; [by destruct (Hf e1) as [-> ->]|by rewrite IH].
Qed.

Lemma elem_of_locs_cons p k e d :
  p ∈ locs ((k, e) :: d) ↔ p = hheads e ∨ p = htails e ∨ p ∈ locs d.
Proof. simpl. by rewrite !elem_of_cons. Qed.

Lemma NoDup_locs_cons k e d :
  NoDup (locs ((k, e) :: d)) ↔
    hheads e ≠ htails e ∧ hheads e ∉ locs d ∧ htails e ∉ locs d ∧ NoDup (locs d).
Proof.
  simpl. rewrite !NoDup_cons, not_elem_of_cons. tauto.
Qed.

(** The objects after replacing one entry come from before or from the
    new entry. *)
Lemma locs_setitem_incl k e d p :
  p ∈ locs (PyDict.setitem k e d) → p ∈ locs d ∨ p = hheads e ∨ p = htails e.
Proof.
  induction d as [|[k1 e1] d IH]; simpl; [rewrite !elem_of_cons, !elem_of_nil; tauto|].
  case_decide; simpl; rewrite ?elem_of_cons; [tauto|]. intuition.
Qed.

Lemma NoDup_locs_setitem k e d :
  NoDup (locs d) → hheads e ≠ htails e → hheads e ∉ locs d → htails e ∉ locs d →
  NoDup (locs (PyDict.setitem k e d)).
Proof.
  induction d as [|[k1 e1] d IH]; intros Hnd Hne Hh Ht.
  - apply NoDup_locs_cons. split_and!; [done|apply not_elem_of_nil..|constructor].
  - simpl. rewrite NoDup_locs_cons in Hnd. rewrite !elem_of_locs_cons in Hh, Ht.
    destruct Hnd as (H1 & H2 & H3 & Hnd).
    case_decide; apply NoDup_locs_cons; split_and!; try done; try tauto.
    + intros [?|[?|?]]%locs_setitem_incl; [tauto|apply Hh|apply Ht]; intuition congruence.
    + intros [?|[?|?]]%locs_setitem_incl; [tauto|apply Hh|apply Ht]; intuition congruence.
Qed.

Lemma locs_alter_hlists_incl a b k d p :
  p ∈ locs (PyDict.alter (set_hlists a b) k d) → p ∈ locs d ∨ p = a ∨ p = b.
Proof.
  induction d as [|[k1 e1] d IH]; simpl; [by intros ?%elem_of_nil|].
  case_decide; simpl; rewrite ?elem_of_cons; [tauto|]. intuition.
Qed.

Lemma NoDup_locs_alter_hlists a b k d :
  NoDup (locs d) → a ≠ b → a ∉ locs d → b ∉ locs d →
  NoDup (locs (PyDict.alter (set_hlists a b) k d)).
Proof.
  induction d as [|[k1 e1] d IH]; intros Hnd Hne Ha Hb; [constructor|].
  simpl. rewrite NoDup_locs_cons in Hnd. rewrite !elem_of_locs_cons in Ha, Hb.
  destruct Hnd as (H1 & H2 & H3 & Hnd).
  case_decide; apply NoDup_locs_cons; simpl; split_and!; try done; try tauto.
  + intros [?|[?|?]]%locs_alter_hlists_incl; [tauto|apply Ha|apply Hb]; intuition congruence.
  + intros [?|[?|?]]%locs_alter_hlists_incl; [tauto|apply Ha|apply Hb]; intuition congruence.
Qed.

Lemma locs_pop_incl k d p : p ∈ locs (PyDict.pop k d) → p ∈ locs d.
Proof.
  induction d as [|[k1 e1] d IH]; simpl; [by intros ?%elem_of_nil|].
  case_decide; simpl; rewrite ?elem_of_cons; [tauto|]. intuition.
Qed.

Lemma NoDup_locs_pop k d : NoDup (locs d) → NoDup (locs (PyDict.pop k d)).
Proof.
  induction d as [|[k1 e1] d IH]; intros Hnd; [done|]. simpl.
  rewrite NoDup_locs_cons in Hnd. destruct Hnd as (H1 & H2 & H3 & Hnd).
  case_decide; [done|]. apply NoDup_locs_cons. split_and!; [done| | |by apply IH].
  - by intros ?%locs_pop_incl.
  - by intros ?%locs_pop_incl.
Qed.

(** ** The simulation between the two models

    [refines_at key p q hm m]: from any separated state in which [key]'s
    entry holds the objects [p] and [q], the store computation [hm] and
    the value computation [m] run from its value view agree: same
    result, and the value view of [hm]'s final state is [m]'s final
    state; separation and [key]'s objects are kept. *)

Definition holds_lists (key : string) (p q : loc) (s : hkb) : Prop :=
  ∃ v, PyDict.get (hkeys s) key = Some v ∧ hheads v = p ∧ htails v = q.

Definition refines_at {A} (key : string) (p q : loc) (hm : HPy A) (m : Py A) : Prop :=
  ∀ s, sep s → holds_lists key p q s →
    m (deref s) = (deref (hm s).1, (hm s).2) ∧ sep (hm s).1 ∧ holds_lists key p q (hm s).1.

Section refines_at.
Context (key : string) (p q : loc).

Lemma refines_at_ret {A} (x : A) : refines_at key p q (mret x) (mret x).
Proof. by intros s. Qed.

Lemma refines_at_bind {A B} (hm : HPy A) (m : Py A) (hf : A → HPy B) (f : A → Py B) :
  refines_at key p q hm m → (∀ x, refines_at key p q (hf x) (f x)) →
  refines_at key p q (hm ≫= hf) (m ≫= f).
Proof.
  intros Hm Hf s Hs Hl. destruct (Hm s Hs Hl) as (Hrun & Hs1 & Hl1). py_unfold.
  rewrite Hrun. destruct (hm s) as [s1 [e|x]]; simpl in *; [done|]. by apply Hf.
Qed.

(** An update of entry fields other than the lists, in both models. *)
Lemma refines_at_halter (f : HEntry → HEntry) (f' : KeyEntry → KeyEntry) k :
  keeps_lists f → (∀ h e, deref_entry h (f e) = f' (deref_entry h e)) →
  refines_at key p q (halter_entry f k) (alter_entry f' k).
Proof.
  intros Hk Hf s [Hnd Hlt] (v & Hv & Hp & Hq). unfold halter_entry, alter_entry, modify, deref.
  simpl. split_and!.
  - unfold set_keys. simpl. f_equal. f_equal. symmetry. by apply PyDict.map_values_alter.
  - unfold sep. simpl. by rewrite locs_alter_keeps.
  - unfold holds_lists. simpl. rewrite PyDict.get_alter. case_decide; subst; [|by exists v].
    exists (f v). rewrite Hv. by destruct (Hk v) as [-> ->].
Qed.

Lemma refines_at_mutate_heads g f :
  (∀ e, f e = set_heads (g (heads e)) e) → refines_at key p q (mutate p g) (alter_entry f key).
Proof.
  intros Hf s [Hnd Hlt] (v & Hv & <- & <-). unfold mutate, alter_entry, modify, deref.
  simpl. split_and!; [|done|by exists v]. unfold set_keys. simpl. do 3 f_equal.
  rewrite (deref_mutate_heads _ _ key) by done. symmetry.
  apply (PyDict.alter_get_ext _ _ _ _ (deref_entry (heap s) v)); [|by rewrite Hf].
  by rewrite PyDict.get_map_values, Hv.
Qed.

Lemma refines_at_mutate_tails g f :
  (∀ e, f e = set_tails (g (tails e)) e) → refines_at key p q (mutate q g) (alter_entry f key).
Proof.
  intros Hf s [Hnd Hlt] (v & Hv & <- & <-). unfold mutate, alter_entry, modify, deref.
  simpl. split_and!; [|done|by exists v]. unfold set_keys. simpl. do 3 f_equal.
  rewrite (deref_mutate_tails _ _ key) by done. symmetry.
  apply (PyDict.alter_get_ext _ _ _ _ (deref_entry (heap s) v)); [|by rewrite Hf].
  by rewrite PyDict.get_map_values, Hv.
Qed.
End refines_at.

(** The lookup that starts every method: in the value view it finds the
    value view of the entry. *)
Lemma get_deref s k : PyDict.get (keys (deref s)) k = deref_entry (heap s) <$> PyDict.get (hkeys s) k.
Proof. unfold deref. simpl. by rewrite PyDict.get_map_values. Qed.

(** Two value computations that run the same. *)
Lemma refines_at_ext {A} key p q (hm : HPy A) (m m' : Py A) :
  (∀ self, m' self = m self) → refines_at key p q hm m → refines_at key p q hm m'.
Proof. intros Hm H s Hs Hl. rewrite Hm. by apply H. Qed.

Lemma alter_entry_seq f g k self :
  (alter_entry f k;; alter_entry g k) self = alter_entry (g ∘ f) k self.
Proof. unfold alter_entry. py_unfold. simpl. by rewrite PyDict.alter_alter. Qed.

Ltac refines_split :=
  repeat first [ apply refines_at_bind; [|intros ?]
               | apply refines_at_ret
               | apply refines_at_halter; [intros []; done|intros ? []; done]
               | apply refines_at_mutate_heads; intros []; done
               | apply refines_at_mutate_tails; intros []; done
               | case_inner ].

(** Refinement from every separated state. *)
Definition refines {A} (hm : HPy A) (m : Py A) : Prop :=
  ∀ s, sep s → m (deref s) = (deref (hm s).1, (hm s).2) ∧ sep (hm s).1.

(** A method that starts with [self.keys.get(key)]: the two models find
    the entry and its value view. *)
Lemma refines_get {A} key (hf : option HEntry → HPy A) (f : option KeyEntry → Py A) :
  (∀ s, sep s → PyDict.get (hkeys s) key = None →
     f None (deref s) = (deref (hf None s).1, (hf None s).2) ∧ sep (hf None s).1) →
  (∀ s v, sep s → PyDict.get (hkeys s) key = Some v →
     f (Some (deref_entry (heap s) v)) (deref s) =
       (deref (hf (Some v) s).1, (hf (Some v) s).2) ∧ sep (hf (Some v) s).1) →
  refines (hget_entry key ≫= hf) (get_entry key ≫= f).
Proof.
  intros HN HS s Hs. unfold hget_entry, get_entry. py_unfold. cbv beta iota.
  rewrite get_deref. destruct (PyDict.get (hkeys s) key) eqn:E; simpl; auto.
Qed.

(** The found entry's objects, for the rest of the method. *)
Lemma refines_at_here {A} key v s (hm : HPy A) (m : Py A) :
  PyDict.get (hkeys s) key = Some v → sep s → refines_at key (hheads v) (htails v) hm m →
  m (deref s) = (deref (hm s).1, (hm s).2) ∧ sep (hm s).1.
Proof. intros Hv Hs H. destruct (H s Hs) as (? & ? & _); [by exists v|done]. Qed.

Lemma load_bind {A} p (k : list action → HPy A) s : (load p ≫= k) s = k (heap s !!! p) s.
Proof. done. Qed.

(** ** Each method refines its value model *)

Ltac refines_method :=
  apply refines_get; [by intros|]; intros s v Hs Hv; cbv beta iota;
  apply (refines_at_here _ _ _ _ _ Hv Hs); refines_split.

Lemma hchange_toggle_refines key : refines (hchange_toggle key) (change_toggle key).
Proof. refines_method. Qed.

Lemma hremap_refines key to_key : refines (hremap key to_key) (remap key to_key).
Proof. refines_method. Qed.

Lemma hbind_refines key h t tg : refines (hbind key h t tg) (bind key h t tg).
Proof. refines_method. Qed.

Lemma hbulk_bind_refines key hl tl tg : refines (hbulk_bind key hl tl tg) (bulk_bind key hl tl tg).
Proof. refines_method. Qed.

(** [clear_bind] clears the two lists one after the other. *)
Lemma hclear_bind_refines key : refines (hclear_bind key) (clear_bind key).
Proof.
  apply refines_get; [by intros|]. intros s v Hs Hv. cbv beta iota.
  apply (refines_at_here _ _ _ _ _ Hv Hs).
  apply (refines_at_ext _ _ _ _
           (alter_entry (λ e, set_heads [] e) key;; alter_entry (λ e, set_tails [] e) key;; mret true)).
  { intros self. unfold alter_entry. py_unfold. simpl. by rewrite PyDict.alter_alter. }
  refines_split.
Qed.

Lemma hremove_bind_refines key ht func : refines (hremove_bind key ht func) (remove_bind key ht func).
Proof.
  apply refines_get; [by intros|]. intros s v Hs Hv. cbv beta iota.
  rewrite load_bind. cbn [heads tails deref_entry].
  destruct ht, (find_index func _); try done; apply (refines_at_here _ _ _ _ _ Hv Hs); refines_split.
Qed.

(** Objects at or above [hnext] belong to no entry. *)
Lemma fresh_not_in s n : sep s → hnext s ≤ n → n ∉ locs (hkeys s).
Proof. intros [_ Hlt] Hn Hin. specialize (Hlt _ Hin). lia. Qed.

Lemma hadd_key_refines key r tg : refines (hadd_key key r tg) (add_key key r tg).
Proof.
  intros s Hs. pose proof (fresh_not_in s (hnext s)) as F0.
  pose proof (fresh_not_in s (S (hnext s))) as F1.
  destruct Hs as [Hnd Hlt]. unfold hadd_key, add_key, alloc. py_unfold. simpl.
  split.
  - unfold deref, set_keys. simpl. do 3 f_equal.
    rewrite PyDict.map_values_setitem, !deref_frame by (apply F0 || apply F1; split || lia; done).
    f_equal. unfold deref_entry, fresh_entry. simpl.
    rewrite lookup_total_insert_ne, !lookup_total_insert_eq by lia. done.
  - unfold sep. simpl. split.
    + apply NoDup_locs_setitem; simpl; [done|lia| |].
      * apply F0; [by split|lia].
      * apply F1; [by split|lia].
    + intros p [Hp|[->| ->]]%locs_setitem_incl; simpl; [specialize (Hlt _ Hp)|..]; lia.
Qed.

Lemma hremove_key_refines key : refines (hremove_key key) (remove_key key).
Proof.
  apply refines_get; [by intros|]. intros s v [Hnd Hlt] Hv. cbv beta iota.
  unfold modify. py_unfold. simpl. split.
  - unfold deref, set_keys. simpl. by rewrite PyDict.map_values_pop.
  - split; [by apply NoDup_locs_pop|]. intros p Hp%locs_pop_incl. auto.
Qed.

Lemma deref_entry_set_hlists h x y e :
  deref_entry h (set_hlists x y e) = set_tails (h !!! y) (set_heads (h !!! x) (deref_entry h e)).
Proof. done. Qed.

Lemma lookup_total_insert_dec (h : gmap loc (list action)) p p' x :
  <[p:=x]> h !!! p' = if decide (p = p') then x else h !!! p'.
Proof. case_decide; subst; [apply lookup_total_insert_eq|by apply lookup_total_insert_ne]. Qed.

(** [swap_binds] copies the four lists into four new objects, so the
    value views of the two entries get each other's lists. *)
Lemma hswap_binds_refines ka kb : refines (hswap_binds ka kb) (swap_binds ka kb).
Proof.
  apply refines_get; [intros s Hs Hv; unfold swap_binds; cbv beta iota; done|].
  intros s va Hs Ha. cbv beta iota.
  unfold hget_entry, get_entry. py_unfold. cbv beta iota. rewrite get_deref.
  destruct (PyDict.get (hkeys s) kb) as [vb|] eqn:Hb; cbv beta iota; [|done].
  destruct Hs as [Hnd Hlt].
  destruct (locs_get _ _ _ Ha) as [Ha1%Hlt Ha2%Hlt], (locs_get _ _ _ Hb) as [Hb1%Hlt Hb2%Hlt].
  unfold halter_entry, alloc, load, modify, alter_entry. py_unfold. simpl.
  rewrite !lookup_total_insert_dec. repeat case_decide; try lia.
  split.
  - unfold deref, set_keys. simpl. do 3 f_equal.
    rewrite !(PyDict.map_values_alter _ _ (λ e, set_tails _ (set_heads _ e)))
      by (intros; apply deref_entry_set_hlists).
    rewrite !deref_frame by (intros Hin%Hlt; lia).
    rewrite !lookup_total_insert_dec. repeat case_decide; try lia. done.
  - unfold sep. simpl. split.
    + apply NoDup_locs_alter_hlists;
        [apply NoDup_locs_alter_hlists; [done|lia|intros Hin%Hlt; lia..]|lia|..];
        intros [Hin%Hlt|[?|?]]%locs_alter_hlists_incl; lia.
    + intros p [Hp|[->| ->]]%locs_alter_hlists_incl; [|lia..].
      destruct (locs_alter_hlists_incl _ _ _ _ _ Hp) as [Hp'%Hlt|[->| ->]]; lia.
Qed.

Lemma hget_binds_run key s :
  hget_binds key s =
    (s, inr (match PyDict.get (hkeys s) key with
             | Some v => (Some (hheads v), Some (htails v))
             | None => (None, None)
             end)).
Proof. unfold hget_binds, hget_entry. py_unfold. simpl. by destruct (PyDict.get _ key). Qed.

Lemma refines_bind_ret {A B} (hm : HPy A) (m : Py A) (x : B) :
  refines hm m → refines (hm;; mret x) (m;; mret x).
Proof.
  intros H s Hs. destruct (H s Hs) as [Hr Hs']. py_unfold. rewrite Hr.
  by destruct (hm s) as [s' [e|y]].
Qed.

Lemma hapi_refines_one c : refines (hapi c) (api c).
Proof.
  destruct c; simpl; try apply refines_bind_ret;
    auto using hadd_key_refines, hchange_toggle_refines, hremove_key_refines, hremap_refines,
      hbind_refines, hbulk_bind_refines, hclear_bind_refines, hremove_bind_refines,
      hswap_binds_refines.
  intros s Hs. py_unfold. rewrite hget_binds_run. unfold get_binds, get_entry. py_unfold.
  cbv beta iota.
  rewrite get_deref. by destruct (PyDict.get (hkeys s) key).
Qed.

Lemma refines_for {A} (hbody : A → HPy unit) (body : A → Py unit) l :
  (∀ x, refines (hbody x) (body x)) → refines (for_ hbody l) (for_ body l).
Proof.
  intros Hb. induction l as [|x l IH]; [by intros s|]. intros s Hs. simpl. py_unfold.
  destruct (Hb x s Hs) as [Hr Hs']. rewrite Hr.
  destruct (hbody x s) as [s' [e|[]]]; simpl in *; [done|]. by apply IH.
Qed.

(** ** The constructor *)

Lemma locs_hinit_keys ks n : locs (hinit_keys ks n) = seq n (2 * length ks).
Proof.
  revert n. induction ks as [|k ks IH]; intros n; [done|]. simpl. rewrite IH.
  by replace (length ks + S (length ks + 0)) with (S (2 * length ks)) by lia.
Qed.

Lemma hinit_sep title : sep (hinit title).
Proof.
  unfold sep, hinit. cbn [hkeys hnext]. rewrite locs_hinit_keys. split; [apply NoDup_seq|].
  intros p Hp%elem_of_seq. lia.
Qed.

Lemma deref_hinit title : deref (hinit title) = init title.
Proof. vm_compute. reflexivity. Qed.

(** After [swap_binds key _], the objects [key] held before belong to no
    entry. *)
Lemma locs_alter_hlists_out a b k d v p :
  NoDup (locs d) → PyDict.get d k = Some v → p ∈ locs (PyDict.alter (set_hlists a b) k d) →
  p = a ∨ p = b ∨ (p ≠ hheads v ∧ p ≠ htails v).
Proof.
  induction d as [|[k1 e1] d IH]; [done|].
  rewrite NoDup_locs_cons. intros (H1 & H2 & H3 & Hnd). simpl. case_decide; subst.
  - intros [= ->]. simpl. rewrite !elem_of_cons. intros [?|[?|Hp]]; [tauto|tauto|].
    right; right. split; intros Heq; subst; contradiction.
  - intros Hk. destruct (locs_get _ _ _ Hk) as [Hh Ht]. simpl. rewrite !elem_of_cons.
    intros [->|[->|Hp]]; [..|by apply IH]; right; right;
      split; intros Heq; first [rewrite Heq in H2; contradiction|rewrite Heq in H3; contradiction].
Qed.

(** ** The two models agree, and [get_binds] hands out live objects *)

(** C27. The value model of the mutation API is exact: from the object
    [keyboard_binding(title)] builds, any sequence of API calls gives,
    in the value model, the result and the object the store model gives
    when its list objects are read off ([deref]); and the store model
    never lets two slots share a list object. *)
Theorem store_refines_values title cs :
  for_ api cs (init title) =
    (deref (for_ hapi cs (hinit title)).1, (for_ hapi cs (hinit title)).2) ∧
  sep (for_ hapi cs (hinit title)).1.
Proof.
  rewrite <- (deref_hinit title). apply refines_for; [apply hapi_refines_one|apply hinit_sep].
Qed.

(** C28. [get_binds] returns the registry's own list objects, not copies:
    a caller that appends [a] to the head list it got changes the key's
    head callbacks (what [update] will call); after [swap_binds(key, _)]
    the key holds fresh copies, and the same append no longer changes any
    binding. *)
Theorem get_binds_live s key v key2 a :
  sep s → PyDict.get (hkeys s) key = Some v →
  hget_binds key s = (s, inr (Some (hheads v), Some (htails v))) ∧
  deref (list_append (hheads v) a s).1 =
    set_keys (PyDict.alter (λ e, set_heads (heads e ++ [a]) e) key (keys (deref s))) (deref s) ∧
  ∀ s', hswap_binds key key2 s = (s', inr true) →
    deref (list_append (hheads v) a s').1 = deref s'.
Proof.
  intros Hs Hv. split_and!.
  - by rewrite hget_binds_run, Hv.
  - destruct (refines_at_mutate_heads key (hheads v) (htails v) (λ l, l ++ [a])
                (λ e, set_heads (heads e ++ [a]) e) ltac:(done) s Hs) as [Hr _]; [by exists v|].
    apply (f_equal fst) in Hr. cbn [fst] in Hr. unfold list_append. by rewrite <- Hr.
  - intros s' Hsw. pose proof Hs as [Hnd Hlt]. destruct (locs_get _ _ _ Hv) as [Hh%Hlt _].
    unfold hswap_binds, hget_entry, halter_entry, alloc, load, modify in Hsw. py_unfold.
    simpl in Hsw. rewrite Hv in Hsw. destruct (PyDict.get (hkeys s) key2); simplify_eq/=.
    unfold list_append, mutate, modify, deref. simpl. f_equal. apply deref_frame.
    intros [Hin|[?|?]]%locs_alter_hlists_incl; [|lia..].
    destruct (locs_alter_hlists_out _ _ _ _ _ _ Hnd Hv Hin) as [?|[?|[? _]]]; [lia|lia|done].
Qed.

End Aliasing.
