(* ===== verification/Reentrant.v ===== *)
(** * Reentrant: callbacks that call back into the object during a poll

    A callback bound to a key is any Python callable, and nothing in
    [src/Keyboard_binding.py] stops it from calling the object's own
    methods while [update] (lines 296-321) runs: [remove_bind] on the list
    being called, [add_key] or [remove_key] on the dict being iterated, or
    [update] itself.  What happens then depends on which Python objects
    the running code holds:
    - the loop [for k, v in self.keys.items()] holds an iterator of the
      dict; each of its steps first checks that the dict has the size it
      had when the loop began and raises [RuntimeError] ("dictionary
      changed size during iteration") if not, then yields the current
      value of the next key;
    - [remap] is the entry object (a Python list), so [remap[2] = 1] after
      the callbacks writes into that object even when a callback has put
      a fresh entry under the key meanwhile;
    - [__call_bind] fixes [range(len(key_data[4][index]))] once, then
      reads [key_data[4][index][i]] again at each step: a callback that
      shortens the list makes a later step raise [IndexError], one that
      inserts at the front makes the same callback be found again.

    So here the entries are objects too: [ents] is the store of entry
    objects (their slot [4] referring to two list objects of [rheap], as
    in [Aliasing]), and [rkeys] maps each key to its entry object.  Every
    method of the API is written again over this store (the [r] prefix),
    reading and writing through the object it fetched, as the source
    does.  A callback's [body] is the list of things it does: call a
    method of the API, call [update], or raise.

    Python's recursion limit is counted in frames: [rupdate smp n] is
    [update] with [n] frames left, and a nested [update], called by a
    callback that [__call_bind] called, has three frames fewer.  A call
    that would exceed the limit raises [RecursionError] where it is made;
    the only [try] on the way is [__is_app_active]'s, whose bare [except]
    turns a [RecursionError] of the window query into [False]
    ([ris_app_active_at]); [keyboard.is_pressed] can raise it too
    ([rkey_pressed]).  How deep the two library calls nest is part of the
    sample.

    One case is outside the model: a poll whose callbacks change the key
    set without changing its size (remove one key, add another).  CPython
    then goes on by position in the dict's entry table, and whether the
    insertion rebuilt that table depends on its free space; the model
    stops with [LayoutDependent] there. *)

From S2P Require Import Prelude PyDict Registry Aliasing.

Module Reentrant.
Import Registry Aliasing.

#[export] Instance HEntry_inhabited : Inhabited HEntry :=
  populate (mkHEntry "" false false false 0 0).

#[projections(primitive)]
Record rkb := mkRKB {
  rAPP_TITLE : string;
  rkeys : PyDict.dict loc;             (** each key's entry object *)
  ents : gmap loc HEntry;              (** the entry objects *)
  rheap : gmap loc (list action);      (** the callback list objects *)
  rnext : loc                          (** the next object to create *)
}.

(** What the methods and the poll can raise. *)
Inductive rexn :=
  | RTypeError                  (** subscripting [None] *)
  | RActionRaised (a : action)  (** a callback raised *)
  | RuntimeError                (** the dict changed size during iteration *)
  | IndexError                  (** [key_data[4][index][i]] out of range *)
  | RecursionError              (** the nesting of [update] calls is too deep *)
  | LayoutDependent.            (** same size, other keys: not modelled *)

Abbreviation RPy := (PyM rkb rexn).

Definition set_rkeys (d : PyDict.dict loc) (s : rkb) : rkb :=
  mkRKB (rAPP_TITLE s) d (ents s) (rheap s) (rnext s).

Definition set_hpressed (b : bool) (e : HEntry) : HEntry :=
  mkHEntry (htarget e) b (hlatch e) (htoggle e) (hheads e) (htails e).
Definition set_hlatch (b : bool) (e : HEntry) : HEntry :=
  mkHEntry (htarget e) (hpressed e) b (htoggle e) (hheads e) (htails e).
Definition set_hheads (h : loc) (e : HEntry) : HEntry :=
  mkHEntry (htarget e) (hpressed e) (hlatch e) (htoggle e) h (htails e).
Definition set_htails (t : loc) (e : HEntry) : HEntry :=
  mkHEntry (htarget e) (hpressed e) (hlatch e) (htoggle e) (hheads e) t.

(** ** The store *)

(** The state after creating a list object, an entry object, after
    writing a list object, an entry object, the dict. *)
Definition s_alloc_list (l : list action) (s : rkb) : rkb :=
  mkRKB (rAPP_TITLE s) (rkeys s) (ents s) (<[rnext s := l]> (rheap s)) (S (rnext s)).
Definition s_alloc_entry (e : HEntry) (s : rkb) : rkb :=
  mkRKB (rAPP_TITLE s) (rkeys s) (<[rnext s := e]> (ents s)) (rheap s) (S (rnext s)).
Definition s_heap (q : loc) (l : list action) (s : rkb) : rkb :=
  mkRKB (rAPP_TITLE s) (rkeys s) (ents s) (<[q := l]> (rheap s)) (rnext s).
Definition s_ents (p : loc) (e : HEntry) (s : rkb) : rkb :=
  mkRKB (rAPP_TITLE s) (rkeys s) (<[p := e]> (ents s)) (rheap s) (rnext s).
Arguments s_alloc_list : simpl never.
Arguments s_alloc_entry : simpl never.
Arguments s_heap : simpl never.
Arguments s_ents : simpl never.
Arguments set_rkeys : simpl never.

(** A new list object holding [l]. *)
Definition ralloc_list (l : list action) : RPy loc := λ s, (s_alloc_list l s, inr (rnext s)).

(** A new entry object. *)
Definition ralloc_entry (e : HEntry) : RPy loc := λ s, (s_alloc_entry e s, inr (rnext s)).

Definition rload (q : loc) : RPy (list action) := gets (λ s, rheap s !!! q).

Definition rmutate (q : loc) (f : list action → list action) : RPy unit :=
  modify (λ s, s_heap q (f (rheap s !!! q)) s).

(** The slots of an entry object, read at the moment the code reads them. *)
Definition rentry (p : loc) : RPy HEntry := gets (λ s, ents s !!! p).

(** [value[i] = ...] on the entry object [p]. *)
Definition rset (p : loc) (f : HEntry → HEntry) : RPy unit :=
  modify (λ s, s_ents p (f (ents s !!! p)) s).

(** [self.keys.get(key)]: the entry object, if any. *)
Definition rget (k : string) : RPy (option loc) := gets (λ s, PyDict.get (rkeys s) k).

(** ** The constructor: per key, two lists, then the entry *)

Fixpoint rinit_keys (ks : list string) (n : loc) : PyDict.dict loc :=
  match ks with
  | [] => []
  | k :: ks' => (k, S (S n)) :: rinit_keys ks' (3 + n)
  end.

Fixpoint rinit_ents (ks : list string) (n : loc) : list (loc * HEntry) :=
  match ks with
  | [] => []
  | k :: ks' => (S (S n), mkHEntry k false false true n (S n)) :: rinit_ents ks' (3 + n)
  end.

Fixpoint rinit_lists (ks : list string) (n : loc) : list (loc * list action) :=
  match ks with
  | [] => []
  | _ :: ks' => (n, []) :: (S n, []) :: rinit_lists ks' (3 + n)
  end.

Definition rinit (title : string) : rkb :=
  mkRKB title (rinit_keys default_keys 0) (list_to_map (rinit_ents default_keys 0))
    (list_to_map (rinit_lists default_keys 0)) (3 * length default_keys).

(** ** The mutation API over the object store (lines 127-269) *)

(** [self.keys[key] = [remap,0,0,toggle,[[],[]]]]: the two lists are
    built before the entry that holds them. *)
Definition radd_key (key : string) (remap : option string) (toggle : bool) : RPy unit :=
  let remap := match remap with
               | Some r => if decide (r = ""%string) then key else r
               | None => key
               end in
  h ← ralloc_list [];
  t ← ralloc_list [];
  p ← ralloc_entry (mkHEntry remap false false toggle h t);
  modify (λ s, set_rkeys (PyDict.setitem key p (rkeys s)) s).

Definition rchange_toggle (key : string) : RPy bool :=
  v ← rget key;
  match v with
  | Some p =>
      e ← rentry p;
      rset p (set_htoggle (if htoggle e then false else true));;
      mret true
  | None => mret false
  end.

Definition rremove_key (key : string) : RPy bool :=
  v ← rget key;
  match v with
  | Some _ => modify (λ s, set_rkeys (PyDict.pop key (rkeys s)) s);; mret true
  | None => mret false
  end.

Definition rremap (key to_key : string) : RPy bool :=
  v ← rget key;
  match v with
  | Some p => rset p (set_htarget to_key);; mret true
  | None => mret false
  end.

Definition rbind (key : string) (head_func tail_func : option action) (toggle : bool) : RPy bool :=
  v ← rget key;
  match v with
  | Some p =>
      rset p (set_htoggle toggle);;
      (match head_func with
       | Some h => e ← rentry p; rmutate (hheads e) (λ l, h :: l)
       | None => mret ()
       end);;
      (match tail_func with
       | Some t => e ← rentry p; rmutate (htails e) (λ l, t :: l)
       | None => mret ()
       end);;
      mret true
  | None => mret false
  end.

Definition rbulk_bind (key : string) (head_list tail_list : option (list action))
    (toggle : bool) : RPy bool :=
  v ← rget key;
  match v with
  | Some p =>
      rset p (set_htoggle toggle);;
      (match head_list with
       | Some hl => e ← rentry p; rmutate (hheads e) (λ l, l ++ hl)
       | None => mret ()
       end);;
      (match tail_list with
       | Some tl => e ← rentry p; rmutate (htails e) (λ l, l ++ tl)
       | None => mret ()
       end);;
      mret true
  | None => mret false
  end.

Definition rclear_bind (key : string) : RPy bool :=
  v ← rget key;
  match v with
  | Some p =>
      e ← rentry p; rmutate (hheads e) (λ _, []);;
      e ← rentry p; rmutate (htails e) (λ _, []);;
      mret true
  | None => mret false
  end.

Definition rremove_bind (key : string) (head_tail : bool) (func : action) : RPy bool :=
  v ← rget key;
  match v with
  | None => raise RTypeError
  | Some p =>
      e ← rentry p;
      let q := if head_tail then hheads e else htails e in
      l ← rload q;
      match find_index func l with
      | Some i => rmutate q (delete i);; mret true
      | None => mret false
      end
  end.

(** Four copies, then four writes into the pair of [a], then of [b]. *)
Definition rswap_binds (key_a key_b : string) : RPy bool :=
  a ← rget key_a;
  b ← rget key_b;
  match a, b with
  | Some a, Some b =>
      ea ← rentry a;
      a_head ← rload (hheads ea) ≫= ralloc_list;
      a_tail ← rload (htails ea) ≫= ralloc_list;
      eb ← rentry b;
      b_head ← rload (hheads eb) ≫= ralloc_list;
      b_tail ← rload (htails eb) ≫= ralloc_list;
      rset a (set_hheads b_head);;
      rset a (set_htails b_tail);;
      rset b (set_hheads a_head);;
      rset b (set_htails a_tail);;
      mret true
  | _, _ => mret false
  end.

Definition rget_binds (key : string) : RPy (option loc * option loc) :=
  v ← rget key;
  match v with
  | Some p => e ← rentry p; mret (Some (hheads e), Some (htails e))
  | None => mret (None, None)
  end.

Definition rapi (c : api_call) : RPy unit :=
  match c with
  | AddKey k r t => radd_key k r t
  | ChangeToggle k => rchange_toggle k;; mret ()
  | RemoveKey k => rremove_key k;; mret ()
  | Remap k t => rremap k t;; mret ()
  | Bind k h t tg => rbind k h t tg;; mret ()
  | BulkBind k hl tl tg => rbulk_bind k hl tl tg;; mret ()
  | ClearBind k => rclear_bind k;; mret ()
  | RemoveBind k ht f => rremove_bind k ht f;; mret ()
  | SwapBinds a b => rswap_binds a b;; mret ()
  | GetBinds k => rget_binds k;; mret ()
  end.

(** ** The poll, with callbacks that act on the object *)

(** One thing a callback does. *)
Inductive effect :=
  | EApi (c : api_call)   (** calls a method of the object *)
  | EUpdate               (** calls [self.update()] *)
  | ERaise.               (** raises *)

#[export] Instance api_call_eq_dec : EqDecision api_call.
Proof. solve_decision. Defined.
#[export] Instance effect_eq_dec : EqDecision effect.
Proof. solve_decision. Defined.

(** What one poll observes: as [Dispatch.sample], with each callback's
    behaviour in place of the set of callbacks that raise, and how deep
    the two library calls nest, in Python frames: [keyboard.is_pressed]
    nests [key_frames] frames, and a window query that returns a window
    nests [2 + win_frames] (at least [getActiveWindow] and the window
    class's [__init__]). *)
Record rsample := mkRSample {
  ractive_window : option string;
  ris_pressed : string → bool;
  body : action → list effect;
  win_frames : nat;
  key_frames : nat
}.

#[projections(primitive)]
Record rworld := mkRWorld { rk : rkb; rcalls : list action }.

Abbreviation RUpd := (PyM rworld rexn).

Definition rlift {A} (m : RPy A) : RUpd A := λ w,
  let '(s', r) := m (rk w) in (mkRWorld s' (rcalls w), r).

Definition ris_app_active (smp : rsample) (s : rkb) : bool :=
  match ractive_window smp with
  | Some title => bool_decide (title = rAPP_TITLE s)
  | None => false
  end.

(** [self.__is_app_active()] called from [update] with [n] frames left
    before the recursion limit: the call needs one ([RecursionError] in
    [update] otherwise); inside the [try], the window query needs
    [2 + win_frames] more, and the [RecursionError] raised there when
    they are missing is caught by the bare [except]: [False]. *)
Definition ris_app_active_at (smp : rsample) (n : nat) : RUpd bool :=
  match n with
  | 0 => raise RecursionError
  | S n' =>
      w ← gets id;
      mret (bool_decide (2 + win_frames smp ≤ n') && ris_app_active smp (rk w))
  end.

(** [keyboard.is_pressed(k)] with [n] frames left: nothing catches the
    [RecursionError] of a call that nests too deep. *)
Definition rkey_pressed (smp : rsample) (n : nat) (k : string) : RUpd bool :=
  if bool_decide (key_frames smp ≤ n) then mret (ris_pressed smp k) else raise RecursionError.

Section poll.
Context (smp : rsample).
(** The nested [self.update()], three frames deeper. *)
Context (upd : RUpd unit).

Definition reffect (a : action) (x : effect) : RUpd unit :=
  match x with
  | EApi c => rlift (rapi c)
  | EUpdate => upd
  | ERaise => raise (RActionRaised a)
  end.

(** Calling [a()]: the call is logged, then its body runs. *)
Definition rcall (a : action) : RUpd unit :=
  modify (λ w, mkRWorld (rk w) (rcalls w ++ [a]));;
  for_ (reffect a) (body smp a).

Definition slot (index : bool) (e : HEntry) : loc := if index then hheads e else htails e.

(** [key_data[4][index][i]()]: the list is read again at each step. *)
Definition rcall_at (p : loc) (index : bool) (i : nat) : RUpd unit :=
  e ← rlift (rentry p);
  l ← rlift (rload (slot index e));
  match l !! i with
  | Some f => rcall f
  | None => raise IndexError
  end.

(** [__call_bind(key_data, index)]: [range] is taken once.  [index] is
    [true] for [0] (heads). *)
Definition rcall_bind (p : loc) (index : bool) : RUpd unit :=
  e ← rlift (rentry p);
  l0 ← rlift (rload (slot index e));
  for_ (rcall_at p index) (seq 0 (length l0)).

End poll.

(** [remap = v; if v[0] != k: temp = self.keys.get(v[0]); if temp: remap = temp]:
    the entry object the iteration for [k] drives. *)
Definition rresolve (k : string) (v : loc) : RPy loc :=
  e ← rentry v;
  if decide (htarget e ≠ k) then
    temp ← rget (htarget e);
    match temp with Some t => mret t | None => mret v end
  else mret v.

Section poll2.
(** [n]: the frames left in the running [update]. *)
Context (smp : rsample) (n : nat) (upd : RUpd unit).

(** The rest of the body of the loop (lines 307-321), on [remap]. *)
Definition rupdate_remap (k : string) (remap : loc) : RUpd unit :=
  rkey_pressed smp n k ≫= λ pressed : bool,
  if pressed then
    rlift (rset remap (set_hpressed true));;
    e ← rlift (rentry remap);
    if htoggle e then
      if hlatch e then mret ()
      else rcall_bind smp upd remap true;; rlift (rset remap (set_hlatch true))
    else
      rcall_bind smp upd remap true;; rlift (rset remap (set_hlatch true))
  else
    rlift (rset remap (set_hpressed false));;
    e ← rlift (rentry remap);
    if hlatch e then
      rlift (rset remap (set_hlatch false));; rcall_bind smp upd remap false
    else mret ().

(** The body of the loop of [update] for key [k] and its value [v]. *)
Definition rupdate_key (k : string) (v : loc) : RUpd unit :=
  remap ← rlift (rresolve k v);
  rupdate_remap k remap.

(** [for k, v in self.keys.items()]: each step of the iterator first
    compares the dict's size with the size at the start ([n0]); the keys
    are then those at the start ([ks0]) when the key list is unchanged. *)
Definition items_check (n0 : nat) (ks0 : list string) : RUpd (PyDict.dict loc) :=
  d ← gets (λ w, rkeys (rk w));
  if decide (length d ≠ n0) then raise RuntimeError
  else if decide (PyDict.keys d ≠ ks0) then raise LayoutDependent
  else mret d.

Fixpoint ritems (n0 : nat) (ks0 : list string) (f : string → loc → RUpd unit)
    (ks : list string) : RUpd unit :=
  d ← items_check n0 ks0;
  match ks with
  | [] => mret ()
  | k :: ks' =>
      match PyDict.get d k with
      | Some v => f k v
      | None => mret ()
      end;;
      ritems n0 ks0 f ks'
  end.

Definition rpoll : RUpd unit :=
  ris_app_active_at smp n ≫= λ active : bool,
  w ← gets id;
  if active then
    let d := rkeys (rk w) in
    ritems (length d) (PyDict.keys d) rupdate_key (PyDict.keys d)
  else mret ().
End poll2.

(** [update] with [n] frames left below its own.  A nested
    [self.update()] is called by a callback that [__call_bind] called, so
    it runs with [n - 3] frames left.  The loop runs only when the window
    query succeeded, that is with [n ≥ 3]; so the calls of [__call_bind],
    of a callback, of a method of the object from a callback, and of the
    nested [update] itself never hit the limit, and only
    [__is_app_active] and [keyboard.is_pressed] can ([ris_app_active_at],
    [rkey_pressed]).  With [n < 3] no callback runs and the nested
    [update] is never reached. *)
Fixpoint rupdate (smp : rsample) (n : nat) : RUpd unit :=
  rpoll smp n (match n with S (S (S m)) => rupdate smp m | _ => raise RecursionError end).

(** ** Running the pieces *)

Lemma rlift_ok {A} (m : RPy A) w s' x :
  m (rk w) = (s', inr x) → rlift m w = (mkRWorld s' (rcalls w), inr x).
Proof. intros H. unfold rlift. by rewrite H. Qed.

Lemma rlift_err {A} (m : RPy A) w s' e :
  m (rk w) = (s', inl e) → rlift m w = (mkRWorld s' (rcalls w), inl e).
Proof. intros H. unfold rlift. by rewrite H. Qed.

Section run.
Context (smp : rsample) (upd : RUpd unit).

(** The list [key_data[4][index]] as it is in [w]. *)
Definition cur_list (w : rworld) (p : loc) (index : bool) : list action :=
  rheap (rk w) !!! slot index (ents (rk w) !!! p).

Lemma rcall_bind_run p index w :
  rcall_bind smp upd p index w =
    for_ (rcall_at smp upd p index) (seq 0 (length (cur_list w p index))) w.
Proof. reflexivity. Qed.

Lemma rcall_at_run p index i w :
  rcall_at smp upd p index i w =
    match cur_list w p index !! i with
    | Some f => rcall smp upd f w
    | None => (w, inl IndexError)
    end.
Proof. unfold rcall_at, cur_list. py_unfold. simpl. by destruct (_ !! i). Qed.

Lemma rcall_run a w :
  rcall smp upd a w = for_ (reffect upd a) (body smp a) (mkRWorld (rk w) (rcalls w ++ [a])).
Proof. reflexivity. Qed.

Lemma rcall_pure a w :
  body smp a = [] → rcall smp upd a w = (mkRWorld (rk w) (rcalls w ++ [a]), inr ()).
Proof. intros Hb. by rewrite rcall_run, Hb. Qed.
End run.

Lemma rbind_head_run s k p c tg :
  PyDict.get (rkeys s) k = Some p →
  rbind k (Some c) None tg s =
    (mkRKB (rAPP_TITLE s) (rkeys s) (<[p := set_htoggle tg (ents s !!! p)]> (ents s))
       (<[hheads (ents s !!! p) := c :: rheap s !!! hheads (ents s !!! p)]> (rheap s)) (rnext s),
     inr true).
Proof.
  intros Hk. unfold rbind, rget, rset, rentry, rmutate. py_unfold. simpl. rewrite Hk.
  by rewrite lookup_total_insert_eq.
Qed.

Lemma rremove_bind_head_run s k p a l :
  PyDict.get (rkeys s) k = Some p → rheap s !!! hheads (ents s !!! p) = a :: l →
  rremove_bind k true a s =
    (mkRKB (rAPP_TITLE s) (rkeys s) (ents s) (<[hheads (ents s !!! p) := l]> (rheap s)) (rnext s),
     inr true).
Proof.
  intros Hk Hl. unfold rremove_bind, rget, rentry, rload, rmutate. py_unfold. simpl.
  rewrite Hk. simpl. rewrite Hl. simpl. rewrite decide_True by done. simpl. by rewrite Hl.
Qed.

(** The entry object the iteration for [k] drives, read off the state. *)
Definition resolved (s : rkb) (k : string) (v : loc) : loc :=
  let e := ents s !!! v in
  if decide (htarget e ≠ k) then
    match PyDict.get (rkeys s) (htarget e) with Some t => t | None => v end
  else v.

Lemma rresolve_run k v s : rresolve k v s = (s, inr (resolved s k v)).
Proof.
  unfold rresolve, resolved, rentry, rget. py_unfold. simpl.
  case_decide; [|done]. simpl. by destruct (PyDict.get _ _).
Qed.

Lemma resolved_in s k v :
  resolved s k v = v ∨ ∃ j, PyDict.get (rkeys s) j = Some (resolved s k v).
Proof. unfold resolved. case_decide; [|auto]. destruct (PyDict.get _ _) eqn:E; eauto. Qed.

Lemma rupdate_key_run smp n u k v w :
  rupdate_key smp n u k v w = rupdate_remap smp n u k (resolved (rk w) k v) w.
Proof. unfold rupdate_key. by rewrite (bind_ok _ _ _ w _ (rlift_ok _ _ _ _ (rresolve_run _ _ _))). Qed.

(** [remap[i] = ...] inside a poll. *)
Definition ents_set (w : rworld) (p : loc) (f : HEntry → HEntry) : rworld :=
  mkRWorld (mkRKB (rAPP_TITLE (rk w)) (rkeys (rk w)) (<[p := f (ents (rk w) !!! p)]> (ents (rk w)))
                  (rheap (rk w)) (rnext (rk w))) (rcalls w).

Lemma items_check_ok d0 w :
  rkeys (rk w) = d0 → items_check (length d0) (PyDict.keys d0) w = (w, inr d0).
Proof.
  intros Hd. unfold items_check. py_unfold. cbn. rewrite Hd.
  by rewrite !decide_False by tauto.
Qed.

Lemma resolved_self s k v : htarget (ents s !!! v) = k → resolved s k v = v.
Proof. intros Ht. unfold resolved. by rewrite Ht, decide_False by tauto. Qed.

Lemma rlift_rentry p w : rlift (rentry p) w = (w, inr (ents (rk w) !!! p)).
Proof. reflexivity. Qed.

Lemma rlift_rset p f w : rlift (rset p f) w = (ents_set w p f, inr ()).
Proof. reflexivity. Qed.

Lemma ents_set_lookup w p q f :
  ents (rk (ents_set w p f)) !!! q = if decide (p = q) then f (ents (rk w) !!! p) else ents (rk w) !!! q.
Proof. apply lookup_total_insert. Qed.

Lemma rkey_pressed_ok smp n k w :
  key_frames smp ≤ n → rkey_pressed smp n k w = (w, inr (ris_pressed smp k)).
Proof. intros H. unfold rkey_pressed. by rewrite bool_decide_eq_true_2. Qed.

(** A released key whose entry is not latched: only [remap[1] = 0]. *)
Lemma released_run smp n u k r w :
  key_frames smp ≤ n → ris_pressed smp k = false → hlatch (ents (rk w) !!! r) = false →
  rupdate_remap smp n u k r w = (ents_set w r (set_hpressed false), inr ()).
Proof.
  intros Hn Hp Hl. unfold rupdate_remap. rewrite (bind_ok _ _ _ _ _ (rkey_pressed_ok _ _ _ _ Hn)), Hp.
  rewrite (bind_ok _ _ _ _ _ (rlift_rset _ _ _)).
  unfold rentry. py_unfold. cbn. rewrite lookup_total_insert_eq. cbn [hlatch set_hpressed]. by rewrite Hl.
Qed.

(** [keyboard.is_pressed] nesting deeper than the frames left. *)
Lemma rupdate_remap_deep smp n u k r w :
  n < key_frames smp → rupdate_remap smp n u k r w = (w, inl RecursionError).
Proof. intros H. unfold rupdate_remap, rkey_pressed. by rewrite bool_decide_eq_false_2 by lia. Qed.

Lemma ris_app_active_at_run smp n w :
  ris_app_active_at smp n w =
    match n with
    | 0 => (w, inl RecursionError)
    | S n' => (w, inr (bool_decide (2 + win_frames smp ≤ n') && ris_app_active smp (rk w)))
    end.
Proof. by destruct n. Qed.

Lemma rupdate_unfold smp n :
  rupdate smp n = rpoll smp n (match n with S (S (S m)) => rupdate smp m | _ => raise RecursionError end).
Proof. by destruct n as [|[|[|m]]]. Qed.

Lemma ritems_nil d0 f w :
  rkeys (rk w) = d0 → ritems (length d0) (PyDict.keys d0) f [] w = (w, inr ()).
Proof. intros Hd. cbn [ritems]. by rewrite (bind_ok _ _ _ _ _ (items_check_ok _ _ Hd)). Qed.

Lemma ritems_cons d0 f j v ks w :
  rkeys (rk w) = d0 → PyDict.get d0 j = Some v →
  ritems (length d0) (PyDict.keys d0) f (j :: ks) w =
    (f j v ≫= λ _, ritems (length d0) (PyDict.keys d0) f ks) w.
Proof. intros Hd Hv. cbn [ritems]. rewrite (bind_ok _ _ _ _ _ (items_check_ok _ _ Hd)). by rewrite Hv. Qed.

(** A focused poll with the frames of its window query runs the loop. *)
Lemma rupdate_focused smp m w ks :
  3 + win_frames smp ≤ S (S (S m)) → ris_app_active smp (rk w) = true → PyDict.keys (rkeys (rk w)) = ks →
  rupdate smp (S (S (S m))) w =
    ritems (length (rkeys (rk w))) (PyDict.keys (rkeys (rk w))) (rupdate_key smp (S (S (S m))) (rupdate smp m)) ks w.
Proof.
  intros Hn H1 <-. cbn [rupdate]. unfold rpoll.
  rewrite (bind_ok _ _ _ w true); [|by rewrite ris_app_active_at_run, bool_decide_eq_true_2, H1 by lia].
  by rewrite (bind_ok _ _ w w w).
Qed.

(** Once the dict has another size, the next step of the iterator raises. *)
Lemma ritems_resized n0 ks0 f ks w :
  length (rkeys (rk w)) ≠ n0 → ritems n0 ks0 f ks w = (w, inl RuntimeError).
Proof. intros H. destruct ks; cbn [ritems]; unfold items_check; py_unfold; cbn; by rewrite decide_True. Qed.

Lemma items_check_cases n0 ks0 w :
  items_check n0 ks0 w = (w, inr (rkeys (rk w))) ∨ ∃ e, items_check n0 ks0 w = (w, inl e).
Proof. unfold items_check. py_unfold. cbn. repeat case_decide; eauto. Qed.

End Reentrant.
