(* ===== verification/ReentrantCalls.v ===== *)
(** * ReentrantCalls: what callbacks that call back into the object do

    Theorems on the model of [Reentrant], each about one way a callback
    can interfere with the code that is calling it:
    - inside [__call_bind] (lines 276-278 of [src/Keyboard_binding.py]): a
      head that inserts at the front of its own list is found again at
      every step ([rcall_bind_self_bind]); a head that removes itself makes
      the next one be skipped and the loop end in [IndexError]
      ([rcall_bind_self_remove]);
    - [update] called from a head: the latch is set after the heads run,
      so the nested poll calls the same head again, three frames deeper,
      until a poll lacks the frames of [__is_app_active]'s window query or
      of [keyboard.is_pressed] ([rupdate_recursive_head]).  How deep it
      goes is [rec_depth], how it ends [rec_result]: when the window query
      is the deeper call, the [RecursionError] is raised inside the [try]
      of [__is_app_active], whose bare [except] turns it into [False], and
      the poll returns normally;
    - inside the loop over [self.keys.items()]: a head that adds a new key
      or removes one makes the iterator's next step raise [RuntimeError]
      ([rupdate_resize_raises]). *)

From S2P Require Import Prelude PyDict Registry Aliasing Reentrant.

Module ReentrantCalls.
Import Registry Aliasing Reentrant.Reentrant.

(** ** Mutating the list being called *)

Lemma replicate_app_lookup {A} (x y : A) j l : (replicate j x ++ y :: l) !! j = Some y.
Proof. rewrite lookup_app_r; rewrite length_replicate; [by rewrite Nat.sub_diag|lia]. Qed.

(** C30. A head callback [a] that binds a new head [c] to its own key
    ([value[4][0].insert(0, c)]) while [__call_bind] runs shifts the list
    under the loop: every step of [range(len(heads))] finds [a] again.  So
    [a] is called as many times as the list had elements, the callbacks
    after it are never called, and the list ends with one [c] per call. *)
Theorem rcall_bind_self_bind smp upd w k p a c rest tg :
  PyDict.get (rkeys (rk w)) k = Some p →
  cur_list w p true = a :: rest →
  body smp a = [EApi (Bind k (Some c) None tg)] →
  ∃ w', rcall_bind smp upd p true w = (w', inr ()) ∧
    rcalls w' = rcalls w ++ replicate (S (length rest)) a ∧
    cur_list w' p true = replicate (S (length rest)) c ++ a :: rest.
Proof.
  intros Hk Hl Hb. rewrite rcall_bind_run, Hl.
  edestruct (for_seq_inv (λ j w', rkeys (rk w') = rkeys (rk w) ∧
           hheads (ents (rk w') !!! p) = hheads (ents (rk w) !!! p) ∧
           rcalls w' = rcalls w ++ replicate j a ∧
           cur_list w' p true = replicate j c ++ a :: rest)
           (rcall_at smp upd p true) 0 (length (a :: rest)) w)
    as (w' & Hr & _ & _ & Hc & Hl'); [|by rewrite app_nil_r|by exists w'].
  intros j w1 _ _ (Hk1 & Hh1 & Hc1 & Hl1).
  rewrite rcall_at_run, Hl1, replicate_app_lookup, rcall_run, Hb. cbn [for_].
  cbn [reffect rapi]. rewrite <- Hk1 in Hk.
  rewrite (bind_ok _ _ _ _ _ (rlift_ok _ (mkRWorld (rk w1) (rcalls w1 ++ [a])) _ _
            (bind_ok _ _ _ _ _ (rbind_head_run _ _ _ _ _ Hk)))).
  eexists. split; [reflexivity|]. cbn [rk rcalls ents rkeys rheap].
  rewrite lookup_total_insert_eq. cbn [hheads set_htoggle].
  split_and!; [done|done|by rewrite Hc1, <- app_assoc, replicate_S_end|].
  unfold cur_list in *. cbn in *. rewrite lookup_total_insert_eq. cbn. rewrite lookup_total_insert_eq.
  by rewrite Hl1.
Qed.

(** C31. A head callback [a] that removes itself ([remove_bind(key,
    True, a)]) while [__call_bind] runs shifts the list under the loop:
    the head right after it ([b]) is never called, the later ones are
    called, and the last step of [range(len(heads))] reads past the end of
    the shorter list and raises [IndexError]. *)
Theorem rcall_bind_self_remove smp upd w k p a b rest :
  PyDict.get (rkeys (rk w)) k = Some p →
  cur_list w p true = a :: b :: rest →
  body smp a = [EApi (RemoveBind k true a)] →
  Forall (λ x, body smp x = []) rest →
  ∃ w', rcall_bind smp upd p true w = (w', inl IndexError) ∧
    rcalls w' = rcalls w ++ a :: rest ∧ cur_list w' p true = b :: rest.
Proof.
  intros Hk Hl Hb Hrest. rewrite rcall_bind_run, Hl. cbn [length].
  set (w0 := mkRWorld (mkRKB (rAPP_TITLE (rk w)) (rkeys (rk w)) (ents (rk w))
               (<[hheads (ents (rk w) !!! p) := b :: rest]> (rheap (rk w))) (rnext (rk w)))
               (rcalls w ++ [a])).
  assert (cur_list w0 p true = b :: rest) as Hl0
    by (unfold cur_list; cbn; by rewrite lookup_total_insert_eq).
  assert (rcall_at smp upd p true 0 w = (w0, inr ())) as H0.
  { rewrite rcall_at_run, Hl. cbn [lookup list_lookup]. rewrite rcall_run, Hb. cbn [for_ reffect rapi].
    by rewrite (bind_ok _ _ _ _ _ (rlift_ok _ (mkRWorld (rk w) (rcalls w ++ [a])) _ _
                  (bind_ok _ _ _ _ _ (rremove_bind_head_run _ _ _ _ _ Hk Hl)))). }
  edestruct (for_seq_inv (λ j w', rk w' = rk w0 ∧ rcalls w' = rcalls w ++ a :: take (j - 1) rest)
               (rcall_at smp upd p true) 1 (length rest) w0)
    as (w1 & Hr1 & Hk1 & Hc1); [|by split|].
  { intros j w' Hj1 Hj2 [Hw' Hc']. rewrite rcall_at_run.
    assert (cur_list w' p true = b :: rest) as -> by (unfold cur_list; rewrite Hw'; apply Hl0).
    destruct j as [|j]; [lia|]. change ((b :: rest) !! S j) with (rest !! j).
    destruct (lookup_lt_is_Some_2 rest j) as [x Hx]; [lia|]. rewrite Hx. cbv iota.
    rewrite rcall_pure by exact (Forall_lookup_1 _ _ _ _ Hrest Hx).
    eexists. split; [reflexivity|]. cbn. split; [done|].
    rewrite Hc', <- app_assoc, (take_S_r _ _ _ Hx). cbn [app]. by replace (S j - 1) with j by lia. }
  exists w1. rewrite seq_S, for_app. cbn [seq for_]. rewrite bind_assoc.
  rewrite (bind_ok _ _ _ _ _ H0). cbv beta. rewrite (bind_ok _ _ _ _ _ Hr1). cbn [for_].
  assert (cur_list w1 p true = b :: rest) as Hl1 by (unfold cur_list; rewrite Hk1; apply Hl0).
  assert (rcall_at smp upd p true (0 + S (length rest)) w1 = (w1, inl IndexError)) as Hlast
    by (rewrite rcall_at_run, Hl1; by rewrite lookup_ge_None_2 by (cbn; lia)).
  rewrite (bind_err _ _ _ _ _ Hlast). split_and!; [done| |done].
  rewrite Hc1. by rewrite take_ge by lia.
Qed.

(** ** A head that calls [update] *)

(** The states from which a poll reaches the head [a] of [k] and no other
    callback: the window has the title, the keys are distinct, [k] drives
    its own entry [p], whose heads are [[a]], and every other key drives
    another entry, not latched. *)
Definition rec_ready (smp : rsample) (k : string) (p : loc) (a : action) (w : rworld) : Prop :=
  ris_app_active smp (rk w) = true ∧ PyDict.wf (rkeys (rk w)) ∧
  PyDict.get (rkeys (rk w)) k = Some p ∧ htarget (ents (rk w) !!! p) = k ∧
  cur_list w p true = [a] ∧
  Forall (λ jv, jv.1 ≠ k → resolved (rk w) jv.1 jv.2 ≠ p ∧
                 hlatch (ents (rk w) !!! resolved (rk w) jv.1 jv.2) = false) (rkeys (rk w)).

(** The frames a nested poll needs to reach the head: the [3 + win_frames]
    of [__is_app_active] and its window query, and the [key_frames] of
    [keyboard.is_pressed]. *)
Definition rec_need (smp : rsample) : nat := Nat.max (3 + win_frames smp) (key_frames smp).

(** How many nested polls call the head, from a poll with [n] frames
    left: each nests three frames deeper. *)
Definition rec_depth (smp : rsample) (n : nat) : nat :=
  if decide (rec_need smp ≤ n) then (n - rec_need smp) / 3 + 1 else 0.

(** How the innermost poll, with [r] frames left, ends: with [r = 0]
    [__is_app_active] cannot be called ([RecursionError]); with fewer
    than [3 + win_frames] the window query hits the limit inside the
    [try], the bare [except] returns [False] and the poll returns; else
    [keyboard.is_pressed] hits it ([RecursionError]). *)
Definition rec_result (smp : rsample) (n : nat) : rexn + unit :=
  let r := n - 3 * rec_depth smp n in
  if decide (1 ≤ r ∧ r < 3 + win_frames smp) then inr () else inl RecursionError.

Lemma rec_depth_stop smp n : n < rec_need smp → rec_depth smp n = 0.
Proof. intros H. unfold rec_depth. by rewrite decide_False by lia. Qed.

Lemma rec_depth_pass smp n :
  rec_need smp ≤ n →
  rec_depth smp n = S (rec_depth smp (n - 3)) ∧ rec_result smp n = rec_result smp (n - 3).
Proof.
  intros Hn. assert (rec_depth smp n = S (rec_depth smp (n - 3))) as Hd.
  { unfold rec_depth. rewrite decide_True by done. unfold rec_need in *.
    destruct (decide (_ ≤ n - 3)) as [Hm|Hm].
    - replace (n - _) with (n - 3 - Nat.max (3 + win_frames smp) (key_frames smp) + 1 * 3) by lia.
      rewrite Nat.div_add by lia. lia.
    - rewrite Nat.div_small by lia. lia. }
  split; [done|]. unfold rec_result. rewrite Hd. by replace (n - 3 * S _) with (n - 3 - 3 * rec_depth smp (n - 3)) by lia.
Qed.

Lemma resolved_set w q f j v :
  (∀ e, htarget (f e) = htarget e) → resolved (rk (ents_set w q f)) j v = resolved (rk w) j v.
Proof. intros Hf. unfold resolved. rewrite !ents_set_lookup. destruct (decide (q = v)) as [->|]; [by rewrite Hf|done]. Qed.

Section recursion.
Context (smp : rsample) (k : string) (p : loc) (a : action) (x : effect).
Context (Ha : body smp a = [x]) (Hk : ris_pressed smp k = true)
  (Hj : ∀ j, j ≠ k → ris_pressed smp j = false).

(** Writing a slot other than the target and the lists keeps the state
    ready; only [p]'s latch may change. *)
Lemma rec_ready_set w q f :
  (∀ e, htarget (f e) = htarget e) → (∀ e, hheads (f e) = hheads e) →
  q = p ∨ (∀ e, hlatch (f e) = hlatch e) →
  rec_ready smp k p a w → rec_ready smp k p a (ents_set w q f).
Proof.
  intros Ht Hh Hl (H1 & H2 & H3 & H4 & H5 & H6). unfold rec_ready, cur_list, slot in *.
  change (rkeys (rk (ents_set w q f))) with (rkeys (rk w)).
  change (rheap (rk (ents_set w q f))) with (rheap (rk w)).
  split_and!; try done; rewrite ?ents_set_lookup; [case_decide; subst; by rewrite ?Ht|case_decide; subst; by rewrite ?Hh|].
  eapply Forall_impl; [exact H6|]. intros [j v] Hjv Hne. cbn [fst snd] in *. rewrite resolved_set by done.
  destruct (Hjv Hne) as [Hr Hl']. split; [done|]. rewrite ents_set_lookup.
  case_decide as Hq; [|done]. destruct Hl as [Hqp|Hl]; [exfalso; apply Hr; congruence|].
  rewrite Hl. by subst q.
Qed.

(** The released keys of a stretch of the loop only write their pressed
    slots. *)
Lemma rec_released n u d0 js w :
  key_frames smp ≤ n → rec_ready smp k p a w → rkeys (rk w) = d0 →
  Forall (λ j, j ≠ k ∧ j ∈ PyDict.keys d0) js →
  ∃ w', rec_ready smp k p a w' ∧ rkeys (rk w') = d0 ∧ rcalls w' = rcalls w ∧
    hlatch (ents (rk w') !!! p) = hlatch (ents (rk w) !!! p) ∧
    ∀ rest, ritems (length d0) (PyDict.keys d0) (rupdate_key smp n u) (js ++ rest) w =
            ritems (length d0) (PyDict.keys d0) (rupdate_key smp n u) rest w'.
Proof.
  intros Hn. revert w. induction js as [|j js IH]; intros w Hw Hd Hjs; [by exists w|].
  apply Forall_cons in Hjs as [[Hjk [v Hv]%PyDict.get_elem_of_keys] Hjs].
  assert (resolved (rk w) j v ≠ p ∧ hlatch (ents (rk w) !!! resolved (rk w) j v) = false) as [Hrp Hrl].
  { destruct Hw as (_ & _ & _ & _ & _ & H6). rewrite Forall_forall in H6.
    apply (H6 (j, v)); [|done]. rewrite Hd. by apply PyDict.get_elem_of. }
  destruct (IH (ents_set w (resolved (rk w) j v) (set_hpressed false))) as (w' & Hw' & Hd' & Hc' & Hl' & Hrun);
    [by apply rec_ready_set; [done|done|right; done|]|done|done|].
  exists w'. split_and!; [done|done|done| |].
  - rewrite Hl', ents_set_lookup. by rewrite decide_False.
  - intros rest. cbn [app]. rewrite (ritems_cons _ _ j v _ w Hd Hv).
    by rewrite (bind_ok _ _ _ _ _ (eq_trans (rupdate_key_run _ _ _ _ _ _)
                                     (released_run _ _ _ _ _ _ Hn (Hj j Hjk) Hrl))).
Qed.

(** [__call_bind] on the heads [[a]]: the call of [a] is logged and its
    one effect runs. *)
Lemma rec_call_bind u w :
  cur_list w p true = [a] → rcall_bind smp u p true w = reffect u a x (mkRWorld (rk w) (rcalls w ++ [a])).
Proof.
  intros Hl. rewrite rcall_bind_run, Hl. cbn [length seq for_]. py_unfold.
  rewrite rcall_at_run, Hl. cbn [lookup list_lookup]. rewrite rcall_run, Ha. cbn [for_].
  py_unfold. by destruct (reffect u a x _) as [w' [e|[]]].
Qed.

(** The iteration for [k]: pressed, not latched, so the head runs, then
    the latch is set unless the head raised. *)
Lemma rec_remap_k n u w :
  key_frames smp ≤ n → rec_ready smp k p a w → hlatch (ents (rk w) !!! p) = false →
  rupdate_remap smp n u k p w =
    let w2 := ents_set w p (set_hpressed true) in
    match reffect u a x (mkRWorld (rk w2) (rcalls w2 ++ [a])) with
    | (w4, inl e) => (w4, inl e)
    | (w4, inr _) => (ents_set w4 p (set_hlatch true), inr ())
    end.
Proof.
  intros Hn Hw Hl. unfold rupdate_remap. rewrite (bind_ok _ _ _ _ _ (rkey_pressed_ok _ _ _ _ Hn)), Hk.
  rewrite (bind_ok _ _ _ _ _ (rlift_rset _ _ _)), (bind_ok _ _ _ _ _ (rlift_rentry _ _)).
  rewrite ents_set_lookup, decide_True by done. cbn [hlatch htoggle set_hpressed]. rewrite Hl.
  assert (cur_list (ents_set w p (set_hpressed true)) p true = [a]) as Hc.
  { destruct (rec_ready_set w p (set_hpressed true) (λ _, eq_refl) (λ _, eq_refl) (or_introl eq_refl) Hw)
      as (_ & _ & _ & _ & Hc & _). exact Hc. }
  destruct (htoggle _); py_unfold; rewrite rec_call_bind by done; by destruct (reffect u a x _) as [w4 [e|[]]].
Qed.

(** A poll with too few frames to reach the head ends at once. *)
Lemma rec_level_stop n w :
  n < rec_need smp → rec_ready smp k p a w → rupdate smp n w = (w, rec_result smp n).
Proof.
  intros Hn Hw. pose proof Hw as (H1 & _ & H3 & _). unfold rec_result. rewrite rec_depth_stop by done.
  cbv zeta. replace (n - 3 * 0) with n by lia. rewrite rupdate_unfold. unfold rpoll, rec_need in *.
  destruct n as [|n']; [by rewrite decide_False by lia|].
  destruct (decide (S n' < 3 + win_frames smp)).
  - rewrite decide_True by lia. rewrite (bind_ok _ _ _ w false); [by rewrite (bind_ok _ _ w w w)|].
    rewrite ris_app_active_at_run. by rewrite bool_decide_eq_false_2 by lia.
  - rewrite decide_False by lia.
    rewrite (bind_ok _ _ _ w true); [|by rewrite ris_app_active_at_run, bool_decide_eq_true_2, H1 by lia].
    rewrite (bind_ok _ _ w w w) by done. cbv iota.
    assert (k ∈ PyDict.keys (rkeys (rk w))) as Hin by (apply PyDict.get_elem_of_keys; by rewrite H3).
    destruct (PyDict.keys (rkeys (rk w))) as [|j0 ks] eqn:E; [set_solver|].
    destruct (proj2 (PyDict.get_elem_of_keys (rkeys (rk w)) j0)) as [v0 Hv0]; [rewrite E; set_solver|].
    replace (ritems (length (rkeys (rk w))) (j0 :: ks))
      with (ritems (length (rkeys (rk w))) (PyDict.keys (rkeys (rk w)))) by (by rewrite E).
    rewrite (ritems_cons _ _ j0 v0 ks w eq_refl Hv0).
    by rewrite (bind_err _ _ _ _ _ (eq_trans (rupdate_key_run _ _ _ _ _ _) (rupdate_remap_deep smp (S n') _ j0 _ w ltac:(lia)))).
Qed.

(** A poll with enough frames calls the head, whose nested poll runs
    three frames deeper; unless it raised, the latch is then set and the
    rest of the loop writes pressed slots only. *)
Lemma rec_level_pass m w :
  x = EUpdate → rec_need smp ≤ S (S (S m)) → rec_ready smp k p a w → hlatch (ents (rk w) !!! p) = false →
  (∀ w, rec_ready smp k p a w → hlatch (ents (rk w) !!! p) = false →
     ∃ w', rupdate smp m w = (w', rec_result smp m) ∧
       rcalls w' = rcalls w ++ replicate (rec_depth smp m) a ∧
       rec_ready smp k p a w' ∧ rkeys (rk w') = rkeys (rk w)) →
  ∃ w', rupdate smp (S (S (S m))) w = (w', rec_result smp m) ∧
    rcalls w' = rcalls w ++ a :: replicate (rec_depth smp m) a ∧
    rec_ready smp k p a w' ∧ rkeys (rk w') = rkeys (rk w).
Proof.
  intros Hx Hm Hw Hl IH. unfold rec_need in Hm. pose proof Hw as (H1 & H2 & H3 & _).
  assert (k ∈ PyDict.keys (rkeys (rk w))) as (pre & post & Hs & Hpre)%list_elem_of_split_l
    by (apply PyDict.get_elem_of_keys; by rewrite H3).
  rewrite (rupdate_focused smp m w (pre ++ k :: post)) by (done || lia).
  set (d := rkeys (rk w)) in *.
  destruct (rec_released (S (S (S m))) (rupdate smp m) d pre w) as (w1 & Hw1 & Hd1 & Hc1 & Hl1 & Hrun1);
    [lia|done|done|apply Forall_forall; intros j Hj'; split; [by intros ->|rewrite Hs; set_solver]|].
  rewrite Hrun1, (ritems_cons _ _ k p _ w1 Hd1 H3).
  set (w3 := mkRWorld (rk (ents_set w1 p (set_hpressed true))) (rcalls w1 ++ [a])).
  destruct (IH w3) as (w4 & Hrun4 & Hc4 & Hw4 & Hd4).
  { exact (rec_ready_set w1 p (set_hpressed true) (λ _, eq_refl) (λ _, eq_refl) (or_introl eq_refl) Hw1). }
  { change (rk w3) with (rk (ents_set w1 p (set_hpressed true))). rewrite ents_set_lookup, decide_True by done.
    cbn. by rewrite Hl1. }
  assert (rupdate_key smp (S (S (S m))) (rupdate smp m) k p w1 =
            match rec_result smp m with
            | inl e => (w4, inl e) | inr _ => (ents_set w4 p (set_hlatch true), inr ()) end) as Hk1.
  { rewrite rupdate_key_run, resolved_self by (destruct Hw1 as (_ & _ & _ & ? & _); done).
    rewrite rec_remap_k by (done || lia || by rewrite Hl1). cbv zeta.
    change (rcalls (ents_set w1 p (set_hpressed true))) with (rcalls w1). fold w3.
    rewrite Hx. cbn [reffect]. rewrite Hrun4.
    by destruct (rec_result smp m). }
  assert (rcalls w4 = rcalls w ++ a :: replicate (rec_depth smp m) a) as Hc.
  { rewrite Hc4. cbn [rcalls w3]. rewrite Hc1. by rewrite <- app_assoc. }
  destruct (rec_result smp m) as [e|[]].
  - rewrite (bind_err _ _ _ _ _ Hk1). exists w4. split_and!; [done|done|done|rewrite Hd4; exact Hd1].
  - rewrite (bind_ok _ _ _ _ _ Hk1).
    assert (NoDup (pre ++ k :: post)) as Hnd by (rewrite <- Hs; exact H2).
    destruct (rec_released (S (S (S m))) (rupdate smp m) d post (ents_set w4 p (set_hlatch true)))
      as (w6 & Hw6 & Hd6 & Hc6 & _ & Hrun6); [lia|by apply rec_ready_set; [done|done|left|done]|change (rkeys (rk (ents_set w4 p (set_hlatch true)))) with (rkeys (rk w4)); rewrite Hd4; exact Hd1| |].
    { apply Forall_forall. intros j Hj'. split; [|rewrite Hs; set_solver].
      intros ->. apply NoDup_app in Hnd as (_ & _ & Hnd). by apply NoDup_cons in Hnd as [? _]. }
    rewrite <- (app_nil_r post), Hrun6, ritems_nil by done.
    exists w6. split_and!; [done| |done|by rewrite Hd6]. by rewrite Hc6.
Qed.
End recursion.

Lemma rec_result_returns smp n :
  key_frames smp ≤ 3 + win_frames smp → 1 ≤ win_frames smp → 1 ≤ n → rec_result smp n = inr ().
Proof.
  intros Hk Hw Hn. unfold rec_result, rec_depth, rec_need.
  replace (Nat.max (3 + win_frames smp) (key_frames smp)) with (3 + win_frames smp) by lia.
  destruct (decide (3 + win_frames smp ≤ n)); [|by rewrite decide_True by lia].
  pose proof (Nat.div_mod (n - (3 + win_frames smp)) 3 ltac:(lia)).
  pose proof (Nat.mod_upper_bound (n - (3 + win_frames smp)) 3 ltac:(lia)).
  rewrite decide_True; [done|lia].
Qed.

(** C32. A head callback that calls [update()] recurses until the frames
    run out, and it is [__is_app_active]'s bare [except] that usually
    stops it.  [update] sets the latch ([remap[2] = 1]) only after
    [__call_bind] returns, so each nested poll, three frames deeper,
    sees the key pressed and unlatched and calls the head again; this
    goes on while a poll has the frames of [__is_app_active]'s window
    query and of [keyboard.is_pressed].  From a state where only [k]
    fires ([rec_ready]), a poll with [n] frames left calls the head
    [rec_depth smp n] times and ends as the innermost poll does
    ([rec_result]).  When [keyboard.is_pressed] nests no deeper than
    [__is_app_active] with its window query ([key_frames ≤ 3 +
    win_frames]) and the query takes a frame more than the two every
    query takes, the [RecursionError] is always raised inside the [try]
    of [__is_app_active] and swallowed there: the innermost [update]
    returns as if the window were not focused, and the whole poll
    returns normally. *)
Theorem rupdate_recursive_head smp k p a w n :
  rec_ready smp k p a w → hlatch (ents (rk w) !!! p) = false →
  body smp a = [EUpdate] → ris_pressed smp k = true → (∀ j, j ≠ k → ris_pressed smp j = false) →
  (∃ w', rupdate smp n w = (w', rec_result smp n) ∧
     rcalls w' = rcalls w ++ replicate (rec_depth smp n) a) ∧
  (key_frames smp ≤ 3 + win_frames smp → 1 ≤ win_frames smp → 1 ≤ n → rec_result smp n = inr ()).
Proof.
  intros Hw Hl Ha Hk Hj. split; [|apply rec_result_returns].
  enough (∃ w', rupdate smp n w = (w', rec_result smp n) ∧
            rcalls w' = rcalls w ++ replicate (rec_depth smp n) a ∧
            rec_ready smp k p a w' ∧ rkeys (rk w') = rkeys (rk w)) as (w' & ? & ? & _) by eauto.
  revert w Hw Hl. induction n as [n IH] using (well_founded_induction lt_wf). intros w Hw Hl.
  destruct (decide (rec_need smp ≤ n)) as [Hm|Hm].
  - destruct (rec_depth_pass smp n Hm) as [-> ->]. unfold rec_need in Hm.
    destruct n as [|[|[|m]]]; [lia..|]. replace (S (S (S m)) - 3) with m by lia.
    apply (rec_level_pass smp k p a EUpdate Ha Hk Hj m w); [done|unfold rec_need; lia|done|done|]. intros w' Hw' Hl'. apply IH; [lia|done|done].
  - assert (n < rec_need smp) by lia. exists w.
    rewrite (rec_level_stop smp k p a EUpdate Ha Hk Hj n w), rec_depth_stop by done. by rewrite app_nil_r.
Qed.

(** ** A head that adds or removes a key *)

(** A method call that changes the number of keys: [add_key] of a key
    that is not registered, [remove_key] of one that is. *)
Definition resizes (d : PyDict.dict loc) (c : api_call) : Prop :=
  match c with
  | AddKey j _ _ => j ∉ PyDict.keys d
  | RemoveKey j => j ∈ PyDict.keys d
  | _ => False
  end.

Lemma rapi_resizes c s :
  resizes (rkeys s) c → ∃ s', rapi c s = (s', inr ()) ∧ length (rkeys s') ≠ length (rkeys s).
Proof.
  destruct c as [j r t|j|j|j t|j h t tg|j hl tl tg|j|j ht f|j j'|j]; cbn [resizes]; try done; intros Hc.
  - eexists. split; [reflexivity|]. unfold set_rkeys. cbn [rkeys].
    rewrite PyDict.setitem_fresh by done. rewrite length_app. simpl. lia.
  - destruct (proj2 (PyDict.get_elem_of_keys (rkeys s) j) Hc) as [v Hv].
    eexists. split; [unfold rapi, rremove_key, rget; py_unfold; cbn; by rewrite Hv|].
    unfold set_rkeys. cbn [rkeys]. pose proof (PyDict.length_pop (rkeys s) j Hc). lia.
Qed.

(** C34. A head callback that adds a new key or removes a registered one
    while [update] iterates [self.keys.items()] makes the poll raise
    [RuntimeError] ("dictionary changed size during iteration") at the
    iterator's next step, also when its key is the last one: from a state
    where only [k] fires ([rec_ready]), with the frames the poll needs,
    the head is called once, the change of the dict stays, and the poll
    ends there. *)
Theorem rupdate_resize_raises smp k p a c w n :
  rec_ready smp k p a w → hlatch (ents (rk w) !!! p) = false →
  body smp a = [EApi c] → resizes (rkeys (rk w)) c →
  ris_pressed smp k = true → (∀ j, j ≠ k → ris_pressed smp j = false) →
  3 + win_frames smp ≤ n → key_frames smp ≤ n →
  ∃ w', rupdate smp n w = (w', inl RuntimeError) ∧ rcalls w' = rcalls w ++ [a] ∧
    length (rkeys (rk w')) ≠ length (rkeys (rk w)).
Proof.
  intros Hw Hl Ha Hc Hk Hj Hwn Hkn. pose proof Hw as (H1 & H2 & H3 & _).
  assert (k ∈ PyDict.keys (rkeys (rk w))) as (pre & post & Hs & Hpre)%list_elem_of_split_l
    by (apply PyDict.get_elem_of_keys; by rewrite H3).
  destruct n as [|[|[|m]]]; [lia..|].
  rewrite (rupdate_focused smp m w (pre ++ k :: post)) by (done || lia).
  set (d := rkeys (rk w)) in *.
  destruct (rec_released smp k p a Hk Hj (S (S (S m))) (rupdate smp m) d pre w)
    as (w1 & Hw1 & Hd1 & Hc1 & Hl1 & Hrun1);
    [lia|done|done|apply Forall_forall; intros j Hj'; split; [by intros ->|rewrite Hs; set_solver]|].
  rewrite Hrun1, (ritems_cons _ _ k p _ w1 Hd1 H3).
  set (w3 := mkRWorld (rk (ents_set w1 p (set_hpressed true))) (rcalls w1 ++ [a])).
  destruct (rapi_resizes c (rk w3)) as (s' & Hs' & Hlen); [change (rkeys (rk w3)) with (rkeys (rk w1)); by rewrite Hd1|].
  assert (rupdate_key smp (S (S (S m))) (rupdate smp m) k p w1 =
            (ents_set (mkRWorld s' (rcalls w3)) p (set_hlatch true), inr ())) as Hk1.
  { rewrite rupdate_key_run, resolved_self by (destruct Hw1 as (_ & _ & _ & ? & _); done).
    rewrite (rec_remap_k smp k p a (EApi c) Ha Hk Hj) by (done || lia || by rewrite Hl1). cbv zeta.
    change (rcalls (ents_set w1 p (set_hpressed true))) with (rcalls w1). fold w3.
    cbn [reffect]. by rewrite (rlift_ok _ _ _ _ Hs'). }
  rewrite (bind_ok _ _ _ _ _ Hk1), ritems_resized.
  - eexists. split_and!; [done|cbn; by rewrite Hc1|]. cbn. change (rkeys (rk w3)) with (rkeys (rk w1)) in Hlen.
    by rewrite Hd1 in Hlen.
  - cbn. change (rkeys (rk w3)) with (rkeys (rk w1)) in Hlen. by rewrite Hd1 in Hlen.
Qed.

End ReentrantCalls.
