(* ===== verification/ReentrantTyped.v ===== *)
(** * ReentrantTyped: the object graph stays well typed

    In [src/Keyboard_binding.py] every value of [self.keys] is a list whose
    slot [4] holds two lists, and nothing in the code checks it; a method
    that subscripts a dangling or ill-kinded reference would raise or
    corrupt another object.  [rtyped] states, on the object store of
    [Reentrant], that every reference points to a live object of the
    right kind and that no entry object is shared between keys.  The
    methods keep it ([rapi_typed], proved by splitting each method along
    its code with the Hoare-style lemmas [pt_*] over [rtyped_at X Y], the
    invariant with the references a method holds in its local variables),
    and so does a poll whatever its callbacks do ([rupdate_typed]); hence
    every reachable state is typed ([rreachable_typed]). *)

From S2P Require Import Prelude PyDict Registry Aliasing Reentrant.

Module ReentrantTyped.
Import Registry Aliasing Reentrant.Reentrant.

(** ** Every reference points to a live object of its kind *)

(** The store is well typed: the keys are distinct, every key holds an
    entry object, every entry object's slot [4] holds two list objects,
    no object is both an entry and a list, every object is older than
    [rnext], and no entry object is held by two keys. *)
Definition rtyped (s : rkb) : Prop :=
  PyDict.wf (rkeys s) ∧
  Forall (λ p, p ∈ dom (ents s)) (snd <$> rkeys s) ∧
  map_Forall (λ _ e, hheads e ∈ dom (rheap s) ∧ htails e ∈ dom (rheap s)) (ents s) ∧
  dom (ents s) ## dom (rheap s) ∧
  set_Forall (λ p, p < rnext s) (dom (ents s) ∪ dom (rheap s)) ∧
  NoDup (snd <$> rkeys s).

(** [rtyped], with the objects [X] known to be entries and [Y] lists:
    the references a method holds in its local variables. *)
Definition rtyped_at (X Y : gset loc) (s : rkb) : Prop :=
  rtyped s ∧ X ⊆ dom (ents s) ∧ Y ⊆ dom (rheap s).

Lemma typed_weaken X Y X' Y' s : X' ⊆ X → Y' ⊆ Y → rtyped_at X Y s → rtyped_at X' Y' s.
Proof. intros ?? (? & ? & ?). split_and!; [done|set_solver|set_solver]. Qed.

Section typed_store.
Context (X Y : gset loc) (s : rkb) (Hs : rtyped_at X Y s).

Lemma typed_entry_lists p :
  p ∈ dom (ents s) → hheads (ents s !!! p) ∈ dom (rheap s) ∧ htails (ents s !!! p) ∈ dom (rheap s).
Proof.
  intros [e He]%elem_of_dom. destruct Hs as [(_ & _ & H3 & _) _].
  rewrite (lookup_total_correct _ _ _ He). exact (H3 _ _ He).
Qed.

Lemma typed_get k p : PyDict.get (rkeys s) k = Some p → p ∈ dom (ents s).
Proof.
  intros Hk. destruct Hs as [(_ & H2 & _) _]. rewrite Forall_forall in H2.
  apply H2. by eapply PyDict.get_values.
Qed.

Lemma typed_s_ents p e :
  p ∈ dom (ents s) → hheads e ∈ dom (rheap s) → htails e ∈ dom (rheap s) →
  rtyped_at X Y (s_ents p e s).
Proof.
  intros Hp Hh Ht. destruct Hs as [(H1 & H2 & H3 & H4 & H5 & H6) [HX HY]].
  unfold rtyped_at, rtyped, s_ents; cbn [ents rheap rkeys rnext].
  rewrite dom_insert_L. replace ({[p]} ∪ dom (ents s)) with (dom (ents s)) by set_solver.
  split_and!; auto. by apply map_Forall_insert_2.
Qed.

Lemma typed_s_heap q l : q ∈ dom (rheap s) → rtyped_at X Y (s_heap q l s).
Proof.
  intros Hq. destruct Hs as [(H1 & H2 & H3 & H4 & H5 & H6) [HX HY]].
  unfold rtyped_at, rtyped, s_heap; cbn [ents rheap rkeys rnext].
  rewrite dom_insert_L. replace ({[q]} ∪ dom (rheap s)) with (dom (rheap s)) by set_solver.
  by split_and!.
Qed.

Lemma typed_s_alloc_list l : rtyped_at X ({[rnext s]} ∪ Y) (s_alloc_list l s).
Proof.
  destruct Hs as [(H1 & H2 & H3 & H4 & H5 & H6) [HX HY]].
  unfold rtyped_at, rtyped, s_alloc_list; cbn [ents rheap rkeys rnext]. rewrite dom_insert_L.
  assert (rnext s ∉ dom (ents s)) by (intros ?%(λ H, H5 _ (elem_of_union_l _ _ _ H)); lia).
  split_and!; [done|done| |set_solver| |done|done|set_solver].
  - eapply map_Forall_impl; [exact H3|]. intros _ e []. set_solver.
  - intros p [Hp|[->%elem_of_singleton|Hp]%elem_of_union]%elem_of_union; [|lia|];
      (assert (p < rnext s) by (apply H5; set_solver)); lia.
Qed.

Lemma typed_s_alloc_entry e :
  hheads e ∈ dom (rheap s) → htails e ∈ dom (rheap s) →
  rtyped_at ({[rnext s]} ∪ X) Y (s_alloc_entry e s).
Proof.
  intros Hh Ht. destruct Hs as [(H1 & H2 & H3 & H4 & H5 & H6) [HX HY]].
  unfold rtyped_at, rtyped, s_alloc_entry; cbn [ents rheap rkeys rnext]. rewrite dom_insert_L.
  assert (rnext s ∉ dom (rheap s)) by (intros ?%(λ H, H5 _ (elem_of_union_r _ _ _ H)); lia).
  split_and!; [done| | |set_solver| |done|set_solver|done].
  - eapply Forall_impl; [exact H2|]. set_solver.
  - by apply map_Forall_insert_2.
  - intros p [[->%elem_of_singleton|Hp]%elem_of_union|Hp]%elem_of_union; [lia| |];
      (assert (p < rnext s) by (apply H5; set_solver)); lia.
Qed.

Lemma typed_set_rkeys (d : PyDict.dict loc) :
  PyDict.wf d → Forall (λ p, p ∈ dom (ents s)) (snd <$> d) → NoDup (snd <$> d) →
  rtyped_at X Y (set_rkeys d s).
Proof.
  intros Hd Hv Hnd. destruct Hs as [(H1 & H2 & H3 & H4 & H5 & H6) [HX HY]].
  unfold rtyped_at, rtyped, set_rkeys; cbn [ents rheap rkeys rnext]. by split_and!.
Qed.
End typed_store.

(** *** The methods keep the store typed *)

Section typed_ops.
Context (X Y : gset loc).
Notation T := (rtyped_at X Y).

Lemma pt_rget {A} k (g : option loc → RPy A) :
  (∀ p, preserves (rtyped_at ({[p]} ∪ X) Y) (g (Some p))) → preserves T (g None) →
  preserves T (rget k ≫= g).
Proof.
  intros Hs Hn s Hs0. unfold rget. py_unfold. cbn.
  destruct (PyDict.get (rkeys s) k) as [p|] eqn:Hk; [|by apply Hn].
  eapply typed_weaken, Hs; [set_solver|done|]. destruct Hs0 as (? & ? & ?).
  split_and!; [done| |done]. apply union_subseteq; split; [|done].
  apply singleton_subseteq_l. by eapply typed_get.
Qed.

Lemma pt_rentry {A} p (g : HEntry → RPy A) :
  p ∈ X → (∀ e, preserves (rtyped_at X ({[hheads e; htails e]} ∪ Y)) (g e)) →
  preserves T (rentry p ≫= g).
Proof.
  intros Hp Hg s Hs0. unfold rentry. py_unfold. cbn.
  eapply typed_weaken, Hg; [done|set_solver|]. destruct Hs0 as (H & HX & HY).
  destruct (typed_entry_lists X Y s (conj H (conj HX HY)) p) as [Hh Ht]; [set_solver|].
  split_and!; [done|done|set_solver].
Qed.

Lemma pt_rmutate q f : q ∈ Y → preserves T (rmutate q f).
Proof. intros Hq s Hs0. apply typed_s_heap; [done|]. destruct Hs0 as (_ & _ & HY). set_solver. Qed.

Lemma pt_rset p f :
  p ∈ X → (∀ e, hheads (f e) ∈ {[hheads e]} ∪ Y ∧ htails (f e) ∈ {[htails e]} ∪ Y) →
  preserves T (rset p f).
Proof.
  intros Hp Hf s Hs0. pose proof Hs0 as (H & HX & HY).
  destruct (typed_entry_lists X Y s Hs0 p) as [Hh Ht]; [set_solver|].
  destruct (Hf (ents s !!! p)) as [Hh' Ht'].
  apply (typed_s_ents X Y s Hs0); [by apply HX| |].
  - apply elem_of_union in Hh' as [->%elem_of_singleton|?]; [done|by apply HY].
  - apply elem_of_union in Ht' as [->%elem_of_singleton|?]; [done|by apply HY].
Qed.

Lemma pt_ralloc_list {A} l (g : loc → RPy A) :
  (∀ q, preserves (rtyped_at X ({[q]} ∪ Y)) (g q)) → preserves T (ralloc_list l ≫= g).
Proof.
  intros Hg s Hs0. py_unfold. cbn. eapply typed_weaken, Hg; [done|set_solver|].
  by apply typed_s_alloc_list.
Qed.

Lemma pt_copy {A} q (g : loc → RPy A) :
  (∀ q', preserves (rtyped_at X ({[q']} ∪ Y)) (g q')) →
  preserves T ((rload q ≫= ralloc_list) ≫= g).
Proof. intros Hg s Hs0. rewrite bind_assoc. by apply pt_ralloc_list. Qed.

Lemma pt_ralloc_entry {A} e (g : loc → RPy A) :
  hheads e ∈ Y → htails e ∈ Y → (∀ p, preserves (rtyped_at ({[p]} ∪ X) Y) (g p)) →
  preserves T (ralloc_entry e ≫= g).
Proof.
  intros Hh Ht Hg s Hs0. py_unfold. cbn. eapply typed_weaken, Hg; [set_solver|done|].
  destruct Hs0 as (? & ? & HY). apply typed_s_alloc_entry; [done|set_solver|set_solver].
Qed.

(** [self.keys[key] = [...]]: a fresh entry object under [key]. *)
Lemma pt_add_entry e k :
  hheads e ∈ Y → htails e ∈ Y →
  preserves T (ralloc_entry e ≫= λ p, modify (λ s, set_rkeys (PyDict.setitem k p (rkeys s)) s)).
Proof.
  intros Hh Ht s Hs0. pose proof Hs0 as ((Hwf & Hv & _ & _ & Hlt & Hnd) & _ & HY).
  assert (rtyped_at ({[rnext s]} ∪ X) Y (s_alloc_entry e s)) as Hs1
    by (apply typed_s_alloc_entry; [done|set_solver|set_solver]).
  change (T (set_rkeys (PyDict.setitem k (rnext s) (rkeys (s_alloc_entry e s))) (s_alloc_entry e s))).
  apply (typed_weaken ({[rnext s]} ∪ X) Y); [set_solver|done|]. apply (typed_set_rkeys _ _ _ Hs1).
  - by apply PyDict.wf_setitem.
  - unfold s_alloc_entry. cbn [ents rkeys]. rewrite dom_insert_L.
    apply PyDict.values_setitem; [|set_solver]. eapply Forall_impl; [exact Hv|]. set_solver.
  - apply PyDict.values_setitem_NoDup; [done|]. intros Hin. rewrite Forall_forall in Hv.
    pose proof (Hlt (rnext s) (elem_of_union_l _ _ _ (Hv _ Hin))) as Hc. cbv beta in Hc. lia.
Qed.

Lemma pt_pop k : preserves T (modify (E := rexn) (λ s, set_rkeys (PyDict.pop k (rkeys s)) s)).
Proof.
  intros s Hs0. pose proof Hs0 as ((Hwf & Hv & _ & _ & _ & Hnd) & _).
  apply (typed_set_rkeys X Y s Hs0); [by apply PyDict.wf_pop|by apply PyDict.values_pop|by apply PyDict.values_pop_NoDup].
Qed.
End typed_ops.

(** Split a typing goal along a method's code. *)
Ltac typed_split :=
  repeat first [ apply pt_rget; [intros ?|]
               | apply pt_rentry; [set_solver|intros ?]
               | apply pt_copy; intros ?
               | apply pt_ralloc_list; intros ?
               | apply pt_add_entry; set_solver
               | apply pt_rmutate; set_solver
               | apply pt_rset; [set_solver|intros []; cbn; set_solver]
               | apply pt_pop
               | match goal with |- preserves _ (_ ≫= _) => apply preserves_bind; [|intros ?] end
               | apply preserves_ret | apply preserves_gets | apply preserves_raise
               | case_match ].

Lemma rapi_typed X Y c : preserves (rtyped_at X Y) (rapi c).
Proof.
  destruct c; unfold rapi, radd_key, rchange_toggle, rremove_key, rremap, rbind, rbulk_bind,
    rclear_bind, rremove_bind, rswap_binds, rget_binds; typed_split.
Qed.

#[export] Instance rtyped_dec s : Decision (rtyped s).
Proof. unfold rtyped, PyDict.wf. apply _. Defined.

(** The constructor builds a typed store. *)
Lemma rinit_typed title : rtyped (rinit title).
Proof. apply (bool_decide_unpack _). vm_compute. reflexivity. Qed.

(** *** A poll keeps the store typed, whatever its callbacks do *)

Definition wt (X Y : gset loc) (w : rworld) : Prop := rtyped_at X Y (rk w).

Lemma pw_rlift {A} X Y (m : RPy A) : preserves (rtyped_at X Y) m → preserves (wt X Y) (rlift m).
Proof. intros Hm w Hw. unfold rlift. specialize (Hm (rk w) Hw). by destruct (m (rk w)). Qed.

Lemma pw_rentry {A} X Y p (g : HEntry → RUpd A) :
  p ∈ X → (∀ e, preserves (wt X ({[hheads e; htails e]} ∪ Y)) (g e)) →
  preserves (wt X Y) (rlift (rentry p) ≫= g).
Proof.
  intros Hp Hg w Hw. rewrite (bind_ok _ _ _ _ _ (rlift_rentry _ _)).
  eapply typed_weaken, Hg; [done|set_solver|]. destruct Hw as (H & HX & HY).
  destruct (typed_entry_lists X Y (rk w) (conj H (conj HX HY)) p) as [Hh Ht]; [set_solver|].
  split_and!; [done|done|set_solver].
Qed.

Lemma pw_rresolve {A} X Y k v (g : loc → RUpd A) :
  v ∈ X → (∀ r, preserves (wt ({[r]} ∪ X) Y) (g r)) →
  preserves (wt X Y) (rlift (rresolve k v) ≫= g).
Proof.
  intros Hv Hg w Hw. rewrite (bind_ok _ _ _ w _ (rlift_ok _ _ _ _ (rresolve_run _ _ _))).
  eapply typed_weaken, Hg; [set_solver|done|]. pose proof Hw as (H & HX & HY).
  split_and!; [done| |done]. apply union_subseteq; split; [|done]. apply singleton_subseteq_l.
  destruct (resolved_in (rk w) k v) as [->|[j Hj]]; [set_solver|by eapply typed_get].
Qed.

Lemma pw_log X Y a : preserves (E := rexn) (wt X Y) (modify (λ w, mkRWorld (rk w) (rcalls w ++ [a]))).
Proof. by intros w. Qed.

Lemma pw_ritems X Y n0 ks0 f ks :
  (∀ k v, preserves (wt ({[v]} ∪ X) Y) (f k v)) → preserves (wt X Y) (ritems n0 ks0 f ks).
Proof.
  intros Hf. induction ks as [|k ks IH]; intros w Hw; cbn [ritems];
    destruct (items_check_cases n0 ks0 w) as [Hc|[e Hc]];
    try by rewrite (bind_err _ _ _ _ _ Hc).
  { by rewrite (bind_ok _ _ _ _ _ Hc). }
  rewrite (bind_ok _ _ _ _ _ Hc). cbv beta iota. destruct (PyDict.get (rkeys (rk w)) k) as [v|] eqn:Hk; [|by apply IH].
  assert (wt X Y (f k v w).1) as Hw1.
  { eapply typed_weaken, Hf; [set_solver|done|]. destruct Hw as (H & HX & HY).
    split_and!; [done| |done]. apply union_subseteq; split; [|done].
    apply singleton_subseteq_l. by eapply (typed_get X Y). }
  destruct (f k v w) as [w1 [e|[]]] eqn:E.
  - by rewrite (bind_err _ _ _ _ _ E).
  - rewrite (bind_ok _ _ _ _ _ E). by apply IH.
Qed.

Section poll_typed.
Context (smp : rsample) (n : nat) (upd : RUpd unit) (Hu : ∀ X Y, preserves (wt X Y) upd).

Ltac poll_typed_step :=
  first [ match goal with |- preserves _ (rlift (rentry _) ≫= _) =>
            apply pw_rentry; [set_solver|intros ?] end
        | match goal with |- preserves _ (rlift (rresolve _ _) ≫= _) =>
            apply pw_rresolve; [set_solver|intros ?] end
        | apply pw_rlift; first [apply rapi_typed | typed_split]
        | apply pw_log
        | apply Hu
        | match goal with |- preserves _ (rkey_pressed _ _ _) => unfold rkey_pressed end
        | match goal with |- preserves _ (ris_app_active_at _ _) => unfold ris_app_active_at end
        | match goal with |- preserves _ (_ ≫= _) => apply preserves_bind; [|intros ?] end
        | match goal with |- preserves _ (for_ _ _) => apply preserves_for; intros ? end
        | apply preserves_ret | apply preserves_gets | apply preserves_raise
        | case_match ].

Lemma rcall_typed X Y a : preserves (wt X Y) (rcall smp upd a).
Proof. unfold rcall, reffect. repeat poll_typed_step. Qed.

Lemma rcall_bind_typed X Y p index : p ∈ X → preserves (wt X Y) (rcall_bind smp upd p index).
Proof. intros Hp. unfold rcall_bind, rcall_at. repeat poll_typed_step. apply rcall_typed. Qed.

Ltac poll_typed_split :=
  repeat first [ match goal with |- preserves _ (rcall_bind _ _ _ _) =>
                   apply rcall_bind_typed; set_solver end
               | poll_typed_step ].

Lemma rupdate_key_typed X Y k v : v ∈ X → preserves (wt X Y) (rupdate_key smp n upd k v).
Proof.
  intros Hv. unfold rupdate_key, rupdate_remap. poll_typed_split.
Qed.

Lemma rpoll_typed X Y : preserves (wt X Y) (rpoll smp n upd).
Proof.
  unfold rpoll. poll_typed_split. apply pw_ritems. intros k v. apply rupdate_key_typed. set_solver.
Qed.
End poll_typed.

Lemma rupdate_typed smp n X Y : preserves (wt X Y) (rupdate smp n).
Proof.
  revert X Y. induction n as [n IH] using (well_founded_induction lt_wf). intros X Y.
  destruct n as [|[|[|m]]]; apply rpoll_typed; intros X' Y'; [apply preserves_raise..|apply IH; lia].
Qed.

Lemma rtyped_at_empty s : rtyped_at ∅ ∅ s ↔ rtyped s.
Proof. unfold rtyped_at. set_solver. Qed.

(** The worlds a program that builds the object and then, in any order,
    calls the API and lets the driver loop poll (with any callbacks, any
    number of frames left) can reach; a raising step leaves its state. *)
Inductive rreachable (title : string) : rworld → Prop :=
  | rreach_init : rreachable title (mkRWorld (rinit title) [])
  | rreach_api c w : rreachable title w → rreachable title (rlift (rapi c) w).1
  | rreach_poll smp n w : rreachable title w → rreachable title (rupdate smp n w).1.

(** Type safety of the object graph: in every reachable state, also
    after polls whose callbacks call any method of the object (or
    [update]) and after raising steps, the key dict has distinct keys,
    every key holds a live entry object, every entry's slot [4] holds two
    live list objects, no object is both an entry and a list, and the
    object counter is fresh. *)
Theorem rreachable_typed title w : rreachable title w → rtyped (rk w).
Proof.
  induction 1 as [|c w _ IH|smp n w _ IH]; [apply rinit_typed| |];
    apply rtyped_at_empty; apply rtyped_at_empty in IH.
  - by apply (pw_rlift ∅ ∅ _ (rapi_typed ∅ ∅ c)).
  - by apply (rupdate_typed smp n ∅ ∅).
Qed.

End ReentrantTyped.
