(* ===== verification/ReentrantRefines.v ===== *)
(** * ReentrantRefines: the object-store poll refines [Dispatch.update]

    When every callback only returns or raises (no call back into the
    object), the poll of [Reentrant] over entry and list objects behaves as
    the value model's [Dispatch.update]: reading the store through [rview]
    (each key's entry object, its two list objects dereferenced) gives the
    value model's object, the calls are the same, and the exceptions
    correspond ([res_map]).  The store model's checks (the dict's size and
    keys at each step of [items()], the re-reading of the list at each step
    of [__call_bind]) never fire there.  So every theorem of [Dispatch] and
    [Polling] holds of the store model for such callbacks. *)

From S2P Require Import Prelude PyDict Registry Aliasing Dispatch Reentrant.

Module ReentrantRefines.
Import Registry Aliasing Dispatch Reentrant.Reentrant.

(** ** The value view of the object store *)

Definition rderef (s : rkb) (p : loc) : KeyEntry := deref_entry (rheap s) (ents s !!! p).

Definition rview (s : rkb) : keyboard_binding :=
  mkKB (rAPP_TITLE s) (PyDict.map_values (λ _, rderef s) (rkeys s)).

Definition rview_w (w : rworld) : world := mkWorld (rview (rk w)) (rcalls w).

Definition to_rexn (e : exn) : rexn :=
  match e with
  | TypeError => RTypeError
  | ActionRaised a => RActionRaised a
  end.

Definition res_map {A} (r : exn + A) : rexn + A :=
  match r with
  | inl e => inl (to_rexn e)
  | inr x => inr x
  end.

(** Callbacks that do not call back into the object: each returns or
    raises. *)
Definition pure_cb (smp : rsample) : Prop := ∀ a, body smp a = [] ∨ body smp a = [ERaise].

(** The value model's sample of a poll with such callbacks. *)
Definition to_sample (smp : rsample) : sample :=
  mkSample (ractive_window smp) (ris_pressed smp) (λ a, bool_decide (body smp a = [ERaise])).

(** ** Writing an entry object is altering the key that holds it *)

Lemma map_values_lookup_ne (h : gmap loc (list action)) (E : gmap loc HEntry) r x
    (d : PyDict.dict loc) :
  r ∉ snd <$> d →
  PyDict.map_values (λ _ p, deref_entry h (<[r := x]> E !!! p)) d =
  PyDict.map_values (λ _ p, deref_entry h (E !!! p)) d.
Proof.
  induction d as [|[k p] d IH]; intros Hr; [done|]. cbn in Hr.
  rewrite !PyDict.map_values_cons, IH by set_solver. by rewrite lookup_total_insert_ne by set_solver.
Qed.

Lemma map_values_insert (h : gmap loc (list action)) (E : gmap loc HEntry) (d : PyDict.dict loc)
    ek r g g' :
  NoDup (snd <$> d) → PyDict.get d ek = Some r →
  (∀ e, deref_entry h (g e) = g' (deref_entry h e)) →
  PyDict.map_values (λ _ p, deref_entry h (<[r := g (E !!! r)]> E !!! p)) d =
  PyDict.alter g' ek (PyDict.map_values (λ _ p, deref_entry h (E !!! p)) d).
Proof.
  intros Hnd Hk Hg. induction d as [|[k p] d IH]; [done|]. cbn in Hnd, Hk.
  apply NoDup_cons in Hnd as [Hp Hnd]. rewrite !PyDict.map_values_cons. cbn [PyDict.alter].
  destruct (decide (ek = k)) as [->|Hek]; cbv iota in Hk |- *.
  - injection Hk as ->. rewrite lookup_total_insert_eq, Hg. by rewrite map_values_lookup_ne.
  - rewrite lookup_total_insert_ne, IH; [done|done|done|].
    intros ->. apply Hp. by eapply PyDict.get_values.
Qed.

Lemma rview_set s ek r g g' :
  NoDup (snd <$> rkeys s) → PyDict.get (rkeys s) ek = Some r →
  (∀ e, deref_entry (rheap s) (g e) = g' (deref_entry (rheap s) e)) →
  rview (s_ents r (g (ents s !!! r)) s) = set_keys (PyDict.alter g' ek (keys (rview s))) (rview s).
Proof.
  intros Hnd Hk Hg. unfold rview, rderef, set_keys. cbn. f_equal.
  unfold s_ents. cbn. by apply map_values_insert.
Qed.

Lemma deref_set_hpressed h b e : deref_entry h (set_hpressed b e) = set_pressed b (deref_entry h e).
Proof. by destruct e. Qed.

Lemma deref_set_hlatch h b e : deref_entry h (set_hlatch b e) = set_latch b (deref_entry h e).
Proof. by destruct e. Qed.

(** [remap[i] = ...] on the effective entry object is [alter_entry] on
    the effective key. *)
Lemma rview_ents_set w ek r g g' :
  NoDup (snd <$> rkeys (rk w)) → PyDict.get (rkeys (rk w)) ek = Some r →
  (∀ e, deref_entry (rheap (rk w)) (g e) = g' (deref_entry (rheap (rk w)) e)) →
  rview_w (ents_set w r g) = (lift (alter_entry g' ek) (rview_w w)).1.
Proof. intros. rewrite lift_alter_run. unfold rview_w, ents_set. cbn. f_equal. by apply rview_set. Qed.

(** The effective entry: [resolve] on the view is [resolved] on the store. *)
Lemma rview_resolve s k v :
  PyDict.get (rkeys s) k = Some v →
  (resolve (keys (rview s)) k (rderef s v)).2 = rderef s (resolved s k v) ∧
  PyDict.get (rkeys s) (resolve (keys (rview s)) k (rderef s v)).1 = Some (resolved s k v).
Proof.
  intros Hk. unfold resolve, resolved, rview. cbn [keys].
  replace (target (rderef s v)) with (htarget (ents s !!! v)) by done.
  case_decide; [|by split]. rewrite PyDict.get_map_values.
  destruct (PyDict.get (rkeys s) (htarget (ents s !!! v))) eqn:E; cbn; by split.
Qed.

(** ** Calling the lists *)

Section pure.
Context (smp : rsample) (Hpure : pure_cb smp) (u : RUpd unit).

Lemma rcall_pure_run a w :
  rcall smp u a w =
    (mkRWorld (rk w) (rcalls w ++ [a]),
     if raises (to_sample smp) a then inl (RActionRaised a) else inr ()).
Proof.
  rewrite rcall_run. cbn [raises to_sample].
  destruct (Hpure a) as [H|H]; rewrite H; [rewrite bool_decide_false by done|rewrite bool_decide_true by done];
    reflexivity.
Qed.

(** The callbacks of a list, called in turn, log and raise as the value
    model's [call_bind], and leave the store as it was. *)
Lemma for_rcall_sim l w W :
  calls W = rcalls w →
  for_ (rcall smp u) l w =
    (mkRWorld (rk w) (calls (call_bind (to_sample smp) l W).1),
     res_map (call_bind (to_sample smp) l W).2).
Proof.
  unfold call_bind. revert w W. induction l as [|a l IH]; intros w W Hc; cbn [for_].
  { cbn. by rewrite Hc. }
  py_unfold. rewrite rcall_pure_run. unfold call.
  destruct (raises (to_sample smp) a); cbn; [by rewrite Hc|].
  rewrite (IH _ (mkWorld (kb W) (calls W ++ [a]))); cbn; [done|by rewrite Hc].
Qed.

(** With callbacks that do not touch the object, the fixed [range] and
    the re-reading of the list at each step are the plain loop over the
    list. *)
Lemma rcall_at_for p index l0 l i w :
  cur_list w p index = l0 ++ l → i = length l0 →
  for_ (rcall_at smp u p index) (seq i (length l)) w = for_ (rcall smp u) l w.
Proof.
  revert l0 i w. induction l as [|a l IH]; intros l0 i w Hl ->; [done|]. cbn [length seq for_].
  assert (rcall_at smp u p index (length l0) w = rcall smp u a w) as Ha
    by (rewrite rcall_at_run, Hl; by rewrite list_lookup_middle).
  py_unfold. rewrite Ha, rcall_pure_run. destruct (raises _ a); [done|].
  apply (IH (l0 ++ [a])); [by rewrite <- app_assoc|by rewrite length_app, Nat.add_1_r].
Qed.

Lemma rcall_bind_for p index w :
  rcall_bind smp u p index w = for_ (rcall smp u) (cur_list w p index) w.
Proof. rewrite rcall_bind_run. by apply (rcall_at_for p index []). Qed.
End pure.

(** ** The simulation *)

(** [m] run from [w] and [M] run from the view of [w] end in related
    states (the view of the one is the other) with corresponding results,
    and the store model's final state satisfies [P]. *)
Definition sim_at {A} (m : RUpd A) (M : Upd A) (w : rworld) (P : rworld → Prop) : Prop :=
  (m w).2 = res_map (M (rview_w w)).2 ∧ (M (rview_w w)).1 = rview_w (m w).1 ∧ P (m w).1.

Lemma sim_ret {A} (x : A) w (P : rworld → Prop) : P w → sim_at (mret x) (mret x) w P.
Proof. done. Qed.

Lemma sim_bind {A B} (m : RUpd A) (M : Upd A) (f : A → RUpd B) (F : A → Upd B) w
    (P Q : rworld → Prop) :
  sim_at m M w P → (∀ w' x, P w' → sim_at (f x) (F x) w' Q) → (∀ w', P w' → Q w') →
  sim_at (m ≫= f) (M ≫= F) w Q.
Proof.
  intros (H1 & H2 & H3) Hf HPQ. unfold sim_at in *. py_unfold.
  destruct (m w) as [w1 r1], (M (rview_w w)) as [W1 [e|x]]; cbn in *; subst; [by auto|].
  by apply Hf.
Qed.

(** Reading an entry object changes nothing. *)
Lemma sim_read {B} p (g : HEntry → RUpd B) (M : Upd B) w P :
  sim_at (g (ents (rk w) !!! p)) M w P → sim_at (rlift (rentry p) ≫= g) M w P.
Proof. done. Qed.

Lemma sim_set w ek r g g' (P : rworld → Prop) :
  NoDup (snd <$> rkeys (rk w)) → PyDict.get (rkeys (rk w)) ek = Some r →
  (∀ e, deref_entry (rheap (rk w)) (g e) = g' (deref_entry (rheap (rk w)) e)) →
  P (ents_set w r g) → sim_at (rlift (rset r g)) (lift (alter_entry g' ek)) w P.
Proof.
  intros Hnd Hek Hg HP. unfold sim_at. rewrite rlift_rset. cbn [fst snd]. split_and!; [done| |done].
  by rewrite (rview_ents_set w ek r g g').
Qed.

Lemma sim_call smp u w r index l (P : rworld → Prop) :
  pure_cb smp → cur_list w r index = l → (∀ c, P (mkRWorld (rk w) c)) →
  sim_at (rcall_bind smp u r index) (call_bind (to_sample smp) l) w P.
Proof.
  intros Hp <- HP. unfold sim_at. rewrite rcall_bind_for by done.
  rewrite (for_rcall_sim smp Hp u _ w (rview_w w)) by done. cbn. split_and!; [done| |done].
  pose proof (call_bind_kb (to_sample smp) (cur_list w r index) (rview_w w)) as Hkb.
  destruct (call_bind _ _ _) as [[K c] ?]. cbn in *. by subst.
Qed.

Lemma sim_gets {A} (m : RUpd A) (F : world → Upd A) w P :
  sim_at m (F (rview_w w)) w P → sim_at m (gets id ≫= F) w P.
Proof. done. Qed.

Lemma sim_gets_r {A} (F : rworld → RUpd A) (M : Upd A) w P :
  sim_at (F w) M w P → sim_at (gets id ≫= F) M w P.
Proof. done. Qed.

Lemma get_rview s k v : PyDict.get (rkeys s) k = Some v → PyDict.get (keys (rview s)) k = Some (rderef s v).
Proof. intros Hk. unfold rview. cbn. by rewrite PyDict.get_map_values, Hk. Qed.

(** A step of the store model that neither changes the state nor raises. *)
Lemma sim_ok_l {A B} (m : RUpd A) (F : A → RUpd B) (M : Upd B) w P x :
  m w = (w, inr x) → sim_at (F x) M w P → sim_at (m ≫= F) M w P.
Proof. intros Hm. unfold sim_at. by rewrite (bind_ok _ _ _ _ _ Hm). Qed.

(** One iteration of the loop: [rupdate_key] on the entry object [v] of
    [k] simulates [update_key] on the view, when [keyboard.is_pressed]
    has the frames it needs. *)
Lemma rupdate_key_sim smp n u k v w :
  pure_cb smp → key_frames smp ≤ n → NoDup (snd <$> rkeys (rk w)) → PyDict.get (rkeys (rk w)) k = Some v →
  sim_at (rupdate_key smp n u k v) (update_key (to_sample smp) k) w
    (λ w', rkeys (rk w') = rkeys (rk w)).
Proof.
  intros Hp Hn Hnd Hv. unfold sim_at. rewrite rupdate_key_run.
  fold (sim_at (rupdate_remap smp n u k (resolved (rk w) k v))
    (update_key (to_sample smp) k) w (λ w', rkeys (rk w') = rkeys (rk w))).
  unfold update_key. apply sim_gets. cbv beta. cbn [rview_w kb].
  rewrite (get_rview _ _ _ Hv). cbv iota.
  destruct (rview_resolve _ _ _ Hv) as [Hrm Hek].
  destruct (resolve _ k _) as [ek rm]. cbn in Hrm, Hek. subst rm.
  set (r := resolved (rk w) k v) in *. unfold rupdate_remap. cbn [is_pressed to_sample].
  apply (sim_ok_l _ _ _ _ _ (ris_pressed smp k)); [by apply rkey_pressed_ok|]. cbv beta.
  assert (∀ g g' (P : rworld → Prop) w1, rkeys (rk w1) = rkeys (rk w) →
            (∀ e, deref_entry (rheap (rk w1)) (g e) = g' (deref_entry (rheap (rk w1)) e)) →
            P (ents_set w1 r g) → sim_at (rlift (rset r g)) (lift (alter_entry g' ek)) w1 P)
    as Hset by (intros g g' P w1 Hk1 Hg HP; apply sim_set; rewrite ?Hk1; done).
  destruct (ris_pressed smp k).
  - apply (sim_bind _ _ _ _ w (eq (ents_set w r (set_hpressed true))));
      [apply Hset; [done|apply deref_set_hpressed|done]| |by intros ? <-].
    intros w1 [] <-. apply sim_read. rewrite ents_set_lookup, decide_True by done.
    change (toggle (rderef (rk w) r)) with (htoggle (ents (rk w) !!! r)).
    change (latch (rderef (rk w) r)) with (hlatch (ents (rk w) !!! r)).
    cbn [htoggle hlatch set_hpressed].
    destruct (htoggle (ents (rk w) !!! r)), (hlatch (ents (rk w) !!! r)); try (apply sim_ret; done);
    (apply (sim_bind _ _ _ _ _ (λ w2, rk w2 = rk (ents_set w r (set_hpressed true))));
      [apply sim_call; [done|unfold cur_list; by rewrite ents_set_lookup, decide_True|done]
      |intros w2 [] Hw2; apply Hset; [by rewrite Hw2|apply deref_set_hlatch|cbn; by rewrite Hw2]
      |intros w2 ->; done]).
  - apply (sim_bind _ _ _ _ w (eq (ents_set w r (set_hpressed false))));
      [apply Hset; [done|apply deref_set_hpressed|done]| |by intros ? <-].
    intros w1 [] <-. apply sim_read. rewrite ents_set_lookup, decide_True by done.
    change (latch (rderef (rk w) r)) with (hlatch (ents (rk w) !!! r)).
    cbn [hlatch set_hpressed]. destruct (hlatch (ents (rk w) !!! r)); [|by apply sim_ret].
    apply (sim_bind _ _ _ _ _ (eq (ents_set (ents_set w r (set_hpressed false)) r (set_hlatch false))));
      [apply Hset; [done|apply deref_set_hlatch|done]| |by intros ? <-].
    intros w2 [] <-. apply sim_call; [done| |done].
    unfold cur_list. by rewrite !ents_set_lookup, !decide_True.
Qed.

Lemma sim_check {A} d0 (g : PyDict.dict loc → RUpd A) (M : Upd A) w P :
  rkeys (rk w) = d0 → sim_at (g d0) M w P →
  sim_at (items_check (length d0) (PyDict.keys d0) ≫= g) M w P.
Proof. intros Hd. unfold sim_at. by rewrite (bind_ok _ _ _ _ _ (items_check_ok _ _ Hd)). Qed.

(** The loop over [self.keys.items()], when the callbacks leave the dict
    alone, is the loop over the keys of the view. *)
Lemma ritems_sim smp n u d0 ks w :
  pure_cb smp → key_frames smp ≤ n → NoDup (snd <$> d0) → rkeys (rk w) = d0 → ks ⊆ PyDict.keys d0 →
  sim_at (ritems (length d0) (PyDict.keys d0) (rupdate_key smp n u) ks)
    (for_ (update_key (to_sample smp)) ks) w (λ w', rkeys (rk w') = d0).
Proof.
  intros Hp Hn Hnd. revert w. induction ks as [|k ks IH]; intros w Hd Hks; cbn [ritems for_];
    apply sim_check; try done; try by apply sim_ret.
  assert (k ∈ PyDict.keys d0) as [v Hv]%PyDict.get_elem_of_keys by set_solver.
  rewrite Hv. apply (sim_bind _ _ _ _ _ (λ w', rkeys (rk w') = d0)); [| |done].
  - rewrite <- Hd. apply rupdate_key_sim; rewrite ?Hd; done.
  - intros w' [] Hw'. apply IH; [done|set_solver].
Qed.

(** Refinement: when no callback calls back into the object (each
    returns or raises) and the poll has the frames its library calls
    need, the poll of the object-store model is the value model's
    [update]: reading the store
    through [rview] gives the value model's final object and call log, and
    the exceptions correspond.  Entry objects must not be shared between
    keys; the typing invariant [rtyped] of [Reentrant], which holds in every
    reachable state, includes it ([add_key] always builds a fresh one). *)
Theorem rupdate_refines smp n w :
  pure_cb smp → NoDup (snd <$> rkeys (rk w)) → 3 + win_frames smp ≤ n → key_frames smp ≤ n →
  rview_w (rupdate smp n w).1 = (update (to_sample smp) (rview_w w)).1 ∧
  (rupdate smp n w).2 = res_map (update (to_sample smp) (rview_w w)).2.
Proof.
  intros Hp Hnd Hw Hn. rewrite rupdate_unfold.
  set (u := match n with S (S (S m)) => rupdate smp m | _ => raise RecursionError end).
  enough (sim_at (rpoll smp n u) (update (to_sample smp)) w (λ _, True)) as (H1 & H2 & _) by done.
  unfold rpoll, update. apply (sim_ok_l _ _ _ _ _ (ris_app_active smp (rk w))).
  { rewrite ris_app_active_at_run. destruct n as [|n']; [lia|]. by rewrite bool_decide_eq_true_2 by lia. }
  apply sim_gets, sim_gets_r. cbv beta.
  change (is_app_active (to_sample smp) (kb (rview_w w))) with (ris_app_active smp (rk w)).
  destruct (ris_app_active smp (rk w)); [|by apply sim_ret].
  cbn [rview_w kb rview keys]. rewrite PyDict.keys_map_values.
  destruct (ritems_sim smp n u (rkeys (rk w)) (PyDict.keys (rkeys (rk w))) w)
    as (H1 & H2 & _); [done|done|done|done|done|]. done.
Qed.

End ReentrantRefines.
