(* ===== verification/ReentrantScenarios.v ===== *)
(** * ReentrantScenarios: concrete runs of the object-store poll

    The object built by the constructor ([rinit "App"]) with heads bound
    to key [a] ([bind("a", 1)], [bind("a", 2)], perhaps [bind("a", 3)]:
    [bind] inserts at the front, so the heads are [[2; 1]] or
    [[3; 2; 1]]), polled with [a] held and callbacks of several kinds, and
    the instances of the theorems of [ReentrantCalls], [ReentrantTyped]
    and [ReentrantRefines] at these inputs; and how deep a head that
    calls [update] recurses at Python's default recursion limit. *)

From S2P Require Import Prelude PyDict Registry Dispatch Aliasing Reentrant ReentrantCalls ReentrantTyped ReentrantRefines.

Module ReentrantScenarios.
Import Registry Dispatch Aliasing Reentrant.Reentrant ReentrantCalls.ReentrantCalls
  ReentrantTyped.ReentrantTyped ReentrantRefines.ReentrantRefines.

Definition title : string := "App".

(** Key [a] (entry object [2], lists [0] and [1]) with heads [[2; 1]]. *)
Definition rdemo : rkb :=
  ((rbind "a" (Some 1) None true;; rbind "a" (Some 2) None true) (rinit title)).1.

(** The same with heads [[3; 2; 1]]. *)
Definition rdemo3 : rkb :=
  ((rbind "a" (Some 1) None true;; rbind "a" (Some 2) None true;; rbind "a" (Some 3) None true)
     (rinit title)).1.

(** A focused poll in which [a] is held and callback [f] does [eff]; the
    others return.  The window query nests [2 + 3] frames, and
    [keyboard.is_pressed] [4]. *)
Definition hold_a (f : action) (eff : list effect) : rsample :=
  mkRSample (Some title) (λ k, bool_decide (k = "a"%string)) (λ a, if decide (a = f) then eff else []) 3 4.

(** Head [2] binds head [5] to [a] each time it runs: it is called twice,
    head [1] never. *)
Lemma rcall_bind_self_bind_witness :
  ∃ w', rcall_bind (hold_a 2 [EApi (Bind "a" (Some 5) None true)]) (mret ()) 2 true
          (mkRWorld rdemo []) = (w', inr ()) ∧
        rcalls w' = [] ++ replicate 2 2 ∧ cur_list w' 2 true = replicate 2 5 ++ [2; 1].
Proof.
  apply (rcall_bind_self_bind _ _ (mkRWorld rdemo []) "a" 2 2 5 [1] true);
    vm_compute; reflexivity.
Defined.

(** Head [3] removes itself: head [2] is skipped, [1] is called, and the
    last step raises [IndexError]. *)
Lemma rcall_bind_self_remove_witness :
  ∃ w', rcall_bind (hold_a 3 [EApi (RemoveBind "a" true 3)]) (mret ()) 2 true
          (mkRWorld rdemo3 []) = (w', inl IndexError) ∧
        rcalls w' = [] ++ [3; 1] ∧ cur_list w' 2 true = [2; 1].
Proof.
  apply (rcall_bind_self_remove _ _ (mkRWorld rdemo3 []) "a" 2 3 2 [1]);
    [vm_compute; reflexivity..|repeat constructor].
Defined.

(** Key [a] with the one head [2]. *)
Definition rdemo1 : rkb := (rbind "a" (Some 2) None true (rinit title)).1.

(** Head [2] calls [update()].  With Python's default recursion limit of
    1000 and [update] called from the top level of a script (depth 2), a
    poll has 998 frames left; here the window query nests five frames
    and [keyboard.is_pressed] four. *)
Lemma rupdate_recursive_head_witness :
  (∃ w', rupdate (hold_a 2 [EUpdate]) 998 (mkRWorld rdemo1 []) =
           (w', rec_result (hold_a 2 [EUpdate]) 998) ∧
         rcalls w' = [] ++ replicate (rec_depth (hold_a 2 [EUpdate]) 998) 2) ∧
  (key_frames (hold_a 2 [EUpdate]) ≤ 3 + win_frames (hold_a 2 [EUpdate]) →
   1 ≤ win_frames (hold_a 2 [EUpdate]) → 1 ≤ 998 → rec_result (hold_a 2 [EUpdate]) 998 = inr ()).
Proof.
  apply (rupdate_recursive_head _ "a" 2 2 (mkRWorld rdemo1 [])).
  - unfold rec_ready. apply (bool_decide_unpack _). vm_compute. reflexivity.
  - reflexivity.
  - reflexivity.
  - reflexivity.
  - intros j Hj. cbn. by rewrite bool_decide_false.
Defined.

(** There: the head is called 331 times, and the poll returns normally. *)
Example recursion_at_default_limit :
  rec_depth (hold_a 2 [EUpdate]) 998 = 331 ∧ rec_result (hold_a 2 [EUpdate]) 998 = inr ().
Proof. vm_compute. split; reflexivity. Qed.

(** When [keyboard.is_pressed] nests deeper than the window query (eight
    frames), the end depends on the frames the first poll had, modulo
    three: with 998 the innermost poll has 5 frames and its window query
    fails inside the [try] (the poll returns); with 999 it has 6, gets
    past [__is_app_active], and [keyboard.is_pressed] raises
    [RecursionError], which nothing catches. *)
Definition deep_keys : rsample :=
  mkRSample (Some title) (λ k, bool_decide (k = "a"%string))
    (λ a, if decide (a = 2) then [EUpdate] else []) 3 8.

Example recursion_is_pressed_deeper :
  rec_result deep_keys 998 = inr () ∧ rec_result deep_keys 999 = inl RecursionError.
Proof. vm_compute. split; reflexivity. Qed.

(** Head [2] registers a new key [F13]: the poll raises [RuntimeError] at
    the next step of [self.keys.items()]. *)
Lemma rupdate_resize_raises_witness :
  ∃ w', rupdate (hold_a 2 [EApi (AddKey "F13" None true)]) 10 (mkRWorld rdemo1 []) = (w', inl RuntimeError) ∧
    rcalls w' = [] ++ [2] ∧ length (rkeys (rk w')) ≠ length (rkeys (rk (mkRWorld rdemo1 []))).
Proof.
  apply (rupdate_resize_raises _ "a" 2 2 (AddKey "F13" None true) (mkRWorld rdemo1 [])).
  - unfold rec_ready. apply (bool_decide_unpack _). vm_compute. reflexivity.
  - reflexivity.
  - reflexivity.
  - cbn [resizes]. apply (bool_decide_unpack ("F13" ∉ _)). vm_compute. exact I.
  - reflexivity.
  - intros j Hj. cbn. by rewrite bool_decide_false.
  - cbn. lia.
  - cbn. lia.
Defined.

Lemma rreachable_typed_witness :
  rtyped (rk (rupdate (hold_a 2 [EApi (RemoveKey "b")]) 10
                (rlift (rapi (Bind "a" (Some 2) None true)) (mkRWorld (rinit title) [])).1).1).
Proof. apply (rreachable_typed title). apply rreach_poll, rreach_api, rreach_init. Defined.

(** Head [1] raises: the store poll and the value model's [update] agree. *)
Lemma rupdate_refines_witness :
  rview_w (rupdate (hold_a 1 [ERaise]) 10 (mkRWorld rdemo [])).1 =
    (update (to_sample (hold_a 1 [ERaise])) (rview_w (mkRWorld rdemo []))).1 ∧
  (rupdate (hold_a 1 [ERaise]) 10 (mkRWorld rdemo [])).2 =
    res_map (update (to_sample (hold_a 1 [ERaise])) (rview_w (mkRWorld rdemo []))).2.
Proof.
  apply rupdate_refines; [intros a; cbn; case_decide; auto| |cbn; lia|cbn; lia].
  apply (bool_decide_unpack _). vm_compute. reflexivity.
Defined.

End ReentrantScenarios.
