(* ===== verification/Scenarios.v ===== *)
(** * Scenarios: concrete runs of the program

    Concrete objects built through the API from the constructor
    ([init "App"] and the calls that follow), concrete polls, and what the
    model computes on them: the specification's example run, the run that
    shows remapping onto a key that still drives its own entry breaks edge
    mode, the mutual remap that swaps two keys, the save/load run that
    loses an empty target, and the instances
    of the general theorems at these inputs. *)

From S2P Require Import Prelude PyDict Registry Persistence KeyMachine Dispatch Polling Traces JsonFiles System Pressed Aliasing.

Module Scenarios.
Import Registry Persistence KeyMachine Dispatch Polling Traces JsonFiles System Pressed Aliasing.

Definition title : string := "App".

(** A focused poll in which only [k] may be pressed and nothing raises. *)
Definition press (k : string) (b : bool) : sample :=
  mkSample (Some title) (λ k', bool_decide (k' = k) && b) (λ _, false).

(** The specification's example: [a] bound to head [1] and tail [2]. *)
Definition demo : keyboard_binding := (bind "a" (Some 1) (Some 2) true (init title)).1.
Definition demo_a : KeyEntry := mkEntry "a" false false true [1] [2].

(** [a] remapped to [b], and [b]'s lists set to [hs] and [ts], edge mode. *)
Definition remapped (hs ts : list action) : keyboard_binding :=
  ((remap "a" "b";; bulk_bind "b" (Some hs) (Some ts) true) (init title)).1.

(** [b] remapped to [a], which comes first in the dict. *)
Definition remapped_back (hs ts : list action) : keyboard_binding :=
  ((remap "b" "a";; bulk_bind "a" (Some hs) (Some ts) true) (init title)).1.

(** [remapped_back] after one poll holding [b]: [a]'s entry is latched. *)
Definition remapped_back_held (hs ts : list action) : keyboard_binding :=
  set_keys (PyDict.alter (entry_tick true) "a" (keys (remapped_back hs ts))) (remapped_back hs ts).

(** A key added after construction and remapped to the empty string. *)
Definition empty_target : keyboard_binding :=
  ((add_key "f1" None true;; remap "f1" "") (init title)).1.

(** [a] and [b] remapped onto each other: [a] bound to [1]/[2], [b] to
    [3]/[4], edge mode. *)
Definition swapped : keyboard_binding :=
  ((remap "a" "b";; remap "b" "a";; bulk_bind "a" (Some [1]) (Some [2]) true;;
    bulk_bind "b" (Some [3]) (Some [4]) true) (init title)).1.

(** A chain [a -> b -> c]: [b] bound to [3]/[4], [c] to [5]/[6]. *)
Definition chained : keyboard_binding :=
  ((remap "a" "b";; remap "b" "c";; bulk_bind "b" (Some [3]) (Some [4]) true;;
    bulk_bind "c" (Some [5]) (Some [6]) true) (init title)).1.

(** [a] bound to [1]/[2] and remapped to [b], then [b] removed. *)
Definition dangling : keyboard_binding :=
  ((remap "a" "b";; remove_key "b") demo).1.

(** The polls of one press/release cycle of [k], held for three polls. *)
Definition cycle (k : string) : list sample :=
  [press k true; press k true; press k true; press k false].

Ltac quiet_solve :=
  split; [reflexivity|split; [intros; reflexivity|]];
  intros ? ?; simpl; rewrite bool_decide_eq_false_2 by done; reflexivity.

(** ** Lemmas *)

Lemma polls_replicate smp self L n log :
  (∀ log, update smp (mkWorld self log) = (mkWorld self (log ++ L), inr ())) →
  polls (replicate n smp) (mkWorld self log) =
    (mkWorld self (log ++ concat (replicate n L)), inr ()).
Proof.
  intros Hu. unfold polls. revert log. induction n as [|n IH]; intros log; simpl.
  - by rewrite app_nil_r.
  - rewrite (bind_ok _ _ _ _ _ (Hu log)), IH. by rewrite app_assoc.
Qed.

Lemma remapped_poll hs ts log :
  update (press "a" true) (mkWorld (remapped hs ts) log) =
    (mkWorld (remapped hs ts) (log ++ hs ++ ts), inr ()).
Proof.
  rewrite update_seq by done.
  transitivity ((mkWorld (remapped hs ts) (log ++ hs ++ ts ++ []), inr ()) : world * (exn + unit));
    [vm_compute; reflexivity|by rewrite app_nil_r].
Qed.

Lemma remapped_back_first_poll hs ts :
  update (press "b" true) (mkWorld (remapped_back hs ts) []) =
    (mkWorld (remapped_back_held hs ts) hs, inr ()).
Proof.
  rewrite update_seq by done.
  transitivity ((mkWorld (remapped_back_held hs ts) (hs ++ []), inr ()) : world * (exn + unit));
    [vm_compute; reflexivity|by rewrite app_nil_r].
Qed.

Lemma remapped_back_poll hs ts log :
  update (press "b" true) (mkWorld (remapped_back_held hs ts) log) =
    (mkWorld (remapped_back_held hs ts) (log ++ ts ++ hs), inr ()).
Proof.
  rewrite update_seq by done.
  transitivity ((mkWorld (remapped_back_held hs ts) (log ++ ts ++ hs ++ []), inr ())
                  : world * (exn + unit));
    [vm_compute; reflexivity|by rewrite app_nil_r].
Qed.

Lemma press_quiet k b : quiet k title (press k b).
Proof.
  split; [done|split; [done|]]. intros k2 Hne. simpl. by rewrite bool_decide_eq_false_2.
Qed.

(** A full press/release cycle of [k] in edge mode, from a released
    effective entry that only [k] drives. *)
Lemma edge_cycle_calls k r w n :
  solo k r (kb w) → phase_of r = Released → toggle r = true → APP_TITLE (kb w) = title →
  calls (polls (replicate (S n) (press k true) ++ [press k false]) w).1 =
    calls w ++ heads r ++ tails r.
Proof.
  intros Hs Hph Ht Htitle.
  destruct (polls_press_release k r (replicate (S n) (press k true)) (press k false) w n)
    as (w' & r' & Hp & _ & _ & Hc); rewrite ?Htitle; try done.
  - apply length_replicate.
  - apply Forall_replicate. split; [apply press_quiet|simpl; by rewrite bool_decide_eq_true_2].
  - apply press_quiet.
  - simpl. by rewrite bool_decide_eq_true_2.
  - rewrite Hp. cbn [fst]. rewrite Hc, Ht, Hph, run_edge_press_release by done. simpl.
    rewrite fmap_app, concat_app, fmap_replicate. cbn [event_actions].
    rewrite concat_replicate_nil. simpl. by rewrite app_nil_r.
Qed.

(** ** Properties *)

(** C4. Remapping breaks edge mode: after [remap("a", "b")], with [b]
    still driving its own entry and bound in edge mode to [hs] and [ts],
    holding [a] for [n] polls calls [hs] then [ts] on every poll ([a]'s
    iteration latches [b]'s entry and calls the heads, then [b]'s own
    iteration sees [b] released and calls the tails), instead of [hs] once;
    the registry is the same after every poll.  With the keys the other
    way round ([remap("b", "a")], [a] first in the dict) the first poll
    calls [hs] and every later one [ts] then [hs]. *)
Theorem remap_breaks_edge_mode hs ts n :
  polls (replicate n (press "a" true)) (mkWorld (remapped hs ts) []) =
    (mkWorld (remapped hs ts) (concat (replicate n (hs ++ ts))), inr ()) ∧
  polls (replicate (S n) (press "b" true)) (mkWorld (remapped_back hs ts) []) =
    (mkWorld (remapped_back_held hs ts) (hs ++ concat (replicate n (ts ++ hs))), inr ()).
Proof.
  split.
  - rewrite polls_replicate with (L := hs ++ ts); [done|apply remapped_poll].
  - unfold polls. simpl. rewrite (bind_ok _ _ _ _ _ (remapped_back_first_poll hs ts)).
    apply (polls_replicate _ _ (ts ++ hs)). apply remapped_back_poll.
Qed.

(** An empty target is not restored on a key the loading object
    lacks: [empty_target] maps the added key [f1] to [""]; saving it and
    loading the file into a fresh object maps [f1] to itself, because
    [add_key(k, "")] treats the empty string as "no remap". *)
Theorem empty_target_not_restored :
  target <$> PyDict.get (keys empty_target) "f1" = Some ""%string ∧
  target <$> PyDict.get (keys (load_keys (Some (save_keys empty_target)) (init title)).1) "f1"
    = Some "f1"%string.
Proof. split; vm_compute; reflexivity. Qed.

(** The specification's example scenario: with [a] bound to head
    [1] and tail [2] in edge mode, the polls pressed, pressed, pressed,
    released call [1] once, on the first poll, then [2] once. *)
Example spec_example :
  calls (polls [press "a" true; press "a" true; press "a" true; press "a" false]
           (mkWorld demo [])).1 = [1; 2].
Proof. vm_compute. reflexivity. Qed.

(** C25. Remapping two keys onto each other swaps them: after
    [remap("a", "b")] and [remap("b", "a")], a full press/release cycle of
    [a], however long it is held, calls [b]'s callbacks once each, and a
    cycle of [b] calls [a]'s.  Resolution is one hop, so neither key is
    sent back to its own entry. *)
Theorem remap_swap_keys n :
  calls (polls (replicate (S n) (press "a" true) ++ [press "a" false]) (mkWorld swapped [])).1
    = [3; 4] ∧
  calls (polls (replicate (S n) (press "b" true) ++ [press "b" false]) (mkWorld swapped [])).1
    = [1; 2].
Proof.
  split; [apply (edge_cycle_calls "a" (mkEntry "a" false false true [3] [4]))
         |apply (edge_cycle_calls "b" (mkEntry "b" false false true [1] [2]))];
    try reflexivity; apply solo_b_sound; vm_compute; reflexivity.
Qed.

(** Resolution is one hop, and a remap to a missing key falls back
    to the key's own entry: with [a -> b -> c], a press/release cycle of
    [a] calls [b]'s callbacks, not [c]'s; with [a] remapped to [b] and
    [b] then removed, a cycle of [a] calls [a]'s own callbacks. *)
Example remap_resolution_one_hop :
  calls (polls (cycle "a") (mkWorld chained [])).1 = [3; 4] ∧
  calls (polls (cycle "a") (mkWorld dangling [])).1 = [1; 2].
Proof. split; vm_compute; reflexivity. Qed.

(** ** The general theorems at concrete inputs *)

Lemma demo_solo : solo "a" demo_a demo.
Proof. apply solo_b_sound. vm_compute. reflexivity. Defined.

Lemma update_refines_par_witness :
  ∃ d', update (press "a" true) (mkWorld demo []) =
    (mkWorld (set_keys d' demo) ([] ++ (poll_par (press "a" true) (keys demo)).2), inr ()).
Proof.
  destruct demo_solo as (Hinv & Hinj & _).
  destruct (update_refines_par (press "a" true) (mkWorld demo [])) as (d' & H & _);
    [done|done|reflexivity|reflexivity|].
  exists d'. exact H.
Defined.

Lemma edge_press_release_witness :
  ∃ w' r', polls ([press "a" true; press "a" true; press "a" true] ++ [press "a" false])
             (mkWorld demo []) = (w', inr ()) ∧
    PyDict.get (keys (kb w')) (eff_key (keys demo) "a") = Some r' ∧
    phase_of r' = Released ∧ calls w' = [] ++ [1] ++ [2].
Proof.
  apply (edge_press_release "a" demo_a _ _ (mkWorld demo []));
    [exact demo_solo|split; reflexivity|reflexivity|discriminate| |quiet_solve|reflexivity].
  repeat (constructor; [split; [quiet_solve|reflexivity]|]). constructor.
Defined.

Definition demo_cont : keyboard_binding := (bind "a" (Some 1) (Some 2) false (init title)).1.

Lemma continuous_press_release_witness :
  ∃ w' r', polls ([press "a" true; press "a" true; press "a" true] ++ [press "a" false])
             (mkWorld demo_cont []) = (w', inr ()) ∧
    PyDict.get (keys (kb w')) (eff_key (keys demo_cont) "a") = Some r' ∧
    phase_of r' = Released ∧ calls w' = [] ++ concat (replicate 3 [1]) ++ [2].
Proof.
  apply (continuous_press_release "a" (mkEntry "a" false false false [1] [2])
           [press "a" true; press "a" true; press "a" true] (press "a" false)
           (mkWorld demo_cont []));
    [apply solo_b_sound; vm_compute; reflexivity|reflexivity|discriminate| |quiet_solve|reflexivity].
  repeat (constructor; [split; [quiet_solve|reflexivity]|]). constructor.
Defined.

Lemma update_key_tick_witness :
  tick true Released true HeldFired (Some Head) ∧
  update_key (press "a" true) "a" (mkWorld demo []) =
    (mkWorld (set_keys (PyDict.alter (entry_tick true) "a" (keys demo)) demo) ([] ++ [1]), inr ()).
Proof.
  pose proof (update_key_tick (press "a" true) "a" (mkWorld demo []) demo_a
                ltac:(vm_compute; reflexivity)) as H.
  change (resolve (keys demo) "a" demo_a) with ("a"%string, demo_a) in H.
  apply H. repeat constructor.
Defined.

Lemma polls_refine_run_witness :
  ∃ w' r', polls [press "a" true; press "a" false; press "a" true] (mkWorld demo []) = (w', inr ()) ∧
    PyDict.get (keys (kb w')) (eff_key (keys demo) "a") = Some r' ∧
    phase_of r' = (run true Released [true; false; true]).1 ∧
    calls w' = [] ++ concat (event_actions demo_a <$> (run true Released [true; false; true]).2).
Proof.
  apply (polls_refine_run "a" demo_a [press "a" true; press "a" false; press "a" true]
           (mkWorld demo [])); [exact demo_solo|].
  repeat (constructor; [quiet_solve|]). constructor.
Defined.

Lemma update_unfocused_witness :
  update (mkSample (Some "Other"%string) (λ _, true) (λ _, false)) (mkWorld demo []) =
    (mkWorld demo [], inr ()).
Proof. apply update_unfocused. reflexivity. Defined.

Lemma update_preserves_inv_witness :
  kb_inv (kb (update (press "a" true) (mkWorld demo [])).1).
Proof. apply update_preserves_inv. exact (proj1 demo_solo). Defined.

(** [a] bound to head [3] in front of [1]; callback [3] raises. *)
Definition demo_raise : keyboard_binding := (bind "a" (Some 3) None true demo).1.
Definition raising : sample :=
  mkSample (Some title) (λ k', bool_decide (k' = "a"%string)) (λ a, bool_decide (a = 3)).

Lemma update_head_raises_witness :
  update raising (mkWorld demo_raise []) =
    (mkWorld (set_keys (PyDict.alter (set_pressed true) "a" (keys demo_raise)) demo_raise)
             ([] ++ [] ++ [3]), inl (ActionRaised 3)) ∧
  fired (set_pressed true (mkEntry "a" false false true [3; 1] [2])) true = [3; 1].
Proof.
  apply (update_head_raises raising (mkWorld demo_raise []) [] "a" (drop 1 default_keys)
           (mkWorld demo_raise []) (mkEntry "a" false false true [3; 1] [2]) "a"
           (mkEntry "a" false false true [3; 1] [2]) [] 3 [1]);
    try reflexivity; try (right; reflexivity); constructor.
Defined.

Lemma api_preserves_inv_witness : kb_inv (api (RemoveKey "a") demo).1.
Proof. apply api_preserves_inv. exact (proj1 demo_solo). Defined.

Lemma remove_bind_first_witness :
  remove_bind "a" true 1 (bulk_bind "a" (Some [2; 1]) None true demo).1 =
    (set_keys (PyDict.alter (set_heads [2; 1]) "a"
       (keys (bulk_bind "a" (Some [2; 1]) None true demo).1))
       (bulk_bind "a" (Some [2; 1]) None true demo).1, inr true).
Proof.
  apply (remove_bind_first _ "a" true 1 (mkEntry "a" false false true [1; 2; 1] [2])).
  vm_compute. reflexivity.
Defined.

Lemma remove_bind_missing_witness :
  remove_bind "F13" false 2 demo = (demo, inl TypeError).
Proof. apply remove_bind_missing. vm_compute. reflexivity. Defined.

Lemma load_keys_merge_witness :
  PyDict.get (keys (load_keys (Some [("a", "b"); ("f1", "")]%string) demo).1) "f1" =
    Some (fresh_entry "f1" true).
Proof.
  destruct (load_keys_merge demo [("a", "b"); ("f1", "")]%string) as [_ H].
  destruct H as (_ & _ & _ & H); [vm_compute; repeat constructor; set_solver|].
  rewrite H. reflexivity.
Defined.

Lemma save_load_roundtrip_witness : load_keys (Some (save_keys demo)) demo = (demo, inr true).
Proof. apply save_load_roundtrip. exact (proj1 (proj1 demo_solo)). Defined.

Lemma save_load_targets_witness :
  target <$> PyDict.get (keys (load_keys (Some (save_keys (remapped [] []))) (init "Other")).1) "a"
    = Some "b"%string.
Proof.
  apply (save_load_targets (remapped [] []) (init "Other") "a"
           (mkEntry "b" false false true [] [])); [|vm_compute; reflexivity|left; done].
  vm_compute. repeat constructor; set_solver.
Defined.

Lemma dict_refines_gmap_witness :
  PyDict.to_map (PyDict.pop "x" [("x", 1); ("y", 2)]%string) =
    delete "x"%string (PyDict.to_map [("x", 1); ("y", 2)]%string).
Proof.
  apply (PyDict.dict_refines_gmap [("x", 1); ("y", 2)]%string).
  vm_compute. repeat constructor; set_solver.
Defined.

(** [a] bound to tail [3] in front of [2], after one poll holding [a];
    callback [3] raises. *)
Definition demo_tail : world :=
  (update (press "a" true) (mkWorld (bind "a" None (Some 3) true demo).1 [])).1.
Definition raising_tail : sample :=
  mkSample (Some title) (λ _, false) (λ a, bool_decide (a = 3)).

Lemma update_tail_raises_witness :
  (update raising_tail demo_tail).2 = inl (ActionRaised 3) ∧
  phase_of (entry_tick false (mkEntry "a" true true true [1] [3; 2])) = Released.
Proof.
  destruct (update_tail_raises raising_tail demo_tail [] "a" (drop 1 default_keys) demo_tail
              (mkEntry "a" true true true [1] [3; 2]) "a"
              (mkEntry "a" true true true [1] [3; 2]) [] 3 [2]) as [H [Hph _]];
    [vm_compute; reflexivity..|constructor|reflexivity|].
  split; [by rewrite H|exact Hph].
Defined.

Lemma reachable_inv_witness :
  kb_inv (kb (step_op (Poll (press "a" true))
                (step_op (Api (Bind "a" (Some 1) (Some 2) true)) (mkWorld (init title) [])).1).1).
Proof.
  refine (proj1 (reachable_inv title _ _)). apply reach_step, reach_step, reach_init.
Defined.

Lemma key_methods_spec_witness :
  (remove_key "a" demo).2 = inr true.
Proof.
  destruct (key_methods_spec demo "a" None true) as (_ & _ & _ & _ & H & _).
  rewrite (proj1 (H (proj1 (proj1 demo_solo)))). reflexivity.
Defined.

Lemma pressed_write_only_witness :
  obs erase_w (for_ step_op [Poll (press "a" true); Poll (press "a" false)] (mkWorld demo [])) =
  obs erase_w (for_ step_op [Poll (press "a" true); Poll (press "a" false)]
                 (mkWorld (set_keys (PyDict.alter (set_pressed true) "a" (keys demo)) demo) [])).
Proof. apply pressed_write_only. vm_compute. reflexivity. Defined.

Lemma get_binds_live_witness :
  hget_binds "a" (hinit title) = (hinit title, inr (Some 0, Some 1)).
Proof.
  destruct (get_binds_live (hinit title) "a" (mkHEntry "a" false false true 0 1) "b" 7
              (hinit_sep title) ltac:(vm_compute; reflexivity)) as [H _].
  exact H.
Defined.

Lemma find_index_bounds_witness :
  1 < length [2; 1; 1] ∧ [2; 1; 1] !! 1 = Some 1 ∧ 1 ∉ take 1 [2; 1; 1].
Proof. apply (find_index_bounds 1 [2; 1; 1] 1). reflexivity. Defined.

(** Key [a] held on the even polls and released on the odd ones. *)
Definition blink (n : nat) : sample := press "a" (Nat.even n).

Lemma press_answered_witness :
  ∃ j w1 w2, 0 < j ≤ 1 ∧ (∀ l, 0 ≤ l < j → is_pressed (blink l) "a" = true) ∧
    is_pressed (blink j) "a" = false ∧
    stream_polls blink j (mkWorld demo []) = (w1, inr ()) ∧
    stream_polls blink (S j) (mkWorld demo []) = (w2, inr ()) ∧
    calls w2 = calls w1 ++ tails demo_a.
Proof.
  apply (press_answered "a" demo_a blink (mkWorld demo []) 0 1);
    [exact demo_solo|intros n; quiet_solve|reflexivity|lia|reflexivity].
Defined.

Lemma edge_calls_pairs_witness :
  ∃ w' r' n,
    polls [press "a" true; press "a" true; press "a" false; press "a" true; press "a" false;
           press "a" true] (mkWorld demo []) = (w', inr ()) ∧
    PyDict.get (keys (kb w')) (eff_key (keys demo) "a") = Some r' ∧
    calls w' = [] ++ concat (replicate n (heads demo_a ++ tails demo_a)) ++
                 (if latch r' then heads demo_a else []).
Proof.
  apply (edge_calls_pairs "a" demo_a _ (mkWorld demo []));
    [exact demo_solo|split; reflexivity|reflexivity|].
  repeat (constructor; [quiet_solve|]). constructor.
Defined.

(** ** Files *)

Definition map_file : string := "keyboard_map.json".

(** The same samples for the JSON model, every key name known to the
    keyboard library. *)
Definition jpress (k : string) (b : bool) : jsample := mkJSample (press k b) (λ _, true).

(** A file naming [a] twice ([b], then [c]) and a new key [q] with the
    empty string. *)
Definition fs_strings : gmap string file :=
  {[ map_file := Doc (JObj ((λ kv, (kv.1, JStr kv.2)) <$> [("a", "b"); ("q", ""); ("a", "c")]%string)) ]}.

Lemma json_model_refines_witness :
  jload_keys map_file (jembed fs_strings (mkWorld demo [])) =
    (jembed fs_strings (mkWorld (load_keys (Some (dict_of_pairs [("a", "b"); ("q", ""); ("a", "c")]%string))
                                  (kb (mkWorld demo []))).1 (calls (mkWorld demo []))), inr true) ∧
  jupdate (jpress "a" true) (jembed fs_strings (mkWorld demo [])) =
    (jembed fs_strings (update (press "a" true) (mkWorld demo [])).1,
     sum_map jexn_of id (update (press "a" true) (mkWorld demo [])).2).
Proof. apply json_model_refines; reflexivity. Defined.

Lemma jload_keys_spec_witness :
  let s := jembed_self fs_strings [] demo in
  match fs s !! map_file with
  | Some (Doc j) =>
      match decode j with
      | JObj kvs =>
          ∃ d', jload_keys map_file s = (set_jkeys d' s, inr true) ∧ PyDict.wf d' ∧
            PyDict.keys d' = PyDict.keys (jkeys (jself s)) ++
                               filter (λ k, k ∉ PyDict.keys (jkeys (jself s))) (PyDict.keys kvs) ∧
            ∀ k, PyDict.get d' k =
                   match PyDict.get kvs k with
                   | Some v => Some (match PyDict.get (jkeys (jself s)) k with
                                     | Some e => if entry_eq e v then e else set_jtarget v e
                                     | None => mkJEntry (if truthy v then v else JStr k)
                                                 false false true [] []
                                     end)
                   | None => PyDict.get (jkeys (jself s)) k
                   end
      | _ => jload_keys map_file s = (s, inr false)
      end
  | _ => jload_keys map_file s = (s, inr false)
  end.
Proof. apply jload_keys_spec, jembed_kb_wf. exact (proj1 (proj1 demo_solo)). Defined.

(** A file that maps [a] to the list [[1]]. *)
Definition fs_list : gmap string file := {[ map_file := Doc (JObj [("a", JArr [JNum 1])]%string) ]}.

(** Loaded from [fs_list] into the constructor's object, then polled: [a]'s
    target is the list [[1]], and the poll raised [TypeError]. *)
Definition listed : jsys :=
  (jupdate (jpress "a" false) (jload_keys map_file (jembed_self fs_list [] (init title))).1).1.

Lemma jsave_load_roundtrip_witness :
  jload_keys map_file (jsave_keys map_file listed).1 = ((jsave_keys map_file listed).1, inr true).
Proof. apply (jsave_load_roundtrip title). apply jreach_poll, jreach_load, jreach_init. Defined.

Lemma load_breaks_update_witness :
  (jload_keys map_file (jembed_self fs_list [] demo)).2 = inr true ∧
  (jupdate (jpress "a" false) (jload_keys map_file (jembed_self fs_list [] demo)).1).2 = inl JTypeError ∧
  target_unhashable "a" (jupdate (jpress "a" false) (jload_keys map_file (jembed_self fs_list [] demo)).1).1.
Proof.
  apply (load_breaks_update map_file _ [("a", JArr [JNum 1])]%string "a"
           (jembed_entry demo_a) (JArr [JNum 1]));
    [apply jembed_kb_wf, (proj1 (proj1 demo_solo))|reflexivity..|intros; reflexivity|intros; reflexivity].
Defined.

(** [add_key("Q")] registers a name the keyboard library does not know:
    the next focused poll raises [ValueError] at [keyboard.is_pressed]. *)
Definition jpress_unknown : jsample := mkJSample (press "a" true) (λ k, bool_decide (k ≠ "Q")).

Definition with_unknown : jsys := (jadd_key "Q" (JStr "") false (jembed_self fs_list [] demo)).1.

Lemma jupdate_first_error_witness :
  (jupdate jpress_unknown with_unknown).2 = inl ValueError ∧
  same_targets with_unknown (jupdate jpress_unknown with_unknown).1.
Proof.
  destruct (jupdate_first_error jpress_unknown with_unknown) as [H1 H2]; [intros; reflexivity|].
  split; [rewrite H1; vm_compute; reflexivity|exact H2].
Defined.

End Scenarios.
